(** * The decision core of the exploratory-testing agent

    A shallow embedding of the Python package [agentic_reasoning]: the
    risk policy, the exploration policy, the baseline statistics, the
    forward-progress invariant, the anomaly detector, the control router,
    the action planner, the [ActionContract] schema and the reasoning
    cycle that sequences them.

    Conventions of the embedding.
    - Python [float]s are read in two ways.  The risk policy, the router
      and the planner compute on exact rationals [Q]: every float operation
      is read as the real-number operation it approximates, and NaN and the
      infinities are left out.  The baseline statistics compute on the
      binary64 numbers of the machine, the primitive [float]s, and raise
      where the conversion of an [int], the division and [**] raise.  The
      exploration policy is given in both readings, [Exploration] on [Q]
      and [ExplorationFloat] on binary64: which of two actions is selected
      can depend on the rounding.  Python [int]s are [Z].
    - Python [str] is [string], read as a sequence of characters with code
      points below 256.
    - A Python exception is a value [Raise e] of the result type [exc].
    - [Dict[str, float]] is a [gmap] with string keys; a dictionary whose
      iteration order is observed by the code is an association list.
    - In-place mutation of the [AgentState] is explicit state passing. *)

From Stdlib Require Import QArith Qabs Qpower Lqa ZArith List String Ascii Bool Lia Sorted.
From Stdlib Require Import Floats.
From stdpp Require Import gmap strings.
Import ListNotations.

Local Open Scope Z_scope.
Local Open Scope string_scope.

(** A decimal constant of a float denotes the nearest binary64 number, as
    it does in Python. *)
#[local] Set Warnings "-inexact-float".

(** ** Exceptions *)

Inductive pyerr : Type :=
| ValidationError (msg : string)   (* pydantic: a field validator raised ValueError *)
| RecursionError                   (* maximum recursion depth exceeded *)
| ZeroDivisionError
| OverflowError
| TypeError
| IndexError
| OtherError (msg : string).       (* raised while reading an ill-typed observation *)

Inductive exc (A : Type) : Type :=
| Ok (a : A)
| Raise (e : pyerr).

Arguments Ok {A} a.
Arguments Raise {A} e.

Definition exc_bind {A B : Type} (c : exc A) (k : A -> exc B) : exc B :=
  match c with
  | Ok a => k a
  | Raise e => Raise e
  end.

Notation "'let*' x ':=' c 'in' k" := (exc_bind c (fun x => k))
  (at level 10, x pattern, c at level 100, k at level 200).

(** ** Comparisons and the two-argument [min] and [max], on exact rationals *)

Definition Qlt_bool (a b : Q) : bool := negb (Qle_bool b a).
Definition Qgt_bool (a b : Q) : bool := Qlt_bool b a.

(** [max(a, b)] keeps [a] unless [b > a]; [min(a, b)] keeps [a] unless [b < a]. *)
Definition py_max (a b : Q) : Q := if Qgt_bool b a then b else a.
Definition py_min (a b : Q) : Q := if Qlt_bool b a then b else a.

(** ** Strings

    [str.strip()] removes leading and trailing characters for which
    [str.isspace()] holds; below code point 256 these are 9-13, 28-32,
    133 and 160.  [str.lower()] maps A-Z, and the Latin-1 capitals
    192-222 other than 215, to the letter 32 places further. *)

Definition is_space (c : ascii) : bool :=
  let n := nat_of_ascii c in
  ((9 <=? n) && (n <=? 13) || (28 <=? n) && (n <=? 32) || (n =? 133) || (n =? 160))%nat.

Fixpoint lstrip (s : string) : string :=
  match s with
  | EmptyString => EmptyString
  | String c s' => if is_space c then lstrip s' else s
  end.

Fixpoint rstrip (s : string) : string :=
  match s with
  | EmptyString => EmptyString
  | String c s' =>
      match rstrip s' with
      | EmptyString => if is_space c then EmptyString else String c EmptyString
      | r => String c r
      end
  end.

Definition strip (s : string) : string := rstrip (lstrip s).

Definition lower_char (c : ascii) : ascii :=
  let n := nat_of_ascii c in
  if ((65 <=? n) && (n <=? 90) || (192 <=? n) && (n <=? 222) && negb (n =? 215))%nat
  then ascii_of_nat (n + 32) else c.

Fixpoint lower (s : string) : string :=
  match s with
  | EmptyString => EmptyString
  | String c s' => String (lower_char c) (lower s')
  end.

(** Truthiness of a [str] and of an [Optional[str]]. *)
Definition str_truthy (s : string) : bool := negb (String.eqb s "").

Definition opt_truthy (o : option string) : bool :=
  match o with
  | Some s => str_truthy s
  | None => false
  end.

(** ** Lists

    [l[-n:]] for [n >= 0]: the last [n] elements, the whole list when it
    is shorter, and, since [-0] is [0], the whole list when [n = 0]. *)

Definition slice_last {A : Type} (n : nat) (l : list A) : list A :=
  match n with
  | O => l
  | _ => skipn (length l - n) l
  end.

(** [l[-1] if l else None] *)
Definition last_or_none {A : Type} (l : list A) : option A := last l.

(** [l.count(x)] on a list of strings. *)
Definition py_count (x : string) (l : list string) : nat :=
  length (List.filter (String.eqb x) l).

(** ** The floats of the machine, and the operations on them that can raise

    A Python [float] is an IEEE 754 binary64 number: [+], [-], [*] and
    the comparisons are the machine operations and never raise.  What can
    raise is the conversion of an [int] operand, the division, and [**]. *)

(** [a > b] on floats: false when either is NaN. *)
Definition float_gt (a b : float) : bool := (b <? a)%float.

(** The float nearest to an integer, ties to even: an infinity when that
    is beyond the largest finite float. *)
Definition float_of_Z (n : Z) : float :=
  SF2Prim (binary_normalize prec emax n 0 false).

(** [float(n)] for an [int], as the operators convert an [int] operand:
    OverflowError when the integer is too large for a float. *)
Definition float_of_int (n : Z) : exc float :=
  let f := float_of_Z n in
  if is_infinity f then Raise OverflowError else Ok f.

(** [a / n] for a float [a] and an [int] [n]: the operand is converted,
    then a zero divisor is refused. *)
Definition float_div_int (a : float) (n : Z) : exc float :=
  let* b := float_of_int n in
  if (n =? 0)%Z then Raise ZeroDivisionError else Ok (a / b)%float.

(** [n * a] for an [int] [n] and a float [a]. *)
Definition int_mul_float (n : Z) (a : float) : exc float :=
  let* b := float_of_int n in
  Ok (b * a)%float.

(** A Python [complex]. *)
Record complex : Type := { real : float; imag : float }.

(** What a standard deviation can hold: [x ** 0.5] is a [complex] when
    [x] is negative. *)
Inductive number : Type :=
| Float (x : float)
| Complex (z : complex).

(** [v == 0] *)
Definition number_is_zero (v : number) : bool :=
  match v with
  | Float x => (x =? 0)%float
  | Complex z => (real z =? 0)%float && (imag z =? 0)%float
  end.

(** What the interpreter takes from the C library, and its arithmetic on
    [complex]. *)
Class FloatRuntime : Type := {
  (** [pow(x, y)] of the C library, called on a finite [x > 0] other than 1 *)
  libm_pow : float -> float -> float;
  (** [x ** 0.5] for a finite [x < 0] *)
  complex_root : float -> complex;
  (** [(((count * (std_dev ** 2)) + d) / new_count) ** 0.5] for a [complex]
      [std_dev], a float [d] and a [new_count] that is not zero *)
  complex_variance_root : Z -> complex -> float -> Z -> exc complex
}.

Section WithRuntime.
Context `{FloatRuntime}.

(** [x ** 2] on a float.  NaN, the infinities, zero and 1.0 are answered
    without the C library; a negative [x] is replaced by [-x], the exponent
    being even; OverflowError when the result of [pow] is infinite. *)
Definition float_square (x : float) : exc float :=
  if is_nan x then Ok x
  else if is_infinity x then Ok (abs x)
  else if (x =? 0)%float then Ok 0%float
  else
    let x := abs x in
    if (x =? 1)%float then Ok 1%float
    else
      let r := libm_pow x 2 in
      if is_infinity r then Raise OverflowError else Ok r.

(** [x ** 0.5] on a float.  NaN, the infinities, zero and 1.0 are
    answered without the C library; a negative finite [x] gives a
    [complex]; OverflowError when the result of [pow] is infinite. *)
Definition float_root (x : float) : exc number :=
  if is_nan x then Ok (Float x)
  else if is_infinity x then Ok (Float (abs x))
  else if (x =? 0)%float then Ok (Float 0)
  else if (x <? 0)%float then Ok (Complex (complex_root x))
  else if (x =? 1)%float then Ok (Float 1)
  else
    let r := libm_pow x 0.5 in
    if is_infinity r then Raise OverflowError else Ok (Float r).

End WithRuntime.

(** ** schemas/action_contract.py *)

Module Contract.

(** Values of the [parameters] mapping; the validators read the keys only. *)
Inductive param_value : Type :=
| PNone
| PBool (b : bool)
| PInt (z : Z)
| PFloat (q : Q)
| PStr (s : string).

(** [parameters] is a [dict]: its keys are visited in insertion order. *)
Record ActionContract : Type := {
  action_id : string;
  parameters : list (string * param_value)
}.

Definition forbidden_keys : list string :=
  ["selector"; "css_selector"; "xpath"; "dom"].

Definition is_forbidden (key : string) : bool :=
  existsb (String.eqb (lower key)) forbidden_keys.

Definition validate_action_id (v : string) : exc string :=
  if negb (str_truthy v) || negb (str_truthy (strip v))
  then Raise (ValidationError "action_id cannot be empty")
  else Ok (strip v).

Fixpoint validate_parameters_loop (keys : list string) : option string :=
  match keys with
  | [] => None
  | key :: rest => if is_forbidden key then Some key else validate_parameters_loop rest
  end.

Definition validate_parameters (v : list (string * param_value))
    : exc (list (string * param_value)) :=
  match validate_parameters_loop (map fst v) with
  | Some key =>
      Raise (ValidationError
        (String.append "Forbidden parameter '"
          (String.append key
            "'. Action parameters cannot contain selectors or DOM references.")))
  | None => Ok v
  end.

(** The [action_id] field: the [min_length=1] constraint, then the
    field validator. *)
Definition action_id_field (v : string) : exc string :=
  if (String.length v <? 1)%nat
  then Raise (ValidationError "String should have at least 1 character")
  else validate_action_id v.

(** [ActionContract(action_id=..., parameters=...)]: every field is
    validated; the construction raises when one of them fails, and
    otherwise stores what the validators returned. *)
Definition construct (action_id : string) (parameters : list (string * param_value))
    : exc ActionContract :=
  match action_id_field action_id, validate_parameters parameters with
  | Ok a, Ok p => Ok {| action_id := a; parameters := p |}
  | Raise e, _ => Raise e
  | Ok _, Raise e => Raise e
  end.

End Contract.

(** ** schemas/anomaly_report.py *)

Module Anomaly.

(** Modelled from the spec: the file schemas/anomaly_report.py is not
    among the sources.  The spec gives an AnomalyReport as
    [{severity, category, action_id (optional), description, evidence}]
    with severity in LOW, MEDIUM, HIGH. *)
Inductive AnomalySeverity : Type := LOW | MEDIUM | HIGH.

(** Modelled from the spec: the categories of schemas/anomaly_report.py,
    which is not among the sources: INVARIANT_VIOLATION, REGRESSION,
    INSTABILITY. *)
Inductive AnomalyCategory : Type := INVARIANT_VIOLATION | REGRESSION | INSTABILITY.

(** Modelled from the spec: the [.value] of a severity of
    schemas/anomaly_report.py, the string the callers compare with
    (["HIGH"] in nodes/learner.py). *)
Definition severity_value (s : AnomalySeverity) : string :=
  match s with
  | LOW => "LOW"
  | MEDIUM => "MEDIUM"
  | HIGH => "HIGH"
  end.

(** Modelled from the spec: the [.value] of a category of
    schemas/anomaly_report.py, the string the callers compare with
    (["REGRESSION"] in nodes/router.py). *)
Definition category_value (c : AnomalyCategory) : string :=
  match c with
  | INVARIANT_VIOLATION => "INVARIANT_VIOLATION"
  | REGRESSION => "REGRESSION"
  | INSTABILITY => "INSTABILITY"
  end.

(** Modelled from the spec: the AnomalyReport of
    schemas/anomaly_report.py.  [description] and [evidence] are text
    for the reader that no code path inspects; they are left out. *)
Record AnomalyReport : Type := {
  severity : AnomalySeverity;
  category : AnomalyCategory;
  action_id : option string
}.

Definition severity_eqb (a b : AnomalySeverity) : bool :=
  match a, b with
  | LOW, LOW | MEDIUM, MEDIUM | HIGH, HIGH => true
  | _, _ => false
  end.

End Anomaly.

Import Anomaly.

(** ** policies/risk.py *)

Module Risk.

(** [severity_weights.get(anomaly_severity, 0.5)] *)
Definition severity_weights (anomaly_severity : string) : Q :=
  if String.eqb anomaly_severity "LOW" then 0.2%Q
  else if String.eqb anomaly_severity "MEDIUM" then 0.5%Q
  else if String.eqb anomaly_severity "HIGH" then 0.9%Q
  else 0.5%Q.

Definition default_learning_rate : Q := 0.2%Q.

Definition update_risk_score (action_id : string) (current_risk : Q)
    (triggered_anomaly : bool) (anomaly_severity : string)
    (learning_rate : Q) : Q :=
  let new_risk :=
    if negb triggered_anomaly then
      (current_risk * (1 - learning_rate * 0.5))%Q
    else
      let severity_impact := severity_weights anomaly_severity in
      (current_risk + (1.0 - current_risk) * learning_rate * severity_impact)%Q
  in
  py_max 0.0%Q (py_min 1.0%Q new_risk).

(** One iteration of the loop over the recent anomalies. *)
Definition update_from_anomaly (updated_risks : gmap string Q) (anomaly : AnomalyReport)
    : gmap string Q :=
  match Anomaly.action_id anomaly with
  | Some a =>
      if str_truthy a then
        let current_risk := default 0.5%Q (updated_risks !! a) in
        let new_risk :=
          update_risk_score a current_risk true
            (severity_value (severity anomaly)) default_learning_rate in
        <[a := new_risk]> updated_risks
      else updated_risks
  | None => updated_risks
  end.

(** [anomalies[-n:] if len(anomalies) > n else anomalies] *)
Definition recent_anomalies (anomalies : list AnomalyReport) (recent_anomalies_only : nat)
    : list AnomalyReport :=
  if (recent_anomalies_only <? length anomalies)%nat
  then slice_last recent_anomalies_only anomalies
  else anomalies.

Definition update_risks_from_anomalies (current_risks : gmap string Q)
    (anomalies : list AnomalyReport) (recent_anomalies_only : nat) : gmap string Q :=
  fold_left update_from_anomaly (recent_anomalies anomalies recent_anomalies_only)
    current_risks.

End Risk.

(** ** policies/exploration.py *)

Module Exploration.

Definition calculate_action_coverage_score (action_id : string)
    (action_history : list string) : Q :=
  let execution_count := py_count action_id action_history in
  if (execution_count =? 0)%nat then 1.0%Q
  else if (execution_count =? 1)%nat then 0.5%Q
  else (1.0 / inject_Z (Z.of_nat execution_count + 1))%Q.

Definition combined_score (action_id : string) (action_history : list string)
    (risk_scores : gmap string Q) : Q :=
  let coverage_score := calculate_action_coverage_score action_id action_history in
  let risk_score := default 0.5%Q (risk_scores !! action_id) in
  (coverage_score * 0.7 + (1.0 - risk_score) * 0.3)%Q.

(** [d[k] = v] on a [dict]: a key already present keeps its place. *)
Fixpoint dict_set (d : list (string * Q)) (k : string) (v : Q) : list (string * Q) :=
  match d with
  | [] => [(k, v)]
  | (k', v') :: d' =>
      if String.eqb k' k then (k', v) :: d' else (k', v') :: dict_set d' k v
  end.

(** The scoring loop, started from the [action_scores] built so far. *)
Fixpoint score_actions (available_actions action_history : list string)
    (risk_scores : gmap string Q) (max_risk_threshold : Q)
    (action_scores : list (string * Q)) : list (string * Q) :=
  match available_actions with
  | [] => action_scores
  | action_id :: rest =>
      let risk_score := default 0.5%Q (risk_scores !! action_id) in
      if Qgt_bool risk_score max_risk_threshold
      then score_actions rest action_history risk_scores max_risk_threshold action_scores
      else score_actions rest action_history risk_scores max_risk_threshold
             (dict_set action_scores action_id
                (combined_score action_id action_history risk_scores))
  end.

(** [max(items, key=lambda x: x[1])]: the running best is replaced only
    by an item with a strictly greater key. *)
Fixpoint max_by_score (best : string * Q) (items : list (string * Q)) : string * Q :=
  match items with
  | [] => best
  | x :: rest =>
      if Qgt_bool (snd x) (snd best) then max_by_score x rest else max_by_score best rest
  end.

(** [depth] is the number of frames the interpreter still allows: the
    function calls itself, and a call that finds none left raises
    RecursionError. *)
Fixpoint select_action_by_coverage (depth : nat) (available_actions action_history : list string)
    (risk_scores : gmap string Q) (max_risk_threshold : Q) : exc (option string) :=
  match depth with
  | O => Raise RecursionError
  | S depth' =>
      match available_actions with
      | [] => Ok None
      | _ =>
          match score_actions available_actions action_history risk_scores
                  max_risk_threshold [] with
          | [] =>
              select_action_by_coverage depth' available_actions action_history
                risk_scores 1.0%Q
          | x :: items => Ok (Some (fst (max_by_score x items)))
          end
      end
  end.

End Exploration.

(** ** policies/exploration.py on binary64

    The same function with its floats as the machine has them.  Two scores
    that are equal as real numbers can differ once every operation has
    rounded, and [max] then tells them apart: which action is selected is
    read off this module. *)

Module ExplorationFloat.

(** [1.0 / (execution_count + 1)]: the count of a list is below 2^63, far
    from the integers whose conversion to a float overflows. *)
Definition calculate_action_coverage_score (action_id : string)
    (action_history : list string) : float :=
  let execution_count := py_count action_id action_history in
  if (execution_count =? 0)%nat then 1.0%float
  else if (execution_count =? 1)%nat then 0.5%float
  else (1.0 / float_of_Z (Z.of_nat execution_count + 1))%float.

Definition combined_score (action_id : string) (action_history : list string)
    (risk_scores : gmap string float) : float :=
  let coverage_score := calculate_action_coverage_score action_id action_history in
  let risk_score := default 0.5%float (risk_scores !! action_id) in
  (coverage_score * 0.7 + (1.0 - risk_score) * 0.3)%float.

(** [d[k] = v] on a [dict]: a key already present keeps its place. *)
Fixpoint dict_set (d : list (string * float)) (k : string) (v : float)
    : list (string * float) :=
  match d with
  | [] => [(k, v)]
  | (k', v') :: d' =>
      if String.eqb k' k then (k', v) :: d' else (k', v') :: dict_set d' k v
  end.

(** The scoring loop, started from the [action_scores] built so far. *)
Fixpoint score_actions (available_actions action_history : list string)
    (risk_scores : gmap string float) (max_risk_threshold : float)
    (action_scores : list (string * float)) : list (string * float) :=
  match available_actions with
  | [] => action_scores
  | action_id :: rest =>
      let risk_score := default 0.5%float (risk_scores !! action_id) in
      if float_gt risk_score max_risk_threshold
      then score_actions rest action_history risk_scores max_risk_threshold action_scores
      else score_actions rest action_history risk_scores max_risk_threshold
             (dict_set action_scores action_id
                (combined_score action_id action_history risk_scores))
  end.

(** [max(items, key=lambda x: x[1])]: the running best is replaced only
    by an item whose key compares greater. *)
Fixpoint max_by_score (best : string * float) (items : list (string * float))
    : string * float :=
  match items with
  | [] => best
  | x :: rest =>
      if float_gt (snd x) (snd best) then max_by_score x rest else max_by_score best rest
  end.

(** [depth] is the number of frames the interpreter still allows. *)
Fixpoint select_action_by_coverage (depth : nat) (available_actions action_history : list string)
    (risk_scores : gmap string float) (max_risk_threshold : float) : exc (option string) :=
  match depth with
  | O => Raise RecursionError
  | S depth' =>
      match available_actions with
      | [] => Ok None
      | _ =>
          match score_actions available_actions action_history risk_scores
                  max_risk_threshold [] with
          | [] =>
              select_action_by_coverage depth' available_actions action_history
                risk_scores 1.0%float
          | x :: items => Ok (Some (fst (max_by_score x items)))
          end
      end
  end.

End ExplorationFloat.

(** The interpreter's default recursion limit. *)
Definition recursion_limit : nat := 1000.

(** ** invariants/core_invariants.py *)

(** The result of an invariant check.  [evidence] and [description] are
    text for the reader and are left out. *)
Record InvariantViolation : Type := { violated : bool }.

(** What the detector reads from an observation, a [Dict[str, Any]]
    supplied by the browser driver.  The observation itself stays opaque.
    The checks on which no property below depends are taken as they are
    called from [detect_anomalies], with their verdict as the result; an
    operation that can raise on an ill-typed observation returns an [exc]. *)
Class ObservationModel (Observation : Type) : Type := {
  (** [{}] *)
  obs_empty : Observation;
  (** [bool(d)]: the mapping has a key *)
  obs_truthy : Observation -> bool;
  (** [d1 == d2] *)
  obs_eqb : Observation -> Observation -> bool;
  (** block 2 of [detect_anomalies]: [check_api_ui_consistency] on the
      [_api_response] and [_expected_ui_fields] of the observation, not
      violated when there is no API response *)
  api_ui_check : Observation -> exc InvariantViolation;
  (** block 3: [check_entity_continuity] on the [entities] of the previous
      and current observation for the given last action, not violated
      when the previous observation has no entities *)
  entity_check : Observation -> Observation -> string -> exc InvariantViolation;
  (** block 5: [check_action_availability_consistency] on the
      [_available_actions] of the previous observation, the offered actions
      and the last action *)
  availability_check : Observation -> list string -> string -> exc InvariantViolation;
  (** invariants/baseline_checks.py, [extract_metrics_from_observation]:
      the metrics, in the iteration order of the resulting [dict] *)
  extract_metrics_from_observation : Observation -> option string -> exc (list (string * float))
}.

Module CoreInvariants.
Section WithObservation.
Context {Observation : Type} `{ObservationModel Observation}.

Definition check_cause_effect_invariant (action_id : string)
(previous_observation current_observation : Observation)
(action_was_successful : bool) : InvariantViolation :=
if negb action_was_successful then {| violated := false |}
else
let observations_identical := obs_eqb previous_observation current_observation in
if observations_identical then {| violated := true |}
else {| violated := false |}.

Definition check_forward_progress (action_history : list string)
(observation_history : list Observation) (max_identical_observations : nat)
: exc InvariantViolation :=
if (length observation_history <? max_identical_observations)%nat
then Ok {| violated := false |}
else
let recent_observations := slice_last max_identical_observations observation_history in
match recent_observations with
| [] => Raise IndexError
| first_obs :: _ =>
    let all_identical :=
      forallb (fun obs => obs_eqb obs first_obs) recent_observations in
    if all_identical && (max_identical_observations <=? length action_history)%nat
    then Ok {| violated := true |}
    else Ok {| violated := false |}
end.

End WithObservation.
End CoreInvariants.

(** ** invariants/baseline_checks.py *)

Module BaselineChecks.

Record BaselineMetrics : Type := { mean : float; std_dev : number; count : Z }.

(** A stored baseline, a [dict] that may lack any of its three keys.
    What is stored under "mean" is read as a float, what is stored under
    "std_dev" as a float or a [complex], and what is stored under "count"
    as an [int], as [BaselineMetrics] declares them; an [int] stored under
    "mean" or "std_dev", like the counters of the learner, is read as the
    float of the same value. *)
Record baseline_dict : Type := {
  d_mean : option float;
  d_std_dev : option number;
  d_count : option Z
}.

Definition to_dict (self : BaselineMetrics) : baseline_dict :=
  {| d_mean := Some (mean self);
     d_std_dev := Some (std_dev self);
     d_count := Some (count self) |}.

Definition from_dict (data : baseline_dict) : BaselineMetrics :=
  {| mean := default 0.0%float (d_mean data);
     std_dev := default (Float 0.0) (d_std_dev data);
     count := default 0 (d_count data) |}.

Section WithRuntime.
Context `{FloatRuntime}.

Definition update (self : BaselineMetrics) (new_value : float) : exc BaselineMetrics :=
  let new_count := count self + 1 in
  let delta := (new_value - mean self)%float in
  let* step := float_div_int delta new_count in
  let new_mean := (mean self + step)%float in
  let delta2 := (new_value - new_mean)%float in
  let* new_std_dev :=
    match std_dev self with
    | Float s =>
        let* square := float_square s in
        let* weighted := int_mul_float (count self) square in
        let* new_variance := float_div_int (weighted + delta * delta2)%float new_count in
        float_root new_variance
    | Complex s =>
        let* root := complex_variance_root (count self) s (delta * delta2)%float new_count in
        Ok (Complex root)
    end in
  Ok {| mean := new_mean; std_dev := new_std_dev; count := new_count |}.

Definition check_stability_against_baseline (metric_name : string) (current_value : float)
    (baseline : option baseline_dict) (sigma_threshold : float)
    : exc (InvariantViolation * BaselineMetrics) :=
  match baseline with
  | None =>
      let initial_baseline :=
        {| mean := current_value; std_dev := Float 0.0; count := 1 |} in
      Ok ({| violated := false |}, initial_baseline)
  | Some baseline =>
      let baseline_metrics := from_dict baseline in
      if (count baseline_metrics <? 3)%Z then
        let* updated_baseline := update baseline_metrics current_value in
        Ok ({| violated := false |}, updated_baseline)
      else
        let mean := mean baseline_metrics in
        let std_dev := std_dev baseline_metrics in
        let with_update (violation : InvariantViolation) :=
          let* updated_baseline := update baseline_metrics current_value in
          Ok (violation, updated_baseline) in
        if number_is_zero std_dev then
          if float_gt (abs (current_value - mean)) (0.01 * abs mean)
          then with_update {| violated := true |}
          else with_update {| violated := false |}
        else
          match std_dev with
          | Float std_dev =>
              let z_score := (abs (current_value - mean) / std_dev)%float in
              if float_gt z_score sigma_threshold
              then with_update {| violated := true |}
              else with_update {| violated := false |}
          | Complex _ =>
              (* the quotient is a [complex], which [>] refuses *)
              Raise TypeError
          end
  end.

End WithRuntime.

End BaselineChecks.

(** ** schemas/agent_state.py *)

Import BaselineChecks.

Inductive ControlDecision : Type := CONTINUE | DEEP_TEST | TERMINATE.

(** The text written to [decision.reasoning].  A format string that
    embeds a number is a constructor that carries the number. *)
Inductive text : Type :=
| Text (s : string)
| MaxStepsReached (max_steps : Z)          (* "Maximum steps reached ({max_steps})" *)
| RepeatedHighSeverity (n : nat)           (* "Repeated high-severity anomalies ({n} in recent history)" *)
| HighRiskAction (risk : Q)                (* "High risk action detected (risk={risk:.2f}) - activating deep test" *)
| TerminateBecause (reason : text)         (* "TERMINATE: {reason}" *)
| DeepTestBecause (reason : text)          (* "DEEP_TEST: {reason}" *)
| Selecting (action_id : string) (n : nat) (risk : Q).
    (* "Selecting action '{action_id}' from {n} available actions. Risk score: {risk:.2f}" *)

Record Knowledge : Type := {
  baselines : gmap string baseline_dict;
  risk_scores : gmap string Q
}.

Record Decision : Type := {
  next_action : option Contract.ActionContract;
  control : ControlDecision;
  reasoning : option text
}.

Section State.
Context {Observation : Type}.

Record UIState : Type := {
  available_actions : list string;
  observation : Observation;
  page_url : option string;
  page_title : option string
}.

Record ExecutionContext : Type := {
  step_count : Z;
  max_steps : Z;
  action_history : list string;
  previous_state : option Observation
}.

Record AgentState : Type := {
  ui_state : UIState;
  execution_context : ExecutionContext;
  knowledge : Knowledge;
  decision : Decision;
  anomalies : list AnomalyReport
}.

(** Assignments to the writable fields. *)

Definition set_baselines (state : AgentState) (b : gmap string baseline_dict) : AgentState :=
  {| ui_state := ui_state state;
     execution_context := execution_context state;
     knowledge := {| baselines := b; risk_scores := risk_scores (knowledge state) |};
     decision := decision state;
     anomalies := anomalies state |}.

Definition set_risk_scores (state : AgentState) (r : gmap string Q) : AgentState :=
  {| ui_state := ui_state state;
     execution_context := execution_context state;
     knowledge := {| baselines := baselines (knowledge state); risk_scores := r |};
     decision := decision state;
     anomalies := anomalies state |}.

Definition set_decision (state : AgentState) (d : Decision) : AgentState :=
  {| ui_state := ui_state state;
     execution_context := execution_context state;
     knowledge := knowledge state;
     decision := d;
     anomalies := anomalies state |}.

Definition set_anomalies (state : AgentState) (l : list AnomalyReport) : AgentState :=
  {| ui_state := ui_state state;
     execution_context := execution_context state;
     knowledge := knowledge state;
     decision := decision state;
     anomalies := l |}.

Definition set_next_action (d : Decision) (a : option Contract.ActionContract) : Decision :=
  {| next_action := a; control := control d; reasoning := reasoning d |}.

Definition set_control (d : Decision) (c : ControlDecision) : Decision :=
  {| next_action := next_action d; control := c; reasoning := reasoning d |}.

Definition set_reasoning (d : Decision) (t : text) : Decision :=
  {| next_action := next_action d; control := control d; reasoning := Some t |}.

End State.

Arguments UIState : clear implicits.
Arguments ExecutionContext : clear implicits.
Arguments AgentState : clear implicits.

(** ** nodes/state_interpreter.py *)

Module StateInterpreter.
Section WithObservation.
Context {Observation : Type}.

(** The node computes an interpretation of the state, drops it and
returns the state it was given. *)
Definition state_interpreter_node (state : AgentState Observation) : AgentState Observation :=
state.

End WithObservation.
End StateInterpreter.

(** ** nodes/anomaly_detector.py *)

Module AnomalyDetector.
Section WithObservation.
Context {Observation : Type} `{ObservationModel Observation} `{FloatRuntime}.

Definition report (sev : AnomalySeverity) (cat : AnomalyCategory)
(last_action : option string) : AnomalyReport :=
{| severity := sev; category := cat; Anomaly.action_id := last_action |}.

Definition previous_observation_of (state : AgentState Observation) : Observation :=
match previous_state (execution_context state) with
| Some o => if obs_truthy o then o else obs_empty
| None => obs_empty
end.

(** 1. Cause-Effect Invariant *)
Definition cause_effect_anomalies (state : AgentState Observation) : list AnomalyReport :=
let current_observation := observation (ui_state state) in
let previous_observation := previous_observation_of state in
let last_action := last_or_none (action_history (execution_context state)) in
match last_action with
| Some a =>
  if str_truthy a && obs_truthy previous_observation then
    let cause_effect :=
      CoreInvariants.check_cause_effect_invariant a previous_observation
        current_observation true in
    if violated cause_effect
    then [report MEDIUM INVARIANT_VIOLATION last_action]
    else []
  else []
| None => []
end.

(** 2. API-UI Consistency *)
Definition api_ui_anomalies (state : AgentState Observation) : exc (list AnomalyReport) :=
let last_action := last_or_none (action_history (execution_context state)) in
let* api_ui_check := api_ui_check (observation (ui_state state)) in
Ok (if violated api_ui_check
  then [report HIGH INVARIANT_VIOLATION last_action]
  else []).

(** 3. Entity Continuity *)
Definition entity_anomalies (state : AgentState Observation) : exc (list AnomalyReport) :=
let last_action := last_or_none (action_history (execution_context state)) in
match last_action with
| Some a =>
  if str_truthy a then
    let* entity_check :=
      entity_check (previous_observation_of state) (observation (ui_state state)) a in
    Ok (if violated entity_check
        then [report HIGH INVARIANT_VIOLATION last_action]
        else [])
  else Ok []
| None => Ok []
end.

(** 4. Forward Progress *)
Definition forward_progress_anomalies (state : AgentState Observation)
: exc (list AnomalyReport) :=
let last_action := last_or_none (action_history (execution_context state)) in
if (3 <=? step_count (execution_context state))%Z then
let observation_history := [previous_observation_of state; observation (ui_state state)] in
let* progress_check :=
  CoreInvariants.check_forward_progress (action_history (execution_context state))
    observation_history 3 in
Ok (if violated progress_check
    then [report HIGH INSTABILITY last_action]
    else [])
else Ok [].

(** 5. Action Availability Consistency *)
Definition availability_anomalies (state : AgentState Observation)
: exc (list AnomalyReport) :=
let last_action := last_or_none (action_history (execution_context state)) in
let previous_observation := previous_observation_of state in
match last_action with
| Some a =>
  if obs_truthy previous_observation && str_truthy a then
    let* availability_check :=
      availability_check previous_observation (available_actions (ui_state state)) a in
    Ok (if violated availability_check
        then [report MEDIUM INVARIANT_VIOLATION last_action]
        else [])
  else Ok []
| None => Ok []
end.

(** 6. Baseline Stability Checks: the loop over the extracted metrics,
which updates the stored baselines as it goes. *)
Fixpoint stability_anomalies (metrics : list (string * float)) (last_action : option string)
(baselines : gmap string baseline_dict)
: exc (gmap string baseline_dict * list AnomalyReport) :=
match metrics with
| [] => Ok (baselines, [])
| (metric_name, metric_value) :: rest =>
  let baseline := baselines !! metric_name in
  let* (stability_check, updated_baseline) :=
    check_stability_against_baseline metric_name metric_value baseline 2.0%float in
  let baselines := <[metric_name := to_dict updated_baseline]> baselines in
  let* (baselines, found) := stability_anomalies rest last_action baselines in
  Ok (baselines,
      if violated stability_check
      then report MEDIUM REGRESSION last_action :: found
      else found)
end.

(** The new anomalies, with the state whose baselines were updated. *)
Definition detect_anomalies (state : AgentState Observation)
: exc (AgentState Observation * list AnomalyReport) :=
let last_action := last_or_none (action_history (execution_context state)) in
let found1 := cause_effect_anomalies state in
let* found2 := api_ui_anomalies state in
let* found3 := entity_anomalies state in
let* found4 := forward_progress_anomalies state in
let* found5 := availability_anomalies state in
let* metrics := extract_metrics_from_observation (observation (ui_state state)) last_action in
let* (baselines, found6) :=
stability_anomalies metrics last_action (baselines (knowledge state)) in
Ok (set_baselines state baselines,
  (found1 ++ found2 ++ found3 ++ found4 ++ found5 ++ found6)%list).

Definition anomaly_detector_node (state : AgentState Observation)
: exc (AgentState Observation) :=
let* (state, new_anomalies) := detect_anomalies state in
Ok (set_anomalies state (anomalies state ++ new_anomalies)%list).

End WithObservation.
End AnomalyDetector.

(** ** nodes/router.py *)

Module Router.
Section WithObservation.
Context {Observation : Type}.

Definition is_high (a : AnomalyReport) : bool := severity_eqb (severity a) HIGH.
Definition is_medium (a : AnomalyReport) : bool := severity_eqb (severity a) MEDIUM.
Definition is_regression (a : AnomalyReport) : bool :=
String.eqb (category_value (category a)) "REGRESSION".

(** [sum(1 for a in l if a.severity == AnomalySeverity.HIGH)] *)
Definition count_high (l : list AnomalyReport) : nat :=
  length (List.filter is_high l).

Definition should_terminate (state : AgentState Observation) : bool * text :=
match available_actions (ui_state state) with
| [] => (true, Text "No available actions remaining")
| _ =>
if (max_steps (execution_context state) <=? step_count (execution_context state))%Z
then (true, MaxStepsReached (max_steps (execution_context state)))
else
  let recent_anomalies :=
    if (5 <=? length (anomalies state))%nat
    then slice_last 5 (anomalies state) else anomalies state in
  let high_severity_count := count_high recent_anomalies in
  if (3 <=? high_severity_count)%nat
  then (true, RepeatedHighSeverity high_severity_count)
  else
    let last_3_anomalies :=
      if (3 <=? length (anomalies state))%nat
      then slice_last 3 (anomalies state) else [] in
    if (length last_3_anomalies =? 3)%nat && forallb is_high last_3_anomalies
    then (true, Text "Three consecutive high-severity anomalies detected")
    else
      if (20 <? length (anomalies state))%nat
         && Qgt_bool
              (inject_Z (Z.of_nat (count_high (anomalies state)))
                 / inject_Z (Z.of_nat (length (anomalies state))))
              0.5
      then (true, Text "Excessive anomaly rate (>50% high severity)")
      else (false, Text "")
end.

Definition should_deep_test (state : AgentState Observation) : bool * text :=
let recent_anomalies :=
if (3 <=? length (anomalies state))%nat
then slice_last 3 (anomalies state) else anomalies state in
let has_medium_severity := existsb is_medium recent_anomalies in
if has_medium_severity
then (true, Text "Medium severity anomaly detected - activating deep test")
else
let has_regression := existsb is_regression recent_anomalies in
if has_regression
then (true, Text "Baseline deviation detected - activating deep test")
else
  match last_or_none (action_history (execution_context state)) with
  | Some last_action =>
      let risk_score :=
        default 0.5%Q (risk_scores (knowledge state) !! last_action) in
      if Qgt_bool risk_score 0.75
      then (true, HighRiskAction risk_score)
      else (false, Text "")
  | None => (false, Text "")
  end.

(** The decision, with the state whose [decision.reasoning] was written. *)
Definition make_routing_decision (state : AgentState Observation)
: AgentState Observation * ControlDecision :=
let '(terminate, terminate_reason) := should_terminate state in
if terminate then
(set_decision state (set_reasoning (decision state) (TerminateBecause terminate_reason)),
 TERMINATE)
else
let '(deep_test, deep_test_reason) := should_deep_test state in
if deep_test then
  (set_decision state (set_reasoning (decision state) (DeepTestBecause deep_test_reason)),
   DEEP_TEST)
else
  (set_decision state
     (set_reasoning (decision state)
        (Text "CONTINUE: No anomalies or termination conditions detected")),
   CONTINUE).

Definition router_node (state : AgentState Observation) : AgentState Observation :=
let '(state, control_decision) := make_routing_decision state in
set_decision state (set_control (decision state) control_decision).

End WithObservation.
End Router.

(** ** nodes/action_planner.py *)

Module ActionPlanner.
Section WithObservation.
Context {Observation : Type}.

(** The contract, with the state whose risk scores were written back. *)
Definition plan_next_action (state : AgentState Observation)
: exc (AgentState Observation * option Contract.ActionContract) :=
let available_actions := available_actions (ui_state state) in
match available_actions with
| [] => Ok (state, None)
| _ =>
  let updated_risks :=
    Risk.update_risks_from_anomalies (risk_scores (knowledge state))
      (anomalies state) 10 in
  let state := set_risk_scores state updated_risks in
  let* selected_action_id :=
    Exploration.select_action_by_coverage recursion_limit available_actions
      (action_history (execution_context state)) updated_risks 0.9%Q in
  if negb (opt_truthy selected_action_id) then Ok (state, None)
  else
    match selected_action_id with
    | Some selected_action_id =>
        let* action_contract := Contract.construct selected_action_id [] in
        Ok (state, Some action_contract)
    | None => Ok (state, None)
    end
end.

Definition action_planner_node (state : AgentState Observation)
: exc (AgentState Observation) :=
let* (state, next_action) := plan_next_action state in
let state := set_decision state (set_next_action (decision state) next_action) in
match next_action with
| Some next_action =>
  let risk_score :=
    default 0.5%Q (risk_scores (knowledge state) !! Contract.action_id next_action) in
  Ok (set_decision state
        (set_reasoning (decision state)
           (Selecting (Contract.action_id next_action)
              (length (available_actions (ui_state state))) risk_score)))
| None =>
  Ok (set_decision state
        (set_reasoning (decision state) (Text "No valid actions available")))
end.

End WithObservation.
End ActionPlanner.

(** ** nodes/learner.py *)

Module Learner.
Section WithObservation.
Context {Observation : Type} `{ObservationModel Observation} `{FloatRuntime}.

(** [baselines.get(key, {}).get("mean", 0)] *)
Definition stored_mean (baselines : gmap string baseline_dict) (key : string) : float :=
match baselines !! key with
| Some d => default 0%float (d_mean d)
| None => 0%float
end.

Definition counter_dict (current : float) : baseline_dict :=
{| d_mean := Some (current + 1)%float; d_std_dev := Some (Float 0); d_count := Some 1%Z |}.

(** The insights are returned to a caller that drops them; the writes
to the baselines are what remains. *)
Definition learn_from_observation (state : AgentState Observation)
: exc (AgentState Observation) :=
let last_action := last_or_none (action_history (execution_context state)) in
let* metrics := extract_metrics_from_observation (observation (ui_state state)) last_action in
let state :=
match last_action with
| Some a =>
    if str_truthy a then
      let action_success_key := String.append a "_success_count" in
      let current_count := stored_mean (baselines (knowledge state)) action_success_key in
      set_baselines state
        (<[action_success_key := counter_dict current_count]> (baselines (knowledge state)))
    else state
| None => state
end in
let state :=
match page_url (ui_state state) with
| Some url =>
    if str_truthy url then
      let page_visit_key := String.append "page_visits_" url in
      let current_visits := stored_mean (baselines (knowledge state)) page_visit_key in
      set_baselines state
        (<[page_visit_key := counter_dict current_visits]> (baselines (knowledge state)))
    else state
| None => state
end in
Ok state.

Definition update_action_success_rates (state : AgentState Observation)
: exc (AgentState Observation) :=
match last_or_none (action_history (execution_context state)) with
| None => Ok state
| Some last_action =>
  let recent_anomalies :=
    if (0 <? length (anomalies state))%nat then slice_last 3 (anomalies state) else [] in
  let high_severity_triggered :=
    existsb
      (fun a =>
         match Anomaly.action_id a with
         | Some id => String.eqb id last_action
         | None => false
         end
         && String.eqb (severity_value (severity a)) "HIGH")
      recent_anomalies in
  let success_rate_key := String.append last_action "_success_rate" in
  let new_value := if negb high_severity_triggered then 1.0%float else 0.0%float in
  match baselines (knowledge state) !! success_rate_key with
  | None =>
      Ok (set_baselines state
            (<[success_rate_key :=
                 {| d_mean := Some new_value; d_std_dev := Some (Float 0.0); d_count := Some 1%Z |}]>
               (baselines (knowledge state))))
  | Some d =>
      let baseline := from_dict d in
      let* updated := update baseline new_value in
      Ok (set_baselines state
            (<[success_rate_key := to_dict updated]> (baselines (knowledge state))))
  end
end.

Definition learner_node (state : AgentState Observation) : exc (AgentState Observation) :=
let* state := learn_from_observation state in
update_action_success_rates state.

End WithObservation.
End Learner.

(** ** graph.py *)

Module Graph.
Section WithObservation.
Context {Observation : Type} `{ObservationModel Observation} `{FloatRuntime}.

Inductive next_step : Type := plan_action | terminate.

Definition determine_next_step (state : AgentState Observation) : next_step :=
match control (decision state) with
| TERMINATE => terminate
| CONTINUE => plan_action
| DEEP_TEST => plan_action
end.

(** One invocation of the compiled graph: the edges
interpret -> detect_anomalies -> route, the conditional edge after
route, and plan_action -> learn -> END. *)
Definition run_reasoning_cycle (initial_state : AgentState Observation)
: exc (AgentState Observation) :=
let state := StateInterpreter.state_interpreter_node initial_state in
let* state := AnomalyDetector.anomaly_detector_node state in
let state := Router.router_node state in
match determine_next_step state with
| terminate => Ok state
| plan_action =>
  let* state := ActionPlanner.action_planner_node state in
  Learner.learner_node state
end.

End WithObservation.
End Graph.

(** ** Two observation models and a runtime, to run the code on concrete
       inputs *)

(** The empty observation [{}]: no previous observation to compare with,
    no API response, no entities, no metrics. *)
#[local] Instance empty_observation : ObservationModel unit := {|
  obs_empty := tt;
  obs_truthy := fun _ => false;
  obs_eqb := fun _ _ => true;
  api_ui_check := fun _ => Ok {| violated := false |};
  entity_check := fun _ _ _ => Ok {| violated := false |};
  availability_check := fun _ _ _ => Ok {| violated := false |};
  extract_metrics_from_observation := fun _ _ => Ok []
|}.

(** Observations [{"state": v}] with a string [v], the shape the tests of
    the forward-progress invariant use; [None] stands for [{}].  They carry
    no API response, no entities, no [_available_actions] and no metric,
    and the actions run on them are not state-changing ones. *)
#[local] Instance state_observation : ObservationModel (option string) := {|
  obs_empty := None;
  obs_truthy := fun o => match o with Some _ => true | None => false end;
  obs_eqb := fun a b =>
    match a, b with
    | Some x, Some y => String.eqb x y
    | None, None => true
    | _, _ => false
    end;
  api_ui_check := fun _ => Ok {| violated := false |};
  entity_check := fun _ _ _ => Ok {| violated := false |};
  availability_check := fun _ _ _ => Ok {| violated := false |};
  extract_metrics_from_observation := fun _ _ => Ok []
|}.

(** A runtime whose [pow] is correctly rounded for the exponents 2 and
    0.5.  The root of a negative number is the one that the interpreter
    computes in polar form: the modulus times the cosine and the sine of
    the rounded half of pi.  No input below reaches the update of a
    [complex] standard deviation; this runtime raises there. *)
#[local] Instance correctly_rounded_runtime : FloatRuntime := {|
  libm_pow := fun x y => if (y =? 2)%float then (x * x)%float else sqrt x;
  complex_root := fun x =>
    let modulus := sqrt (abs x) in
    {| real := (modulus * 6.123233995736766e-17)%float; imag := (modulus * 1)%float |};
  complex_variance_root := fun _ _ _ _ => Raise OverflowError
|}.

(** ** Further functions of the policies, the invariants and the interpreter *)

(** [needle in haystack] on strings. *)
Fixpoint contains (needle haystack : string) : bool :=
  String.prefix needle haystack
  || match haystack with
     | EmptyString => false
     | String _ rest => contains needle rest
     end.

(** [any(kw in s for kw in keywords)] *)
Definition contains_any (keywords : list string) (s : string) : bool :=
  existsb (fun kw => contains kw s) keywords.

(** [a.action_id == action_id] for an optional and a given identifier. *)
Definition attributed_to (action_id : string) (a : AnomalyReport) : bool :=
  match Anomaly.action_id a with
  | Some id => String.eqb id action_id
  | None => false
  end.

Module RiskQueries.

(** [{action_id: 0.5 for action_id in available_actions}] *)
Definition initialize_risk_scores (available_actions : list string) : gmap string Q :=
  fold_left (fun m action_id => <[action_id := 0.5%Q]> m) available_actions ∅.

Definition get_risk_category (risk_score : Q) : string :=
  if Qlt_bool risk_score 0.2 then "SAFE"
  else if Qlt_bool risk_score 0.5 then "LOW_RISK"
  else if Qlt_bool risk_score 0.8 then "MEDIUM_RISK"
  else "HIGH_RISK".

(** [anomaly_history] is [None] by default; [None] and the empty list
    are both falsy. *)
Definition should_avoid_action (action_id : string) (risk_scores : gmap string Q)
    (risk_threshold : Q) (anomaly_history : option (list AnomalyReport)) : bool :=
  let risk := default 0.5%Q (risk_scores !! action_id) in
  if Qle_bool risk_threshold risk then true
  else
    match anomaly_history with
    | Some (first :: others) =>
        let recent_high_severity :=
          List.filter
            (fun a => attributed_to action_id a && severity_eqb (severity a) HIGH)
            (slice_last 10 (first :: others)) in
        (2 <=? length recent_high_severity)%nat
    | _ => false
    end.

(** [sorted(pairs, key=lambda x: x[1])]: the sort is stable, so its
    result is the one of an insertion that puts a pair before the first
    pair whose key is not smaller. *)
Fixpoint insert_by_risk (x : string * Q) (l : list (string * Q)) : list (string * Q) :=
  match l with
  | [] => [x]
  | y :: rest =>
      if Qlt_bool (snd y) (snd x) then y :: insert_by_risk x rest else x :: l
  end.

Definition sorted_by_risk (l : list (string * Q)) : list (string * Q) :=
  fold_right insert_by_risk [] l.

(** [top_n] is taken non-negative. *)
Definition get_safest_actions (available_actions : list string)
    (risk_scores : gmap string Q) (top_n : nat) : list string :=
  let action_risk_pairs :=
    map (fun action_id => (action_id, default 0.5%Q (risk_scores !! action_id)))
      available_actions in
  let sorted_actions := sorted_by_risk action_risk_pairs in
  map fst (firstn top_n sorted_actions).

End RiskQueries.

Module ExplorationQueries.

Inductive category : Type := navigation | form | click | assertion | wait | other.

Definition category_eqb (a b : category) : bool :=
  match a, b with
  | navigation, navigation | form, form | click, click
  | assertion, assertion | wait, wait | other, other => true
  | _, _ => false
  end.

(** The [dict] of the six lists. *)
Record categories : Type := {
  navigation_actions : list string;
  form_actions : list string;
  click_actions : list string;
  assertion_actions : list string;
  wait_actions : list string;
  other_actions : list string
}.

Definition get_category (cs : categories) (c : category) : list string :=
  match c with
  | navigation => navigation_actions cs
  | form => form_actions cs
  | click => click_actions cs
  | assertion => assertion_actions cs
  | wait => wait_actions cs
  | other => other_actions cs
  end.

(** [categories[c].append(action_id)] *)
Definition append_to (cs : categories) (c : category) (action_id : string) : categories :=
  match c with
  | navigation =>
      {| navigation_actions := navigation_actions cs ++ [action_id];
         form_actions := form_actions cs; click_actions := click_actions cs;
         assertion_actions := assertion_actions cs; wait_actions := wait_actions cs;
         other_actions := other_actions cs |}
  | form =>
      {| navigation_actions := navigation_actions cs;
         form_actions := form_actions cs ++ [action_id]; click_actions := click_actions cs;
         assertion_actions := assertion_actions cs; wait_actions := wait_actions cs;
         other_actions := other_actions cs |}
  | click =>
      {| navigation_actions := navigation_actions cs;
         form_actions := form_actions cs; click_actions := click_actions cs ++ [action_id];
         assertion_actions := assertion_actions cs; wait_actions := wait_actions cs;
         other_actions := other_actions cs |}
  | assertion =>
      {| navigation_actions := navigation_actions cs;
         form_actions := form_actions cs; click_actions := click_actions cs;
         assertion_actions := assertion_actions cs ++ [action_id];
         wait_actions := wait_actions cs; other_actions := other_actions cs |}
  | wait =>
      {| navigation_actions := navigation_actions cs;
         form_actions := form_actions cs; click_actions := click_actions cs;
         assertion_actions := assertion_actions cs;
         wait_actions := wait_actions cs ++ [action_id]; other_actions := other_actions cs |}
  | other =>
      {| navigation_actions := navigation_actions cs;
         form_actions := form_actions cs; click_actions := click_actions cs;
         assertion_actions := assertion_actions cs; wait_actions := wait_actions cs;
         other_actions := other_actions cs ++ [action_id] |}
  end%list.

(** The [if]/[elif] chain of the loop body. *)
Definition category_of (action_id : string) : category :=
  let action_lower := lower action_id in
  if contains_any ["navigate"; "goto"; "back"; "forward"] action_lower then navigation
  else if contains_any ["fill"; "input"; "type"; "select"] action_lower then form
  else if contains_any ["click"; "press"; "submit"] action_lower then click
  else if contains_any ["assert"; "verify"; "check"; "expect"] action_lower then assertion
  else if contains_any ["wait"; "sleep"; "pause"] action_lower then wait
  else other.

Definition no_categories : categories :=
  {| navigation_actions := []; form_actions := []; click_actions := [];
     assertion_actions := []; wait_actions := []; other_actions := [] |}.

Definition group_actions_by_category (available_actions : list string) : categories :=
  fold_left (fun cs action_id => append_to cs (category_of action_id) action_id)
    available_actions no_categories.

Definition get_unexplored_action_count (available_actions action_history : list string)
    : nat :=
  let executed_actions : gset string := list_to_set action_history in
  let available_set : gset string := list_to_set available_actions in
  let unexplored := available_set ∖ executed_actions in
  size unexplored.

End ExplorationQueries.

(** The checks of invariants/core_invariants.py that take parts of an
    observation, on typed arguments: a [Dict[str, Any]] is a [gmap], read
    through its keys except where a value is tested. *)
Module TypedInvariants.

(** Truthiness of a scalar value. *)
Definition value_truthy (v : Contract.param_value) : bool :=
  match v with
  | Contract.PNone => false
  | Contract.PBool b => b
  | Contract.PInt z => negb (z =? 0)%Z
  | Contract.PFloat q => negb (Qeq_bool q 0)
  | Contract.PStr s => str_truthy s
  end.

(** [v == 'ok'] for a scalar value. *)
Definition value_is_ok (v : option Contract.param_value) : bool :=
  match v with
  | Some (Contract.PStr s) => String.eqb s "ok"
  | _ => false
  end.

Definition missing_fields {V : Type} (ui_observation : gmap string V)
    (expected_ui_fields : list string) : list string :=
  List.filter
    (fun field => match ui_observation !! field with Some _ => false | None => true end)
    expected_ui_fields.

Definition check_api_ui_consistency {V : Type}
    (api_response : option (gmap string Contract.param_value))
    (ui_observation : gmap string V) (expected_ui_fields : list string)
    : InvariantViolation :=
  match api_response with
  | None => {| violated := false |}
  | Some api_response =>
      let api_success :=
        value_truthy (default (Contract.PBool false) (api_response !! "success"))
        || value_is_ok (api_response !! "status") in
      if negb api_success then {| violated := false |}
      else
        match missing_fields ui_observation expected_ui_fields with
        | [] => {| violated := false |}
        | _ => {| violated := true |}
        end
  end.

(** The loop over [previous_entities.keys()], given in iteration order. *)
Definition disappeared_entities {V : Type} (previous_keys : list string)
    (current_entities : gmap string V) (action_id : string) : list string :=
  List.filter
    (fun entity_id =>
       match current_entities !! entity_id with
       | Some _ => false
       | None =>
           negb (contains "delete" (lower action_id))
           && negb (contains "remove" (lower action_id))
       end)
    previous_keys.

Definition check_entity_continuity {V : Type} (previous_keys : list string)
    (current_entities : gmap string V) (action_id : string) : InvariantViolation :=
  match disappeared_entities previous_keys current_entities action_id with
  | [] => {| violated := false |}
  | _ => {| violated := true |}
  end.

Definition state_changing_keywords : list string :=
  ["submit"; "navigate"; "create"; "delete"; "update"; "login"; "logout"].

Definition check_action_availability_consistency
    (previous_available_actions current_available_actions : list string)
    (action_executed : string) : InvariantViolation :=
  let is_state_changing := contains_any state_changing_keywords (lower action_executed) in
  if is_state_changing then
    let actions_identical :=
      bool_decide ((list_to_set previous_available_actions : gset string)
                   = list_to_set current_available_actions) in
    if actions_identical then {| violated := true |} else {| violated := false |}
  else {| violated := false |}.

End TypedInvariants.

(** nodes/state_interpreter.py, [compute_state_delta], on observations
    whose values carry a decidable equality, the [==] of the values.  The
    two key lists are built from sets, in no order of their own: they are
    sets here. *)
Module StateDelta.
Section WithValues.
Context {V : Type} `{EqDecision V}.

Record delta : Type := {
  added_keys : gset string;
  removed_keys : gset string;
  changed_values : gmap string (V * V);
  unchanged : bool
}.

Definition changed_entry (p c : option V) : option (V * V) :=
  match p, c with
  | Some x, Some y => if decide (x = y) then None else Some (x, y)
  | _, _ => None
  end.

Definition compute_state_delta (previous current : gmap string V) : delta :=
  let prev_keys := dom previous in
  let curr_keys := dom current in
  let added_keys := curr_keys ∖ prev_keys in
  let removed_keys := prev_keys ∖ curr_keys in
  let changed_values := merge changed_entry previous current in
  {| added_keys := added_keys;
     removed_keys := removed_keys;
     changed_values := changed_values;
     unchanged :=
       (size added_keys =? 0)%nat && (size removed_keys =? 0)%nat
       && (size changed_values =? 0)%nat |}.

End WithValues.
End StateDelta.

(** The stored risk scores are within the range of the data model. *)
Definition risks_in_range (risk_scores : gmap string Q) : Prop :=
  forall a r, risk_scores !! a = Some r -> (0 <= r <= 1)%Q.

(** ** Vocabulary of the statements *)

(** The string has no character, or whitespace only. *)
Definition blank (s : string) : Prop :=
  forall c : ascii, In c (list_ascii_of_string s) -> is_space c = true.

(** The key is, up to case, one of the forbidden keys. *)
Definition forbidden_up_to_case (key : string) : Prop :=
  exists f : string, In f Contract.forbidden_keys /\ lower key = lower f.

(** [risk_scores.get(action_id, 0.5)] *)
Definition stored_risk (risk_scores : gmap string Q) (action_id : string) : Q :=
  default 0.5%Q (risk_scores !! action_id).

(** The action is not excluded by the threshold. *)
Definition allowed (risk_scores : gmap string Q) (threshold : Q) (action_id : string) : Prop :=
  (stored_risk risk_scores action_id <= threshold)%Q.

Definition allowedb (risk_scores : gmap string Q) (threshold : Q) (action_id : string) : bool :=
  negb (Qgt_bool (stored_risk risk_scores action_id) threshold).

(** The threshold under which the action is chosen: the given one, or 1.0
    when the given one excludes every offered action. *)
Definition effective_threshold (available_actions : list string)
    (risk_scores : gmap string Q) (threshold : Q) : Q :=
  if existsb (allowedb risk_scores threshold) available_actions then threshold else 1.0%Q.

(** The allowed actions that are not in [seen], each once, in the order
    of their first occurrence. *)
Fixpoint first_allowed (risk_scores : gmap string Q) (threshold : Q)
    (seen available_actions : list string) : list string :=
  match available_actions with
  | [] => []
  | a :: rest =>
      if allowedb risk_scores threshold a && negb (existsb (String.eqb a) seen)
      then a :: first_allowed risk_scores threshold (seen ++ [a]) rest
      else first_allowed risk_scores threshold seen rest
  end.

(** [a] is allowed, nothing allowed before its first occurrence in the
    offered list scores as much, and nothing allowed after it scores more. *)
Definition first_argmax (score : string -> Q) (adm : string -> Prop)
    (available_actions : list string) (a : string) : Prop :=
  adm a
  /\ exists pre post,
       available_actions = (pre ++ a :: post)%list
       /\ (forall b, In b pre -> adm b -> (score b < score a)%Q)
       /\ (forall b, In b post -> adm b -> (score b <= score a)%Q).

(** The rational that a finite float denotes; 0 for NaN and the infinities. *)
Definition float_value (x : float) : Q :=
  match Prim2SF x with
  | S754_finite s m e =>
      (inject_Z (if s then Z.neg m else Z.pos m) * Qpower 2 e)%Q
  | _ => 0%Q
  end.

(** On binary64: the stored risk, the test of the threshold, the threshold
    in force, the allowed actions in the order of their first occurrence,
    and the first maximum of the computed scores. *)
Definition float_stored_risk (risk_scores : gmap string float) (action_id : string) : float :=
  default 0.5%float (risk_scores !! action_id).

Definition float_allowedb (risk_scores : gmap string float) (threshold : float)
    (action_id : string) : bool :=
  negb (float_gt (float_stored_risk risk_scores action_id) threshold).

Definition float_effective_threshold (available_actions : list string)
    (risk_scores : gmap string float) (threshold : float) : float :=
  if existsb (float_allowedb risk_scores threshold) available_actions
  then threshold else 1.0%float.

Fixpoint float_first_allowed (risk_scores : gmap string float) (threshold : float)
    (seen available_actions : list string) : list string :=
  match available_actions with
  | [] => []
  | a :: rest =>
      if float_allowedb risk_scores threshold a && negb (existsb (String.eqb a) seen)
      then a :: float_first_allowed risk_scores threshold (seen ++ [a]) rest
      else float_first_allowed risk_scores threshold seen rest
  end.

(** [a] is allowed, every allowed action before its first occurrence in
    the offered list has a computed score that compares smaller, and no
    allowed action after it has one that compares greater. *)
Definition float_first_argmax (score : string -> float) (adm : string -> bool)
    (available_actions : list string) (a : string) : Prop :=
  adm a = true
  /\ exists pre post,
       available_actions = (pre ++ a :: post)%list
       /\ (forall b, In b pre -> adm b = true -> float_gt (score a) (score b) = true)
       /\ (forall b, In b post -> adm b = true -> float_gt (score b) (score a) = false).

(** A key of a float that is no NaN: the floats compare as their keys do,
    lexicographically. *)
Definition SFkey (f : spec_float) : Z * Z * Z :=
  match f with
  | S754_nan => (0, 0, 0)%Z
  | S754_infinity true => (-2, 0, 0)%Z
  | S754_infinity false => (2, 0, 0)%Z
  | S754_zero _ => (0, 0, 0)%Z
  | S754_finite true m e => (-1, - e, Z.neg m)%Z
  | S754_finite false m e => (1, e, Z.pos m)%Z
  end.

Definition key_lt (a b : Z * Z * Z) : Prop :=
  let '(a1, a2, a3) := a in
  let '(b1, b2, b3) := b in
  (a1 < b1 \/ (a1 = b1 /\ (a2 < b2 \/ (a2 = b2 /\ a3 < b3))))%Z.

(** The verdict of the stability check of the detector on a metric:
    [false] when the check raises. *)
Definition deviates `{FloatRuntime} (baselines : gmap string baseline_dict)
    (metric : string * float) : bool :=
  match check_stability_against_baseline (fst metric) (snd metric)
          (baselines !! fst metric) 2.0%float with
  | Ok (stability_check, _) => violated stability_check
  | Raise _ => false
  end.

(** ** Inputs on which the code is run below *)

Definition no_decision : Decision :=
  {| next_action := None; control := CONTINUE; reasoning := None |}.

(** One action was executed and no anomaly was ever recorded. *)
Definition clean_run_state : AgentState unit := {|
  ui_state := {| available_actions := ["click_submit"; "fill_input"];
                 observation := tt; page_url := None; page_title := None |};
  execution_context := {| step_count := 1; max_steps := 100;
                          action_history := ["click_submit"]; previous_state := None |};
  knowledge := {| baselines := ∅; risk_scores := {["click_submit" := 0.5%Q]} |};
  decision := no_decision;
  anomalies := []
|}.

(** Nothing is offered, although the step limit is far, the last anomaly
    is of MEDIUM severity and the last action is a risky one. *)
Definition nothing_offered_state : AgentState unit := {|
  ui_state := {| available_actions := [];
                 observation := tt; page_url := None; page_title := None |};
  execution_context := {| step_count := 2; max_steps := 100;
                          action_history := ["click_submit"]; previous_state := None |};
  knowledge := {| baselines := ∅; risk_scores := {["click_submit" := 0.8%Q]} |};
  decision := no_decision;
  anomalies := [{| severity := MEDIUM; category := REGRESSION;
                   Anomaly.action_id := Some "click_submit" |}]
|}.

(** Three steps were taken and the observation is the one of the step
    before, [{"state": "A"}]. *)
Definition stalled_state : AgentState (option string) := {|
  ui_state := {| available_actions := ["action1"; "action2"; "action3"];
                 observation := Some "A"; page_url := None; page_title := None |};
  execution_context := {| step_count := 3; max_steps := 100;
                          action_history := ["action1"; "action2"; "action3"];
                          previous_state := Some (Some "A") |};
  knowledge := {| baselines := ∅; risk_scores := ∅ |};
  decision := no_decision;
  anomalies := []
|}.

(** The log holds one baseline deviation and nothing else. *)
Definition deviation_state : AgentState unit := {|
  ui_state := {| available_actions := ["click_submit"; "fill_input"];
                 observation := tt; page_url := None; page_title := None |};
  execution_context := {| step_count := 2; max_steps := 100;
                          action_history := ["click_submit"]; previous_state := None |};
  knowledge := {| baselines := ∅; risk_scores := ∅ |};
  decision := no_decision;
  anomalies := [{| severity := MEDIUM; category := REGRESSION;
                   Anomaly.action_id := Some "click_submit" |}]
|}.

(** The only offered action carries a stored risk above 1.0. *)
Definition out_of_range_risks : gmap string Q := {["risky_action" := 1.5%Q]}.

(** Three offered actions: one never executed but too risky, one executed
    once, one never executed. *)
Definition sample_history : list string := ["fill_input"; "navigate_to_page"].
Definition sample_risks : gmap string Q := {["click_submit" := 0.95%Q]}.
Definition sample_offer : list string := ["click_submit"; "fill_input"; "navigate_back"].

(** Every offered action is beyond the planner's threshold, none beyond 1.0. *)
Definition all_risky : gmap string Q :=
  <["click_submit" := 0.95%Q]> {["fill_input" := 1%Q]}.

(** The driver offers an action whose identifier ends with a space. *)
Definition padded_offer_state : AgentState unit := {|
  ui_state := {| available_actions := ["click_submit "];
                 observation := tt; page_url := None; page_title := None |};
  execution_context := {| step_count := 0; max_steps := 100;
                          action_history := []; previous_state := None |};
  knowledge := {| baselines := ∅; risk_scores := ∅ |};
  decision := no_decision;
  anomalies := []
|}.

(** Nothing is offered any more, and the decision of the cycle before is
    still in the state. *)
Definition finished_state : AgentState unit := {|
  ui_state := {| available_actions := [];
                 observation := tt; page_url := None; page_title := None |};
  execution_context := {| step_count := 1; max_steps := 100;
                          action_history := ["click_submit"]; previous_state := None |};
  knowledge := {| baselines := ∅; risk_scores := ∅ |};
  decision := {| next_action := Some {| Contract.action_id := "click_submit";
                                        Contract.parameters := [] |};
                 control := CONTINUE; reasoning := None |};
  anomalies := []
|}.

(** The action just executed has a stored success rate of 1.0 over one
    sample, and the last anomaly is a HIGH one attributed to it. *)
Definition rated_state : AgentState unit := {|
  ui_state := {| available_actions := ["click_submit"; "fill_input"];
                 observation := tt; page_url := None; page_title := None |};
  execution_context := {| step_count := 2; max_steps := 100;
                          action_history := ["click_submit"]; previous_state := None |};
  knowledge := {| baselines :=
                    {["click_submit_success_rate" :=
                        {| d_mean := Some 1%float; d_std_dev := Some (Float 0);
                           d_count := Some 1%Z |}]};
                  risk_scores := ∅ |};
  decision := no_decision;
  anomalies := [{| severity := HIGH; category := INVARIANT_VIOLATION;
                   Anomaly.action_id := Some "click_submit" |}]
|}.

(** A HIGH and a LOW anomaly of the last action, and a log of eleven of
    the first followed by nine of the second. *)
Definition high_anomaly : AnomalyReport :=
  {| severity := HIGH; category := INVARIANT_VIOLATION;
     Anomaly.action_id := Some "click_submit" |}.

Definition low_anomaly : AnomalyReport :=
  {| severity := LOW; category := INVARIANT_VIOLATION;
     Anomaly.action_id := Some "click_submit" |}.

Definition high_then_low : list AnomalyReport :=
  (repeat high_anomaly 11 ++ repeat low_anomaly 9)%list.

(** The response time has a baseline of ten samples. *)
Definition response_time_baseline : gmap string baseline_dict :=
  {["response_time_ms" :=
      {| d_mean := Some 200%float; d_std_dev := Some (Float 50); d_count := Some 10%Z |}]}.

(** Two offered actions whose scores are equal as real numbers, 13/40:
    the first was executed three times and has no stored risk, the second
    fifteen times and has the stored risk 1/16. *)
Definition tied_offer : list string := ["a"; "b"].
Definition tied_history : list string := (repeat "a" 3 ++ repeat "b" 15)%list.
Definition tied_risks : gmap string float := {["b" := 0.0625%float]}.
Definition tied_risks_exact : gmap string Q := {["b" := 0.0625%Q]}.

(** * Properties *)

Lemma Qlt_bool_iff (a b : Q) : Qlt_bool a b = true <-> (a < b)%Q.
Proof.
  unfold Qlt_bool. rewrite negb_true_iff.
  split; intros H.
  - apply Qnot_le_lt. intros Hle. apply Qle_bool_iff in Hle. congruence.
  - destruct (Qle_bool b a) eqn:E; [|reflexivity].
    apply Qle_bool_iff in E. exfalso. apply (Qlt_not_le _ _ H E).
Qed.

Lemma Qlt_bool_false_iff (a b : Q) : Qlt_bool a b = false <-> (b <= a)%Q.
Proof.
  unfold Qlt_bool. rewrite negb_false_iff. apply Qle_bool_iff.
Qed.

Lemma py_max_spec (a b : Q) :
  (a <= py_max a b /\ b <= py_max a b /\ (py_max a b == a \/ py_max a b == b))%Q.
Proof.
  unfold py_max, Qgt_bool. destruct (Qlt_bool a b) eqn:E.
  - apply Qlt_bool_iff in E. split; [lra | split; [lra | right; reflexivity]].
  - apply Qlt_bool_false_iff in E. split; [lra | split; [lra | left; reflexivity]].
Qed.

Lemma py_min_spec (a b : Q) :
  (py_min a b <= a /\ py_min a b <= b /\ (py_min a b == a \/ py_min a b == b))%Q.
Proof.
  unfold py_min. destruct (Qlt_bool b a) eqn:E.
  - apply Qlt_bool_iff in E. split; [lra | split; [lra | right; reflexivity]].
  - apply Qlt_bool_false_iff in E. split; [lra | split; [lra | left; reflexivity]].
Qed.

(** Clamping leaves a value of the unit interval as it is. *)
Lemma clamp_unit (x : Q) :
  (0 <= x <= 1)%Q -> (py_max 0.0 (py_min 1.0 x) == x)%Q.
Proof.
  intros [H0 H1].
  destruct (py_min_spec 1.0 x) as (Ha & Hb & Hc).
  destruct (py_max_spec 0.0 (py_min 1.0 x)) as (Hd & He & Hf).
  destruct Hc as [Hc|Hc], Hf as [Hf|Hf]; lra.
Qed.

Lemma clamp_range (x : Q) : (0 <= py_max 0.0 (py_min 1.0 x) <= 1)%Q.
Proof.
  destruct (py_min_spec 1.0 x) as (Ha & Hb & Hc).
  destruct (py_max_spec 0.0 (py_min 1.0 x)) as (Hd & He & Hf).
  destruct Hf as [Hf|Hf]; lra.
Qed.

Lemma severity_weights_range (s : string) :
  (0 < Risk.severity_weights s <= 9 # 10)%Q.
Proof.
  unfold Risk.severity_weights.
  repeat match goal with |- context [String.eqb ?a ?b] => destruct (String.eqb a b) end;
    split; reflexivity || (intros H; discriminate H).
Qed.

(** ** The order of the floats *)

Section FloatOrder.

Ltac settle_iff :=
  split; intros ?H;
  first [discriminate | reflexivity | lia | congruence | (subst; reflexivity)
        | (injection H; intros; subst; lia)].

Lemma SFltb_key (x y : spec_float) :
  x <> S754_nan -> y <> S754_nan ->
  (SFltb x y = true <-> key_lt (SFkey x) (SFkey y)).
Proof.
  intros Hx Hy. unfold SFltb.
  destruct x as [sx|sx| |sx mx ex], y as [sy|sy| |sy my ey]; try contradiction;
    try destruct sx; try destruct sy; simpl; try settle_iff.
  - rewrite Pos.compare_cont_spec, Z.compare_antisym. simpl.
    destruct (Z.compare_spec ey ex) as [E|E|E]; simpl; try settle_iff.
    subst. rewrite Pos.compare_antisym.
    destruct (Pos.compare_spec my mx) as [E2|E2|E2]; simpl; settle_iff.
  - rewrite Pos.compare_cont_spec. simpl.
    destruct (Z.compare_spec ex ey) as [E|E|E]; simpl; try settle_iff.
    subst.
    destruct (Pos.compare_spec mx my) as [E2|E2|E2]; simpl; settle_iff.
Qed.


Lemma is_nan_Prim2SF (x : float) : is_nan x = false <-> Prim2SF x <> S754_nan.
Proof.
  unfold is_nan. rewrite FloatAxioms.eqb_spec. unfold SFeqb.
  destruct (Prim2SF x) as [s|s| |s m e]; simpl.
  - split; [discriminate | reflexivity].
  - destruct s; split; first [discriminate | reflexivity].
  - split; [intros E Hn; discriminate | intros Hn; now destruct Hn].
  - split; [discriminate|]. intros _. destruct s; simpl;
      rewrite Z.compare_refl, Pos.compare_cont_refl; reflexivity.
Qed.

Lemma ltb_not_nan (x y : float) :
  (x <? y)%float = true -> is_nan x = false /\ is_nan y = false.
Proof.
  rewrite FloatAxioms.ltb_spec, !is_nan_Prim2SF. unfold SFltb.
  destruct (Prim2SF x), (Prim2SF y); simpl; try discriminate; split; discriminate.
Qed.

Lemma eqb_not_nan (x y : float) :
  (x =? y)%float = true -> is_nan x = false /\ is_nan y = false.
Proof.
  rewrite FloatAxioms.eqb_spec, !is_nan_Prim2SF. unfold SFeqb.
  destruct (Prim2SF x), (Prim2SF y); simpl; try discriminate; split; discriminate.
Qed.

Lemma ltb_key (x y : float) :
  is_nan x = false -> is_nan y = false ->
  ((x <? y)%float = true <-> key_lt (SFkey (Prim2SF x)) (SFkey (Prim2SF y))).
Proof.
  intros Hx Hy. rewrite FloatAxioms.ltb_spec. apply SFltb_key; now apply is_nan_Prim2SF.
Qed.


Lemma key_lt_trans (a b c : Z * Z * Z) : key_lt a b -> key_lt b c -> key_lt a c.
Proof. destruct a as [[a1 a2] a3], b as [[b1 b2] b3], c as [[c1 c2] c3]. simpl. lia. Qed.

Lemma key_lt_irrefl (a : Z * Z * Z) : ~ key_lt a a.
Proof. destruct a as [[a1 a2] a3]. simpl. lia. Qed.

Lemma key_lt_total (a b c : Z * Z * Z) : ~ key_lt a b -> key_lt a c -> key_lt b c.
Proof. destruct a as [[a1 a2] a3], b as [[b1 b2] b3], c as [[c1 c2] c3]. simpl. lia. Qed.

Lemma float_ltb_trans (x y z : float) :
  (x <? y)%float = true -> (y <? z)%float = true -> (x <? z)%float = true.
Proof.
  intros H1 H2.
  destruct (ltb_not_nan _ _ H1) as [Hx Hy]. destruct (ltb_not_nan _ _ H2) as [_ Hz].
  apply ltb_key in H1, H2; try assumption. apply ltb_key; try assumption.
  eapply key_lt_trans; eassumption.
Qed.

Lemma float_ltb_irrefl (x : float) : (x <? x)%float = false.
Proof.
  destruct (x <? x)%float eqn:E; [|reflexivity].
  destruct (ltb_not_nan _ _ E) as [Hx _]. apply ltb_key in E; try assumption.
  now apply key_lt_irrefl in E.
Qed.

Lemma float_ltb_asym (x y : float) : (x <? y)%float = true -> (y <? x)%float = false.
Proof.
  intros Hxy. destruct (y <? x)%float eqn:E; [|reflexivity].
  pose proof (float_ltb_trans _ _ _ Hxy E) as Hxx. now rewrite float_ltb_irrefl in Hxx.
Qed.

(** Among floats that are no NaN, what is not below [y] is below
    everything [y] is below. *)
Lemma float_ltb_le_trans (x y z : float) :
  is_nan y = false ->
  (x <? y)%float = false -> (x <? z)%float = true -> (y <? z)%float = true.
Proof.
  intros Hy H1 H2. destruct (ltb_not_nan _ _ H2) as [Hx Hz].
  apply ltb_key; try assumption. apply ltb_key in H2; try assumption.
  refine (key_lt_total _ _ _ _ H2).
  intros Hlt. apply ltb_key in Hlt; try assumption. congruence.
Qed.


End FloatOrder.

(** ** The risk policy *)

Section RiskFacts.
Local Open Scope Q_scope.

Lemma damped_step (r lr w : Q) :
  0 <= r <= 1 -> 0 <= lr <= 1 -> 0 < w <= 9 # 10 ->
  0 <= (1 - r) * lr * w <= (9 # 10) * (1 - r).
Proof.
  intros Hr Hlr Hw.
  assert (H1 : 0 <= (1 - r) * lr <= 1 - r) by nra.
  split; nra.
Qed.

Lemma update_risk_score_anomaly (a sev : string) (r lr : Q) :
  0 <= r <= 1 -> 0 <= lr <= 1 ->
  Risk.update_risk_score a r true sev lr
  == r + (1 - r) * lr * Risk.severity_weights sev.
Proof.
  intros Hr Hlr. unfold Risk.update_risk_score. simpl negb. cbv iota.
  pose proof (damped_step r lr _ Hr Hlr (severity_weights_range sev)) as Hd.
  rewrite clamp_unit; [lra|]. split; lra.
Qed.

Lemma update_risk_score_clean (a sev : string) (r lr : Q) :
  0 <= r <= 1 -> 0 <= lr <= 1 ->
  Risk.update_risk_score a r false sev lr == r * (1 - lr / 2).
Proof.
  intros Hr Hlr. unfold Risk.update_risk_score. simpl negb. cbv iota.
  rewrite clamp_unit; [field|]. split; nra.
Qed.

(** C8. For a current risk [r] in [0,1] (and a learning rate in [0,1],
    0.2 by default): the update on an attributed anomaly returns a value
    that is at least [r] and stays strictly below 1 when [r < 1]; the
    decay without anomaly returns a value that is at most [r] and stays
    strictly above 0 when [r > 0]; and whatever the arguments, the
    returned value lies in [0,1]. *)
Theorem risk_update_bounds :
  (forall (a sev : string) (r lr : Q) (triggered : bool),
      0 <= Risk.update_risk_score a r triggered sev lr <= 1)
  /\ (forall (a sev : string) (r lr : Q),
        0 <= r <= 1 -> 0 <= lr <= 1 ->
        let up := Risk.update_risk_score a r true sev lr in
        let down := Risk.update_risk_score a r false sev lr in
        (r <= up /\ (r < 1 -> up < 1))
        /\ (down <= r /\ (0 < r -> 0 < down))).
Proof.
  split.
  - intros a sev r lr triggered. unfold Risk.update_risk_score. apply clamp_range.
  - intros a sev r lr Hr Hlr up down. subst up down.
    pose proof (damped_step r lr _ Hr Hlr (severity_weights_range sev)) as Hd.
    rewrite update_risk_score_anomaly, update_risk_score_clean by assumption.
    assert (E : lr / 2 == lr * (1 # 2)) by field. rewrite E.
    assert (H2 : 0 <= r * lr <= r) by nra.
    split; (split; [lra | intros ?; lra]).
Qed.

Lemma risk_update_bounds_witness :
  let up := Risk.update_risk_score "click_submit" 0.5 true "HIGH" 0.2 in
  let down := Risk.update_risk_score "click_submit" 0.5 false "HIGH" 0.2 in
  (0.5 <= up /\ (0.5 < 1 -> up < 1)) /\ (down <= 0.5 /\ (0 < 0.5 -> 0 < down)).
Proof.
  apply (proj2 risk_update_bounds "click_submit" "HIGH" 0.5 0.2); split; lra.
Defined.

Lemma update_from_anomaly_other (m : gmap string Q) (an : AnomalyReport) (a : string) :
  Anomaly.action_id an <> Some a ->
  Risk.update_from_anomaly m an !! a = m !! a.
Proof.
  intros Hne. unfold Risk.update_from_anomaly.
  destruct (Anomaly.action_id an) as [b|]; [|reflexivity].
  destruct (str_truthy b); [|reflexivity].
  apply lookup_insert_ne. congruence.
Qed.

Lemma fold_update_other (l : list AnomalyReport) (m : gmap string Q) (a : string) :
  Forall (fun an => Anomaly.action_id an <> Some a) l ->
  fold_left Risk.update_from_anomaly l m !! a = m !! a.
Proof.
  intros Hall. revert m.
  induction Hall as [|an l Han _ IH]; intros m; simpl.
  - reflexivity.
  - rewrite IH. now apply update_from_anomaly_other.
Qed.

(** An action to which none of the anomalies considered is attributed
    keeps its stored risk score. *)
Lemma update_risks_unattributed (risks : gmap string Q) (l : list AnomalyReport)
    (n : nat) (a : string) :
  Forall (fun an => Anomaly.action_id an <> Some a) (Risk.recent_anomalies l n) ->
  Risk.update_risks_from_anomalies risks l n !! a = risks !! a.
Proof. apply fold_update_other. Qed.

End RiskFacts.

(** ** Results of the exception monad *)

Lemma exc_bind_ok {A B : Type} (c : exc A) (k : A -> exc B) (b : B) :
  exc_bind c k = Ok b -> exists a, c = Ok a /\ k a = Ok b.
Proof. destruct c as [a|e]; simpl; [eauto | discriminate]. Qed.

Ltac exc_inv :=
  repeat match goal with
  | H : exc_bind _ _ = Ok _ |- _ =>
      let a := fresh "a" in
      let Ha := fresh "Ha" in
      apply exc_bind_ok in H; destruct H as (a & Ha & H)
  | H : Ok _ = Ok _ |- _ => injection H as H
  | H : Raise _ = Ok _ |- _ => discriminate H
  end.

(** ** The control router *)

Section RouterFacts.
Context {Observation : Type}.

Lemma router_node_control (state : AgentState Observation) :
  control (decision (Router.router_node state))
  = snd (Router.make_routing_decision state).
Proof.
  unfold Router.router_node.
  destruct (Router.make_routing_decision state) as [s c]. reflexivity.
Qed.

(** C2. A state whose offered action set is empty is routed to
    TERMINATE, by the first rule of [should_terminate], whatever its
    anomaly log, step counters and risk scores. *)
Theorem empty_offer_terminates (state : AgentState Observation) :
  available_actions (ui_state state) = [] ->
  Router.should_terminate state = (true, Text "No available actions remaining")
  /\ snd (Router.make_routing_decision state) = TERMINATE
  /\ control (decision (Router.router_node state)) = TERMINATE.
Proof.
  intros Hempty.
  assert (Hst : Router.should_terminate state
                = (true, Text "No available actions remaining")).
  { unfold Router.should_terminate. now rewrite Hempty. }
  split; [exact Hst|].
  assert (Hd : snd (Router.make_routing_decision state) = TERMINATE).
  { unfold Router.make_routing_decision. now rewrite Hst. }
  split; [exact Hd|]. now rewrite router_node_control.
Qed.

End RouterFacts.

Lemma empty_offer_terminates_witness :
  Router.should_terminate nothing_offered_state
  = (true, Text "No available actions remaining")
  /\ snd (Router.make_routing_decision nothing_offered_state) = TERMINATE
  /\ control (decision (Router.router_node nothing_offered_state)) = TERMINATE.
Proof. apply (empty_offer_terminates nothing_offered_state). reflexivity. Defined.

(** ** What each node of the cycle leaves untouched *)

Section CycleFacts.
Context {Observation : Type} `{ObservationModel Observation} `{FloatRuntime}.

Lemma detect_anomalies_frame (state state' : AgentState Observation)
    (found : list AnomalyReport) :
  AnomalyDetector.detect_anomalies state = Ok (state', found) ->
  exists b, state' = set_baselines state b.
Proof.
  unfold AnomalyDetector.detect_anomalies. intros Hd. exc_inv.
  destruct a4 as [b found6]. exc_inv. eauto.
Qed.

Lemma anomaly_detector_node_frame (state state' : AgentState Observation) :
  AnomalyDetector.anomaly_detector_node state = Ok state' ->
  ui_state state' = ui_state state
  /\ execution_context state' = execution_context state
  /\ risk_scores (knowledge state') = risk_scores (knowledge state)
  /\ decision state' = decision state
  /\ exists found, anomalies state' = (anomalies state ++ found)%list.
Proof.
  unfold AnomalyDetector.anomaly_detector_node. intros Hn. exc_inv.
  destruct a as [s1 found]. exc_inv. subst state'.
  destruct (detect_anomalies_frame _ _ _ Ha) as [b ->]. simpl. eauto 10.
Qed.

Lemma router_node_frame (state : AgentState Observation) :
  ui_state (Router.router_node state) = ui_state state
  /\ execution_context (Router.router_node state) = execution_context state
  /\ knowledge (Router.router_node state) = knowledge state
  /\ anomalies (Router.router_node state) = anomalies state
  /\ next_action (decision (Router.router_node state)) = next_action (decision state).
Proof.
  unfold Router.router_node, Router.make_routing_decision.
  destruct (Router.should_terminate state) as [[|] ?];
    [|destruct (Router.should_deep_test state) as [[|] ?]]; simpl; auto.
Qed.

Lemma plan_next_action_frame (state state' : AgentState Observation)
    (c : option Contract.ActionContract) :
  ActionPlanner.plan_next_action state = Ok (state', c) ->
  state' = state
  \/ state' = set_risk_scores state
                (Risk.update_risks_from_anomalies (risk_scores (knowledge state))
                   (anomalies state) 10).
Proof.
  unfold ActionPlanner.plan_next_action. intros Hp.
  destruct (available_actions (ui_state state)) as [|a0 rest].
  - exc_inv. left. congruence.
  - exc_inv. right.
    destruct (negb (opt_truthy a)); [exc_inv; congruence|].
    destruct a as [sel|]; exc_inv; congruence.
Qed.

Lemma action_planner_node_frame (state state' : AgentState Observation) :
  ActionPlanner.action_planner_node state = Ok state' ->
  exists (s1 : AgentState Observation) (c : option Contract.ActionContract),
    ActionPlanner.plan_next_action state = Ok (s1, c)
    /\ ui_state state' = ui_state s1
    /\ execution_context state' = execution_context s1
    /\ knowledge state' = knowledge s1
    /\ anomalies state' = anomalies s1
    /\ next_action (decision state') = c.
Proof.
  unfold ActionPlanner.action_planner_node. intros Hn. exc_inv.
  destruct a as [s1 c]. exists s1, c. split; [exact Ha|].
  destruct c as [c|]; exc_inv; subst state'; simpl; auto.
Qed.

Lemma learn_from_observation_frame (state state' : AgentState Observation) :
  Learner.learn_from_observation state = Ok state' ->
  ui_state state' = ui_state state
  /\ execution_context state' = execution_context state
  /\ risk_scores (knowledge state') = risk_scores (knowledge state)
  /\ decision state' = decision state
  /\ anomalies state' = anomalies state.
Proof.
  unfold Learner.learn_from_observation. intros Hl. exc_inv. subst state'.
  destruct (last_or_none (action_history (execution_context state))) as [a0|];
    [destruct (str_truthy a0)|]; simpl;
    (destruct (page_url (ui_state state)) as [u|]; [destruct (str_truthy u)|]);
    simpl; auto.
Qed.

Lemma update_action_success_rates_frame (state state' : AgentState Observation) :
  Learner.update_action_success_rates state = Ok state' ->
  ui_state state' = ui_state state
  /\ execution_context state' = execution_context state
  /\ risk_scores (knowledge state') = risk_scores (knowledge state)
  /\ decision state' = decision state
  /\ anomalies state' = anomalies state.
Proof.
  unfold Learner.update_action_success_rates. intros Hu.
  destruct (last_or_none (action_history (execution_context state))) as [a0|].
  - destruct (baselines (knowledge state) !! _) as [d|]; exc_inv; subst state';
      simpl; auto.
  - exc_inv. subst state'. auto.
Qed.

Lemma learner_node_frame (state state' : AgentState Observation) :
  Learner.learner_node state = Ok state' ->
  ui_state state' = ui_state state
  /\ execution_context state' = execution_context state
  /\ risk_scores (knowledge state') = risk_scores (knowledge state)
  /\ decision state' = decision state
  /\ anomalies state' = anomalies state.
Proof.
  unfold Learner.learner_node. intros Hl. exc_inv.
  destruct (learn_from_observation_frame _ _ Ha) as (E1 & E2 & E3 & E4 & E5).
  destruct (update_action_success_rates_frame _ _ Hl) as (F1 & F2 & F3 & F4 & F5).
  repeat split; congruence.
Qed.

(** A completed cycle either stopped at the router, or went through the
    planner and the learner. *)
Lemma run_reasoning_cycle_inv (state state' : AgentState Observation) :
  Graph.run_reasoning_cycle state = Ok state' ->
  exists s1 : AgentState Observation,
    AnomalyDetector.anomaly_detector_node state = Ok s1
    /\ ((control (decision (Router.router_node s1)) = TERMINATE
         /\ state' = Router.router_node s1)
        \/ (control (decision (Router.router_node s1)) <> TERMINATE
            /\ exists s3 : AgentState Observation,
                 ActionPlanner.action_planner_node (Router.router_node s1) = Ok s3
                 /\ Learner.learner_node s3 = Ok state')).
Proof.
  unfold Graph.run_reasoning_cycle, StateInterpreter.state_interpreter_node.
  intros Hc. exc_inv. exists a. split; [exact Ha|].
  unfold Graph.determine_next_step in Hc.
  destruct (control (decision (Router.router_node a))) eqn:Ec.
  - right. split; [discriminate|]. exc_inv. eauto.
  - right. split; [discriminate|]. exc_inv. eauto.
  - left. split; [reflexivity|]. now exc_inv.
Qed.

End CycleFacts.

(** ** The risk policy inside the cycle *)

Section CycleRisk.
Context {Observation : Type} `{ObservationModel Observation} `{FloatRuntime}.

Lemma cycle_anomalies_and_risks (state state' : AgentState Observation) :
  Graph.run_reasoning_cycle state = Ok state' ->
  risk_scores (knowledge state') = risk_scores (knowledge state)
  \/ risk_scores (knowledge state')
     = Risk.update_risks_from_anomalies (risk_scores (knowledge state))
         (anomalies state') 10.
Proof.
  intros Hc. destruct (run_reasoning_cycle_inv _ _ Hc) as (s1 & Hd & Hrest).
  destruct (anomaly_detector_node_frame _ _ Hd) as (_ & _ & Er & _ & _).
  destruct (router_node_frame s1) as (_ & _ & Ek & Ea & _).
  destruct Hrest as [[_ ->] | (_ & s3 & Hp & Hl)].
  - left. now rewrite Ek.
  - destruct (action_planner_node_frame _ _ Hp) as (s2 & c & Hplan & _ & _ & Ek3 & Ea3 & _).
    destruct (learner_node_frame _ _ Hl) as (_ & _ & Er' & _ & Ea').
    rewrite Er', Ek3, Ea', Ea3.
    destruct (plan_next_action_frame _ _ _ Hplan) as [-> | ->]; simpl.
    + left. now rewrite Ek.
    + right. now rewrite Ek, Ea, Er.
Qed.

(** C4, as the code has it.  [update_risk_score] called without an
    anomaly applies the decay [r * (1 - lr / 2)]; the cycle never makes
    that call: [update_risks_from_anomalies], and with it a whole
    reasoning cycle, leaves the stored risk score of an action unchanged
    when none of the recent anomalies considered is attributed to it. *)
Theorem risk_decay_not_applied_by_cycle :
  (forall (a sev : string) (r lr : Q),
      (0 <= r <= 1)%Q -> (0 <= lr <= 1)%Q ->
      (Risk.update_risk_score a r false sev lr == r * (1 - lr / 2))%Q)
  /\ (forall (risks : gmap string Q) (l : list AnomalyReport) (n : nat) (a : string),
        Forall (fun an => Anomaly.action_id an <> Some a) (Risk.recent_anomalies l n) ->
        Risk.update_risks_from_anomalies risks l n !! a = risks !! a)
  /\ (forall (state state' : AgentState Observation) (a : string),
        Graph.run_reasoning_cycle state = Ok state' ->
        Forall (fun an => Anomaly.action_id an <> Some a)
          (Risk.recent_anomalies (anomalies state') 10) ->
        risk_scores (knowledge state') !! a = risk_scores (knowledge state) !! a).
Proof.
  split; [exact update_risk_score_clean|].
  split; [exact update_risks_unattributed|].
  intros state state' a Hc Hall.
  destruct (cycle_anomalies_and_risks _ _ Hc) as [-> | ->]; [reflexivity|].
  now apply update_risks_unattributed.
Qed.

End CycleRisk.

Lemma risk_decay_not_applied_by_cycle_witness :
  (Risk.update_risk_score "click_submit" 0.5 false "MEDIUM" 0.2 == 0.5 * (1 - 0.2 / 2))%Q
  /\ Risk.update_risks_from_anomalies {["click_submit" := 0.5%Q]} [] 10 !! "click_submit"
     = ({["click_submit" := 0.5%Q]} : gmap string Q) !! "click_submit"
  /\ exists state' : AgentState unit,
       Graph.run_reasoning_cycle clean_run_state = Ok state'
       /\ risk_scores (knowledge state') !! "click_submit"
          = risk_scores (knowledge clean_run_state) !! "click_submit".
Proof.
  pose proof (@risk_decay_not_applied_by_cycle unit _ _) as (H1 & H2 & H3).
  split; [|split].
  - apply H1; split; lra.
  - apply H2. constructor.
  - destruct (Graph.run_reasoning_cycle clean_run_state) as [state'|e] eqn:E;
      [|vm_compute in E; discriminate E].
    exists state'. split; [reflexivity|].
    apply H3; [exact E|].
    assert (Ea : anomalies state' = []).
    { vm_compute in E. injection E as <-. reflexivity. }
    rewrite Ea. constructor.
Defined.

(** C4, as stated, fails: after a cycle on a state in which the action
    just executed has no anomaly at all, its risk score is still 0.5, not
    the decayed 0.5 * (1 - 0.2 / 2). *)
Lemma risk_not_decayed_after_clean_cycle :
  exists state' : AgentState unit,
    Graph.run_reasoning_cycle clean_run_state = Ok state'
    /\ anomalies state' = []
    /\ risk_scores (knowledge state') !! "click_submit" = Some 0.5%Q
    /\ ~ (0.5 == 0.5 * (1 - 0.2 / 2))%Q.
Proof.
  eexists. split; [vm_compute; reflexivity|].
  split; [reflexivity|]. split; [vm_compute; reflexivity|].
  intros E. vm_compute in E. discriminate E.
Qed.

(** ** The ActionContract schema *)

Section ContractFacts.
Import Contract.

Lemma lstrip_blank (s : string) : lstrip s = "" <-> blank s.
Proof.
  unfold blank. induction s as [|c s IH]; simpl.
  - split; [intros _ c [] | reflexivity].
  - destruct (is_space c) eqn:Ec.
    + rewrite IH. split.
      * intros Hs c' [<-|Hin]; auto.
      * intros Hs c' Hin. apply Hs. now right.
    + split; [discriminate|].
      intros Hs. specialize (Hs c (or_introl eq_refl)). congruence.
Qed.

Lemma rstrip_blank (s : string) : rstrip s = "" <-> blank s.
Proof.
  unfold blank. induction s as [|c s IH]; simpl.
  - split; [intros _ c [] | reflexivity].
  - destruct (rstrip s) as [|c' r] eqn:Er.
    + destruct (is_space c) eqn:Ec.
      * split; [|reflexivity].
        intros _ c' [<-|Hin]; [exact Ec|]. now apply IH.
      * split; [discriminate|].
        intros Hs. specialize (Hs c (or_introl eq_refl)). congruence.
    + split; [discriminate|].
      intros Hs. assert (Hb : String c' r = "") by (apply IH; intros; apply Hs; now right).
      discriminate Hb.
Qed.

(** What [lstrip] returns is empty or starts with a character that is
    not whitespace. *)
Lemma lstrip_head (s : string) :
  lstrip s = "" \/ exists c r, lstrip s = String c r /\ is_space c = false.
Proof.
  induction s as [|c s IH]; simpl; [now left|].
  destruct (is_space c) eqn:Ec; [exact IH|]. right. eauto.
Qed.

Lemma strip_blank (s : string) : strip s = "" <-> blank s.
Proof.
  unfold strip. rewrite <- lstrip_blank. split.
  - intros Hr. destruct (lstrip_head s) as [E | (c & r & E & Hc)]; [exact E|].
    rewrite E in Hr. apply rstrip_blank in Hr.
    specialize (Hr c (or_introl eq_refl)). congruence.
  - intros ->. reflexivity.
Qed.

Lemma str_truthy_false (s : string) : str_truthy s = false <-> s = "".
Proof.
  unfold str_truthy. rewrite negb_false_iff. apply String.eqb_eq.
Qed.

Lemma action_id_field_raises (v : string) :
  (exists e, action_id_field v = Raise e) <-> blank v.
Proof.
  rewrite <- strip_blank.
  unfold action_id_field, validate_action_id.
  destruct v as [|c v]; simpl String.length; cbv iota beta.
  - simpl. split; [reflexivity | eauto].
  - change (S (String.length v) <? 1)%nat with false. cbv iota.
    change (str_truthy (String c v)) with true. simpl negb. simpl orb.
    destruct (str_truthy (strip (String c v))) eqn:Et; simpl.
    + split; [intros [e He]; discriminate He|].
      intros Hs. rewrite Hs in Et. discriminate Et.
    + apply str_truthy_false in Et. split; [auto | eauto].
Qed.

Lemma action_id_field_ok (v a : string) :
  action_id_field v = Ok a -> a = strip v.
Proof.
  unfold action_id_field, validate_action_id.
  destruct (String.length v <? 1)%nat; [discriminate|].
  destruct (_ || _); [discriminate|]. congruence.
Qed.

Lemma is_forbidden_spec (key : string) :
  is_forbidden key = true <-> forbidden_up_to_case key.
Proof.
  unfold is_forbidden, forbidden_up_to_case. rewrite existsb_exists. split.
  - intros (f & Hin & Heq). apply String.eqb_eq in Heq. exists f. split; [exact Hin|].
    rewrite Heq. simpl in Hin.
    destruct Hin as [<-|[<-|[<-|[<-|[]]]]]; reflexivity.
  - intros (f & Hin & Heq). exists f. split; [exact Hin|].
    apply String.eqb_eq. rewrite Heq. simpl in Hin.
    destruct Hin as [<-|[<-|[<-|[<-|[]]]]]; reflexivity.
Qed.

Lemma validate_parameters_loop_none (keys : list string) :
  validate_parameters_loop keys = None
  <-> forall key, In key keys -> is_forbidden key = false.
Proof.
  induction keys as [|k keys IH]; simpl.
  - split; [intros _ key [] | reflexivity].
  - destruct (is_forbidden k) eqn:Ek.
    + split; [discriminate|]. intros Hall. specialize (Hall k (or_introl eq_refl)). congruence.
    + rewrite IH. split.
      * intros Hall key [<-|Hin]; auto.
      * intros Hall key Hin. apply Hall. now right.
Qed.

Lemma classic_forbidden_key (keys : list string) :
  (exists key, In key keys /\ forbidden_up_to_case key)
  \/ (forall key, In key keys -> is_forbidden key = false).
Proof.
  induction keys as [|k keys [(key & Hin & Hf)|Hnone]].
  - right. intros key [].
  - left. exists key. split; [now right | exact Hf].
  - destruct (is_forbidden k) eqn:Ek.
    + left. exists k. split; [now left | now apply is_forbidden_spec].
    + right. intros key [<-|Hin]; auto.
Qed.

Lemma validate_parameters_raises (v : list (string * param_value)) :
  (exists e, validate_parameters v = Raise e)
  <-> exists key, In key (map fst v) /\ forbidden_up_to_case key.
Proof.
  unfold validate_parameters.
  destruct (validate_parameters_loop (map fst v)) as [k|] eqn:El.
  - split; [intros _ | eauto].
    destruct (classic_forbidden_key (map fst v)) as [Hex|Hnone].
    + exact Hex.
    + apply validate_parameters_loop_none in Hnone. congruence.
  - split; [intros [e He]; discriminate He|].
    intros (key & Hin & Hf). apply is_forbidden_spec in Hf.
    rewrite (proj1 (validate_parameters_loop_none _) El key Hin) in Hf. discriminate Hf.
Qed.

Lemma construct_ok (aid : string) (params : list (string * param_value))
    (c : ActionContract) :
  construct aid params = Ok c -> action_id c = strip aid /\ parameters c = params.
Proof.
  unfold construct. intros Hc.
  destruct (action_id_field aid) as [a|e1] eqn:Ea; [|discriminate].
  unfold validate_parameters in Hc.
  destruct (validate_parameters_loop (map fst params)); [discriminate|].
  injection Hc as <-. simpl. split; [now apply action_id_field_ok | reflexivity].
Qed.

(** C9. Constructing an ActionContract raises exactly when the
    action_id is empty or whitespace only, or some key of the parameters
    is, up to case, one of selector, css_selector, xpath, dom; a
    construction that does not raise stores the action_id with the
    surrounding whitespace removed and the parameters as given. *)
Theorem contract_construction_fails_iff (aid : string)
    (params : list (string * param_value)) :
  ((exists e, construct aid params = Raise e)
   <-> (blank aid \/ exists key, In key (map fst params) /\ forbidden_up_to_case key))
  /\ (forall c, construct aid params = Ok c ->
        action_id c = strip aid /\ parameters c = params).
Proof.
  pose proof (action_id_field_raises aid) as Hid.
  pose proof (validate_parameters_raises params) as Hpar.
  unfold construct. split.
  - destruct (action_id_field aid) as [a|e1] eqn:Ea.
    + destruct (validate_parameters params) as [q|e2] eqn:Eq.
      * split; [intros [e He]; discriminate He|].
        intros [Hb | Hk].
        -- apply Hid in Hb. destruct Hb as [e He]. discriminate He.
        -- apply Hpar in Hk. destruct Hk as [e He]. discriminate He.
      * split; [|eauto]. intros _. right. apply Hpar. eauto.
    + split; [|eauto]. intros _. left. apply Hid. eauto.
  - intros c. apply construct_ok.
Qed.

End ContractFacts.

Lemma contract_construction_fails_iff_witness :
  let c := {| Contract.action_id := "click_submit";
              Contract.parameters := [("timeout_ms", Contract.PInt 5000)] |} in
  Contract.construct " click_submit " [("timeout_ms", Contract.PInt 5000)] = Ok c
  /\ Contract.action_id c = strip " click_submit "
  /\ Contract.parameters c = [("timeout_ms", Contract.PInt 5000)].
Proof.
  split; [reflexivity|].
  apply (proj2 (contract_construction_fails_iff " click_submit "
                  [("timeout_ms", Contract.PInt 5000)])).
  reflexivity.
Defined.

(** ** The baseline stability check *)

Section BaselineFacts.
Context `{FloatRuntime}.

Lemma float_of_int_zero : float_of_int 0 = Ok 0%float.
Proof. reflexivity. Qed.

Lemma float_of_int_error (n : Z) (e : pyerr) :
  float_of_int n = Raise e -> e = OverflowError.
Proof.
  unfold float_of_int. destruct (is_infinity (float_of_Z n)); [|discriminate].
  intros E. now injection E as <-.
Qed.

Lemma float_div_int_zero (a : float) : float_div_int a 0 = Raise ZeroDivisionError.
Proof. reflexivity. Qed.

Lemma float_div_int_ok (a : float) (n : Z) (q : float) :
  float_div_int a n = Ok q <->
  n <> 0%Z /\ is_infinity (float_of_Z n) = false /\ q = (a / float_of_Z n)%float.
Proof.
  unfold float_div_int, float_of_int.
  destruct (is_infinity (float_of_Z n)); simpl.
  - split; [discriminate | intros (_ & E & _); discriminate E].
  - destruct (Z.eqb_spec n 0) as [->|Hn].
    + split; [discriminate | intros (E & _); now contradiction E].
    + split.
      * intros E. injection E as <-. auto.
      * intros (_ & _ & ->). reflexivity.
Qed.

Lemma float_div_int_error (a : float) (n : Z) (e : pyerr) :
  float_div_int a n = Raise e ->
  (e = ZeroDivisionError /\ n = 0%Z) \/ (e = OverflowError /\ n <> 0%Z).
Proof.
  unfold float_div_int, float_of_int.
  destruct (is_infinity (float_of_Z n)) eqn:Ei; simpl.
  - intros E. injection E as <-. right. split; [reflexivity|]. intros ->. discriminate Ei.
  - destruct (Z.eqb_spec n 0) as [->|Hn]; [|discriminate].
    intros E. injection E as <-. now left.
Qed.

Lemma int_mul_float_error (n : Z) (a : float) (e : pyerr) :
  int_mul_float n a = Raise e -> e = OverflowError.
Proof.
  unfold int_mul_float. destruct (float_of_int n) eqn:E; simpl; [discriminate|].
  intros E'. injection E' as <-. now apply float_of_int_error in E.
Qed.

Lemma float_square_error (x : float) (e : pyerr) :
  float_square x = Raise e -> e = OverflowError.
Proof.
  unfold float_square.
  repeat match goal with |- context [if ?c then _ else _] => destruct c end;
    try discriminate.
  intros E. now injection E as <-.
Qed.

Lemma float_root_error (x : float) (e : pyerr) :
  float_root x = Raise e -> e = OverflowError.
Proof.
  unfold float_root.
  repeat match goal with |- context [if ?c then _ else _] => destruct c end;
    try discriminate.
  intros E. now injection E as <-.
Qed.

(** With a float as the standard deviation, the update raises
    ZeroDivisionError exactly at the count -1, and OverflowError
    otherwise. *)
Lemma update_error (self : BaselineMetrics) (x s : float) (e : pyerr) :
  std_dev self = Float s ->
  update self x = Raise e ->
  (e = ZeroDivisionError /\ count self = (-1)%Z)
  \/ (e = OverflowError /\ count self <> (-1)%Z).
Proof.
  intros Hs. unfold update. rewrite Hs.
  destruct (float_div_int (x - mean self) (count self + 1)) as [step|e1] eqn:E1; simpl.
  2:{ intros E. injection E as <-. apply float_div_int_error in E1.
      destruct E1 as [[-> Hn]|[-> Hn]]; [left | right]; split; try reflexivity; lia. }
  apply float_div_int_ok in E1. destruct E1 as (Hn & _ & _).
  assert (Hover : forall e', e' = OverflowError ->
            e' = ZeroDivisionError /\ count self = (-1)%Z
            \/ e' = OverflowError /\ count self <> (-1)%Z)
    by (intros e' ->; right; split; [reflexivity | lia]).
  destruct (float_square s) as [sq|e2] eqn:E2; simpl.
  2:{ intros E. injection E as <-. apply Hover. now apply float_square_error in E2. }
  destruct (int_mul_float (count self) sq) as [w|e3] eqn:E3; simpl.
  2:{ intros E. injection E as <-. apply Hover. now apply int_mul_float_error in E3. }
  destruct (float_div_int _ (count self + 1)) as [v|e4] eqn:E4; simpl.
  2:{ intros E. injection E as <-. apply float_div_int_error in E4.
      destruct E4 as [[_ Hz]|[-> _]]; [contradiction | now apply Hover]. }
  destruct (float_root v) as [r|e5] eqn:E5; simpl; [discriminate|].
  intros E. injection E as <-. apply Hover. now apply float_root_error in E5.
Qed.

Lemma update_count (self updated : BaselineMetrics) (x : float) :
  update self x = Ok updated -> count updated = (count self + 1)%Z.
Proof.
  unfold update. intros E.
  apply exc_bind_ok in E. destruct E as (step & _ & E).
  apply exc_bind_ok in E. destruct E as (sd & _ & E).
  now injection E as <-.
Qed.

Lemma check_stability_provisional (name : string) (x sigma : float) (d : baseline_dict) :
  (count (from_dict d) < 3)%Z ->
  check_stability_against_baseline name x (Some d) sigma
  = let* u := update (from_dict d) x in Ok ({| violated := false |}, u).
Proof.
  intros Hc. unfold check_stability_against_baseline.
  destruct (Z.ltb_spec (count (from_dict d)) 3) as [_|Hge]; [reflexivity | lia].
Qed.

Lemma check_stability_z_score (name : string) (x sigma s : float) (d : baseline_dict) :
  (3 <= count (from_dict d))%Z ->
  std_dev (from_dict d) = Float s -> (s =? 0)%float = false ->
  check_stability_against_baseline name x (Some d) sigma
  = let* u := update (from_dict d) x in
    Ok ({| violated := float_gt (abs (x - mean (from_dict d)) / s) sigma |}, u).
Proof.
  intros Hc Hs Hz. unfold check_stability_against_baseline.
  destruct (Z.ltb_spec (count (from_dict d)) 3) as [Hlt|_]; [lia|].
  rewrite Hs. simpl number_is_zero. rewrite Hz.
  now destruct (float_gt _ sigma).
Qed.

Lemma check_stability_zero (name : string) (x sigma : float) (d : baseline_dict) :
  (3 <= count (from_dict d))%Z ->
  number_is_zero (std_dev (from_dict d)) = true ->
  check_stability_against_baseline name x (Some d) sigma
  = let* u := update (from_dict d) x in
    Ok ({| violated :=
             float_gt (abs (x - mean (from_dict d))) (0.01 * abs (mean (from_dict d))) |}, u).
Proof.
  intros Hc Hz. unfold check_stability_against_baseline.
  destruct (Z.ltb_spec (count (from_dict d)) 3) as [Hlt|_]; [lia|].
  rewrite Hz. now destruct (float_gt _ _).
Qed.

End BaselineFacts.




(** ** The forward-progress invariant and the detector *)

Section DetectorFacts.
Context {Observation : Type} `{ObservationModel Observation} `{FloatRuntime}.

(** On its own, [check_forward_progress] is violated exactly when the
    last three observations equal the first of them and three actions were
    executed. *)
Lemma check_forward_progress_last_three (action_history : list string)
    (earlier : list Observation) (o1 o2 o3 : Observation) :
  CoreInvariants.check_forward_progress action_history (earlier ++ [o1; o2; o3]) 3
  = Ok {| violated :=
            obs_eqb o1 o1 && obs_eqb o2 o1 && obs_eqb o3 o1
            && (3 <=? length action_history)%nat |}.
Proof.
  unfold CoreInvariants.check_forward_progress.
  rewrite length_app. simpl length.
  destruct (Nat.ltb_spec (length earlier + 3) 3) as [Hlt|_]; [lia|].
  unfold slice_last. rewrite length_app. simpl length.
  replace (length earlier + 3 - 3)%nat with (length earlier) by lia.
  rewrite drop_app_length. simpl forallb. rewrite andb_true_r.
  rewrite !andb_assoc.
  destruct (_ && _ && _ && _); reflexivity.
Qed.

Lemma check_forward_progress_short (action_history : list string)
    (observation_history : list Observation) (n : nat) :
  (length observation_history < n)%nat ->
  CoreInvariants.check_forward_progress action_history observation_history n
  = Ok {| violated := false |}.
Proof.
  intros Hlt. unfold CoreInvariants.check_forward_progress.
  destruct (Nat.ltb_spec (length observation_history) n) as [_|Hge]; [reflexivity | lia].
Qed.

(** Block 4 of the detector hands over two observations and asks for
    three: it never reports. *)
Lemma forward_progress_anomalies_none (state : AgentState Observation) :
  AnomalyDetector.forward_progress_anomalies state = Ok [].
Proof.
  unfold AnomalyDetector.forward_progress_anomalies.
  destruct (3 <=? step_count (execution_context state))%Z; [|reflexivity].
  rewrite check_forward_progress_short by (simpl; lia). reflexivity.
Qed.

Lemma stability_anomalies_reports (metrics : list (string * float))
    (last_action : option string) (b b' : gmap string baseline_dict)
    (found : list AnomalyReport) :
  AnomalyDetector.stability_anomalies metrics last_action b = Ok (b', found) ->
  Forall (fun a => a = AnomalyDetector.report MEDIUM REGRESSION last_action) found.
Proof.
  revert b b' found.
  induction metrics as [|[metric_name metric_value] rest IH]; intros b b' found; simpl.
  - intros Hs. simplify_eq. constructor.
  - intros Hs.
    apply exc_bind_ok in Hs. destruct Hs as ([check updated] & _ & Hs).
    apply exc_bind_ok in Hs. destruct Hs as ([b2 found2] & Hrest & Hs).
    specialize (IH _ _ _ Hrest). simplify_eq.
    destruct (violated check); [constructor; [reflexivity | exact IH] | exact IH].
Qed.

(** What the six blocks of the detector can report. *)
Lemma detect_anomalies_reports (state state' : AgentState Observation)
    (found : list AnomalyReport) :
  AnomalyDetector.detect_anomalies state = Ok (state', found) ->
  let last_action := last_or_none (action_history (execution_context state)) in
  exists others found6,
    found = (others ++ found6)%list
    /\ Forall (fun a => category a = INVARIANT_VIOLATION) others
    /\ Forall (fun a => a = AnomalyDetector.report MEDIUM REGRESSION last_action) found6.
Proof.
  intros Hd last_action. unfold AnomalyDetector.detect_anomalies in Hd.
  apply exc_bind_ok in Hd. destruct Hd as (found2 & H2 & Hd).
  apply exc_bind_ok in Hd. destruct Hd as (found3 & H3 & Hd).
  apply exc_bind_ok in Hd. destruct Hd as (found4 & H4 & Hd).
  apply exc_bind_ok in Hd. destruct Hd as (found5 & H5 & Hd).
  apply exc_bind_ok in Hd. destruct Hd as (metrics & _ & Hd).
  apply exc_bind_ok in Hd. destruct Hd as ([b found6] & H6 & Hd).
  rewrite forward_progress_anomalies_none in H4. simplify_eq.
  exists (AnomalyDetector.cause_effect_anomalies state ++ found2 ++ found3 ++ found5)%list,
    found6.
  split; [now rewrite <- !app_assoc|].
  split; [|now apply (stability_anomalies_reports _ _ _ _ _ H6)].
  repeat apply Forall_app_2.
  - unfold AnomalyDetector.cause_effect_anomalies.
    destruct (last_or_none _) as [la|]; [|constructor].
    destruct (_ && _); [|constructor].
    destruct (violated _); repeat constructor.
  - unfold AnomalyDetector.api_ui_anomalies in H2.
    apply exc_bind_ok in H2. destruct H2 as (v & _ & H2). simplify_eq.
    destruct (violated v); repeat constructor.
  - unfold AnomalyDetector.entity_anomalies in H3.
    destruct (last_or_none _) as [la|]; [|simplify_eq; constructor].
    destruct (str_truthy la); [|simplify_eq; constructor].
    apply exc_bind_ok in H3. destruct H3 as (v & _ & H3). simplify_eq.
    destruct (violated v); repeat constructor.
  - unfold AnomalyDetector.availability_anomalies in H5.
    destruct (last_or_none _) as [la|]; [|simplify_eq; constructor].
    destruct (_ && _); [|simplify_eq; constructor].
    apply exc_bind_ok in H5. destruct H5 as (v & _ & H5). simplify_eq.
    destruct (violated v); repeat constructor.
Qed.

(** The detector never reports an INSTABILITY anomaly. *)
Lemma detect_anomalies_no_instability (state state' : AgentState Observation)
    (found : list AnomalyReport) :
  AnomalyDetector.detect_anomalies state = Ok (state', found) ->
  Forall (fun a => category a <> INSTABILITY) found.
Proof.
  intros Hd. destruct (detect_anomalies_reports _ _ _ Hd) as (others & found6 & -> & Ho & H6).
  apply Forall_app_2.
  - eapply Forall_impl; [exact Ho|]. simpl. intros a Ha. rewrite Ha. discriminate.
  - eapply Forall_impl; [exact H6|]. simpl. intros a ->. discriminate.
Qed.

End DetectorFacts.

(** C7, on the code.  Three identical observations with three executed
    actions violate [check_forward_progress]; the detector, run on the
    state of that third step, reports the MEDIUM cause-effect anomaly
    only, and no HIGH INSTABILITY one. *)
Theorem stalled_cycle_reports_no_instability :
  CoreInvariants.check_forward_progress ["action1"; "action2"; "action3"]
    [Some "A"; Some "A"; Some "A"] 3 = Ok {| violated := true |}
  /\ AnomalyDetector.detect_anomalies stalled_state
     = Ok (stalled_state,
           [{| severity := MEDIUM; category := INVARIANT_VIOLATION;
               Anomaly.action_id := Some "action3" |}]).
Proof.
  split; [reflexivity|].
  vm_compute. reflexivity.
Qed.

(** ** Baseline deviations and the router *)

Section BaselineRouting.
Context {Observation : Type} `{ObservationModel Observation} `{FloatRuntime}.

Lemma slice_last_incl {A : Type} (n : nat) (l : list A) (x : A) :
  In x (slice_last n l) -> In x l.
Proof.
  unfold slice_last. destruct n; [auto|].
  intros Hin. rewrite <- (firstn_skipn (length l - S n) l).
  apply in_or_app. now right.
Qed.

Lemma slice_last_last {A : Type} (n : nat) (l : list A) (x : A) :
  In x (slice_last (S n) (l ++ [x])).
Proof.
  unfold slice_last. rewrite length_app. simpl length.
  rewrite <- (firstn_skipn (length l + 1 - S n) l) at 2.
  rewrite <- app_assoc, drop_app.
  apply in_or_app. right.
  rewrite length_take.
  replace (length l + 1 - S n - (length l + 1 - S n) `min` length l)%nat with 0%nat by lia.
  simpl. apply in_or_app. right. now left.
Qed.

Lemma count_high_none (l : list AnomalyReport) :
  Forall (fun a => severity a = MEDIUM) l -> Router.count_high l = 0%nat.
Proof.
  unfold Router.count_high. induction 1 as [|a l Ha _ IH]; simpl; [reflexivity|].
  unfold Router.is_high at 1. rewrite Ha. exact IH.
Qed.

Lemma forall_medium_slice (n : nat) (l : list AnomalyReport) :
  Forall (fun a => severity a = MEDIUM) l ->
  Forall (fun a => severity a = MEDIUM) (slice_last n l).
Proof.
  rewrite !Forall_forall. intros Hall a Hin. apply Hall.
  rewrite list_elem_of_In in *. now apply (slice_last_incl n).
Qed.

Lemma forallb_high_medium (l : list AnomalyReport) :
  Forall (fun a => severity a = MEDIUM) l -> l <> [] -> forallb Router.is_high l = false.
Proof.
  intros Hall Hne. destruct Hall as [|a l Ha _]; [contradiction|].
  simpl. unfold Router.is_high at 1. now rewrite Ha.
Qed.

(** A log without HIGH entries triggers none of the severity rules. *)
Lemma should_terminate_medium_log (state : AgentState Observation) :
  Forall (fun a => severity a = MEDIUM) (anomalies state) ->
  fst (Router.should_terminate state)
  = match available_actions (ui_state state) with
    | [] => true
    | _ => (max_steps (execution_context state) <=? step_count (execution_context state))%Z
    end.
Proof.
  intros Hall. unfold Router.should_terminate.
  destruct (available_actions (ui_state state)) as [|a0 rest]; [reflexivity|].
  destruct (_ <=? _)%Z; [reflexivity|].
  assert (H5 : Router.count_high
                 (if (5 <=? length (anomalies state))%nat
                  then slice_last 5 (anomalies state) else anomalies state) = 0%nat).
  { apply count_high_none. destruct (5 <=? _)%nat; [now apply forall_medium_slice | exact Hall]. }
  rewrite H5. simpl (3 <=? 0)%nat. cbv iota.
  assert (H3 : (length (if (3 <=? length (anomalies state))%nat
                        then slice_last 3 (anomalies state) else []) =? 3)%nat
               && forallb Router.is_high
                    (if (3 <=? length (anomalies state))%nat
                     then slice_last 3 (anomalies state) else []) = false).
  { destruct (3 <=? length (anomalies state))%nat; [|reflexivity].
    destruct (slice_last 3 (anomalies state)) as [|a l] eqn:E; [reflexivity|].
    rewrite (forallb_high_medium (a :: l)); [apply andb_false_r | | discriminate].
    rewrite <- E. now apply forall_medium_slice. }
  rewrite H3.
  rewrite (count_high_none _ Hall).
  replace (Qgt_bool _ 0.5) with false; [now rewrite andb_false_r|].
  symmetry. apply Qlt_bool_false_iff.
  unfold Qdiv. rewrite Qmult_0_l. discriminate.
Qed.

Lemma should_deep_test_medium (state : AgentState Observation) (a : AnomalyReport) :
  In a (if (3 <=? length (anomalies state))%nat
        then slice_last 3 (anomalies state) else anomalies state) ->
  severity a = MEDIUM ->
  Router.should_deep_test state
  = (true, Text "Medium severity anomaly detected - activating deep test").
Proof.
  intros Hin Hm. unfold Router.should_deep_test.
  replace (existsb Router.is_medium _) with true; [reflexivity|].
  symmetry. apply existsb_exists. exists a. split; [exact Hin|].
  unfold Router.is_medium. now rewrite Hm.
Qed.

(** On metrics of distinct names, as the keys of a [dict] are, the loop
    reports once for each metric whose check against the baselines stored
    before the loop is violated. *)
Lemma stability_anomalies_found (metrics : list (string * float))
    (last_action : option string) (b b' : gmap string baseline_dict)
    (found : list AnomalyReport) :
  NoDup (map fst metrics) ->
  AnomalyDetector.stability_anomalies metrics last_action b = Ok (b', found) ->
  found = repeat (AnomalyDetector.report MEDIUM REGRESSION last_action)
            (length (List.filter (deviates b) metrics)).
Proof.
  revert b b' found.
  induction metrics as [|[name x] rest IH]; intros b b' found Hnd; simpl.
  - intros Hs. now simplify_eq.
  - intros Hs. apply NoDup_cons in Hnd. destruct Hnd as [Hfresh Hnd].
    apply exc_bind_ok in Hs. destruct Hs as ([check updated] & Hcheck & Hs).
    apply exc_bind_ok in Hs. destruct Hs as ([b2 found2] & Hrest & Hs).
    specialize (IH _ _ _ Hnd Hrest).
    assert (Hsame : List.filter (deviates (<[name := to_dict updated]> b)) rest
                    = List.filter (deviates b) rest).
    { apply List.filter_ext_in. intros [n y] Hin. unfold deviates. simpl.
      rewrite lookup_insert_ne; [reflexivity|].
      intros ->. apply Hfresh. apply list_elem_of_In. apply in_map_iff. now exists (n, y). }
    rewrite Hsame in IH.
    unfold deviates at 1. simpl. rewrite Hcheck. simplify_eq.
    now destruct (violated check).
Qed.

(** C10. Every anomaly that the baseline block of the detector produces
    is [MEDIUM], [REGRESSION] and attributed to the last executed action
    (to none when nothing was executed), and the block produces one for
    each metric whose check is violated; what the detector reports besides
    has the category INVARIANT_VIOLATION.  Such an anomaly among the last
    three of the log makes [should_deep_test] hold, so the router decides
    DEEP_TEST unless it terminates.  It is never counted as HIGH: adding it
    to a log leaves the number of HIGH entries as it is, and a log made of
    such anomalies only triggers none of the HIGH-severity termination
    rules, so that only an empty offer or the step limit terminates. *)
Theorem baseline_deviation_routing :
  (forall (metrics : list (string * float)) (last_action : option string)
          (b b' : gmap string baseline_dict) (found : list AnomalyReport),
      AnomalyDetector.stability_anomalies metrics last_action b = Ok (b', found) ->
      Forall (fun a => severity a = MEDIUM /\ category a = REGRESSION
                       /\ Anomaly.action_id a = last_action) found
      /\ (NoDup (map fst metrics) ->
          found = repeat (AnomalyDetector.report MEDIUM REGRESSION last_action)
                    (length (List.filter (deviates b) metrics))))
  /\ (forall (state state' : AgentState Observation) (found : list AnomalyReport),
        AnomalyDetector.detect_anomalies state = Ok (state', found) ->
        exists others found6,
          found = (others ++ found6)%list
          /\ Forall (fun a => category a = INVARIANT_VIOLATION) others
          /\ Forall (fun a => severity a = MEDIUM /\ category a = REGRESSION
                              /\ Anomaly.action_id a
                                 = last_or_none (action_history (execution_context state)))
                    found6)
  /\ (forall (state : AgentState Observation) (last_action : option string),
        In (AnomalyDetector.report MEDIUM REGRESSION last_action)
           (if (3 <=? length (anomalies state))%nat
            then slice_last 3 (anomalies state) else anomalies state) ->
        fst (Router.should_deep_test state) = true
        /\ (fst (Router.should_terminate state) = false ->
            snd (Router.make_routing_decision state) = DEEP_TEST))
  /\ (forall (l1 l2 : list AnomalyReport) (last_action : option string),
        Router.count_high (l1 ++ AnomalyDetector.report MEDIUM REGRESSION last_action :: l2)
        = Router.count_high (l1 ++ l2))
  /\ (forall state : AgentState Observation,
        Forall (fun a => exists last_action,
                           a = AnomalyDetector.report MEDIUM REGRESSION last_action)
               (anomalies state) ->
        fst (Router.should_terminate state)
        = match available_actions (ui_state state) with
          | [] => true
          | _ => (max_steps (execution_context state)
                    <=? step_count (execution_context state))%Z
          end).
Proof.
  split; [|split; [|split; [|split]]].
  - intros metrics last_action b b' found Hs. split.
    + eapply Forall_impl; [exact (stability_anomalies_reports _ _ _ _ _ Hs)|].
      simpl. intros a ->. auto.
    + intros Hnd. now apply (stability_anomalies_found _ _ _ _ _ Hnd Hs).
  - intros state state' found Hd.
    destruct (detect_anomalies_reports _ _ _ Hd) as (others & found6 & E & Ho & H6).
    exists others, found6. split; [exact E|]. split; [exact Ho|].
    eapply Forall_impl; [exact H6|]. simpl. intros a ->. auto.
  - intros state last_action Hin.
    pose proof (should_deep_test_medium state _ Hin eq_refl) as Hd.
    split; [now rewrite Hd|].
    intros Ht. unfold Router.make_routing_decision.
    destruct (Router.should_terminate state) as [t r]. simpl in Ht. subst t.
    now rewrite Hd.
  - intros l1 l2 last_action. unfold Router.count_high.
    rewrite !List.filter_app. reflexivity.
  - intros state Hall. apply should_terminate_medium_log.
    eapply Forall_impl; [exact Hall|]. simpl. intros a [la ->]. reflexivity.
Qed.

End BaselineRouting.

Lemma baseline_deviation_routing_witness :
  let metrics := [("response_time_ms", 500%float)] in
  let deviation := AnomalyDetector.report MEDIUM REGRESSION (Some "click_submit") in
  (NoDup (map fst metrics)
   /\ exists b', AnomalyDetector.stability_anomalies metrics (Some "click_submit")
                   response_time_baseline = Ok (b', [deviation]))
  /\ In deviation (if (3 <=? length (anomalies deviation_state))%nat
                   then slice_last 3 (anomalies deviation_state)
                   else anomalies deviation_state)
  /\ fst (Router.should_terminate deviation_state) = false
  /\ fst (Router.should_deep_test deviation_state) = true
  /\ snd (Router.make_routing_decision deviation_state) = DEEP_TEST.
Proof.
  intros metrics deviation.
  assert (Hnd : NoDup (map fst metrics)) by apply NoDup_singleton.
  assert (Hin : In deviation (if (3 <=? length (anomalies deviation_state))%nat
                              then slice_last 3 (anomalies deviation_state)
                              else anomalies deviation_state)) by (simpl; now left).
  assert (Ht : fst (Router.should_terminate deviation_state) = false) by reflexivity.
  pose proof (@baseline_deviation_routing unit _ _) as (Hloop & _ & Hdeep & _).
  split; [split; [exact Hnd|]|].
  - destruct (AnomalyDetector.stability_anomalies metrics (Some "click_submit")
                response_time_baseline) as [[b' found]|e] eqn:E;
      [|vm_compute in E; discriminate E].
    exists b'. rewrite (proj2 (Hloop _ _ _ _ _ E) Hnd). reflexivity.
  - split; [exact Hin|]. split; [exact Ht|].
    destruct (Hdeep deviation_state (Some "click_submit") Hin) as [Hd Hr].
    split; [exact Hd | exact (Hr Ht)].
Defined.

(** C10, as stated, fails in its last part: a baseline deviation is not
    counted as HIGH, but it enters the windows and the total over which the
    HIGH-severity termination rules count.  After eleven HIGH and nine LOW
    anomalies the router does not terminate; one baseline deviation more
    makes twenty-one entries, eleven of them HIGH, and the rule of the
    excessive rate terminates.  And after HIGH, HIGH, HIGH, LOW, LOW the
    router terminates, while one baseline deviation more pushes a HIGH out
    of the last five and the router goes on, with a deep test. *)
Lemma baseline_deviation_changes_termination :
  let deviation := AnomalyDetector.report MEDIUM REGRESSION (Some "click_submit") in
  let logged l := set_anomalies clean_run_state l in
  (Router.should_terminate (logged high_then_low) = (false, Text "")
   /\ Router.should_terminate (logged (high_then_low ++ [deviation])%list)
      = (true, Text "Excessive anomaly rate (>50% high severity)")
   /\ snd (Router.make_routing_decision (logged (high_then_low ++ [deviation])%list))
      = TERMINATE)
  /\ (Router.should_terminate
        (logged [high_anomaly; high_anomaly; high_anomaly; low_anomaly; low_anomaly])
      = (true, RepeatedHighSeverity 3)
      /\ Router.should_terminate
           (logged [high_anomaly; high_anomaly; high_anomaly; low_anomaly; low_anomaly;
                    deviation])
         = (false, Text "")
      /\ snd (Router.make_routing_decision
                (logged [high_anomaly; high_anomaly; high_anomaly; low_anomaly; low_anomaly;
                         deviation]))
         = DEEP_TEST).
Proof.
  intros deviation logged.
  repeat split; vm_compute; reflexivity.
Qed.

(** ** The exploration policy *)

Section ExplorationFacts.
Import Exploration.
Variable action_history : list string.
Variable risk_scores : gmap string Q.

Let score (a : string) : Q := combined_score a action_history risk_scores.
Let entry (a : string) : string * Q := (a, score a).

Lemma allowedb_spec (thr : Q) (a : string) :
  allowedb risk_scores thr a = true <-> allowed risk_scores thr a.
Proof.
  unfold allowedb, allowed, Qgt_bool. rewrite negb_true_iff.
  apply Qlt_bool_false_iff.
Qed.

Lemma existsb_eqb_In (a : string) (l : list string) :
  existsb (String.eqb a) l = true <-> In a l.
Proof.
  rewrite existsb_exists. split.
  - intros (x & Hin & Heq). apply String.eqb_eq in Heq. now subst x.
  - intros Hin. exists a. split; [exact Hin | apply String.eqb_refl].
Qed.

Lemma dict_set_absent (d : list (string * Q)) (k : string) (v : Q) :
  ~ In k (map fst d) -> dict_set d k v = (d ++ [(k, v)])%list.
Proof.
  induction d as [|[k' v'] d IH]; simpl; [reflexivity|].
  intros Hn. destruct (String.eqb_spec k' k) as [->|_].
  - exfalso. apply Hn. now left.
  - rewrite IH; [reflexivity|]. intros Hin. apply Hn. now right.
Qed.

Lemma dict_set_same (d : list (string * Q)) (k : string) :
  (forall k' v', In (k', v') d -> v' = score k') ->
  In k (map fst d) -> dict_set d k (score k) = d.
Proof.
  induction d as [|[k' v'] d IH]; simpl; [intros _ []|].
  intros Hw Hin. destruct (String.eqb_spec k' k) as [->|Hne].
  - now rewrite (Hw k v' (or_introl eq_refl)).
  - rewrite IH; [reflexivity | |].
    + intros k2 v2 H2. apply Hw. now right.
    + destruct Hin as [E|Hin]; [contradiction | exact Hin].
Qed.

(** The scoring loop appends, to the scores it starts from, the allowed
    actions it has not scored yet, in the order of their first occurrence. *)
Lemma score_actions_first_allowed (thr : Q) (available_actions : list string)
    (acc : list (string * Q)) :
  (forall k v, In (k, v) acc -> v = score k) ->
  score_actions available_actions action_history risk_scores thr acc
  = (acc ++ map entry (first_allowed risk_scores thr (map fst acc) available_actions))%list.
Proof.
  revert acc. induction available_actions as [|a rest IH]; intros acc Hw; simpl.
  - now rewrite app_nil_r.
  - unfold allowedb at 1. fold (stored_risk risk_scores a).
    destruct (Qgt_bool (stored_risk risk_scores a) thr); simpl; [now apply IH|].
    destruct (existsb (String.eqb a) (map fst acc)) eqn:Eseen; simpl.
    + apply existsb_eqb_In in Eseen.
      fold (score a). rewrite (dict_set_same acc a Hw Eseen). now apply IH.
    + assert (Hn : ~ In a (map fst acc)).
      { intros Hin. apply existsb_eqb_In in Hin. congruence. }
      fold (score a). rewrite (dict_set_absent acc a (score a) Hn).
      rewrite IH.
      * rewrite map_app. simpl. now rewrite <- app_assoc.
      * intros k v Hin. apply in_app_or in Hin. destruct Hin as [Hin|[E|[]]].
        -- now apply Hw.
        -- now injection E as <- <-.
Qed.

Lemma score_actions_entries (thr : Q) (available_actions : list string) :
  score_actions available_actions action_history risk_scores thr []
  = map entry (first_allowed risk_scores thr [] available_actions).
Proof. now rewrite score_actions_first_allowed by (intros k v []). Qed.

Lemma first_allowed_sound (thr : Q) (available_actions seen : list string) (b : string) :
  In b (first_allowed risk_scores thr seen available_actions) ->
  In b available_actions /\ allowed risk_scores thr b /\ ~ In b seen.
Proof.
  revert seen. induction available_actions as [|a rest IH]; intros seen; simpl; [intros []|].
  destruct (allowedb risk_scores thr a) eqn:Ea; simpl.
  - destruct (existsb (String.eqb a) seen) eqn:Es; simpl.
    + intros Hin. destruct (IH _ Hin) as (H1 & H2 & H3). auto.
    + intros [<-|Hin].
      * split; [now left|]. split; [now apply allowedb_spec|].
        intros Hin. apply existsb_eqb_In in Hin. congruence.
      * destruct (IH _ Hin) as (H1 & H2 & H3). split; [now right|]. split; [exact H2|].
        intros Hs. apply H3. apply in_or_app. now left.
  - intros Hin. destruct (IH _ Hin) as (H1 & H2 & H3). auto.
Qed.

Lemma first_allowed_complete (thr : Q) (available_actions seen : list string) (b : string) :
  In b available_actions -> allowed risk_scores thr b ->
  In b seen \/ In b (first_allowed risk_scores thr seen available_actions).
Proof.
  revert seen. induction available_actions as [|a rest IH]; intros seen; simpl; [intros []|].
  intros [<-|Hin] Hal.
  - apply allowedb_spec in Hal. rewrite Hal. simpl.
    destruct (existsb (String.eqb a) seen) eqn:Es; simpl.
    + left. now apply existsb_eqb_In.
    + right. now left.
  - destruct (allowedb risk_scores thr a && negb (existsb (String.eqb a) seen)).
    + destruct (IH (seen ++ [a])%list Hin Hal) as [Hs|Hf].
      * apply in_app_or in Hs. destruct Hs as [Hs|[<-|[]]]; [now left|].
        right. now left.
      * right. now right.
    + now apply IH.
Qed.

(** Where an action stands among the first allowed ones tells where its
    first occurrence stands in the offered list. *)
Lemma first_allowed_split (thr : Q) (available_actions seen c1 c2 : list string) (a : string) :
  first_allowed risk_scores thr seen available_actions = (c1 ++ a :: c2)%list ->
  exists pre post,
    available_actions = (pre ++ a :: post)%list
    /\ ~ In a pre
    /\ (forall b, In b pre -> allowed risk_scores thr b -> In b seen \/ In b c1)
    /\ (forall b, In b post -> allowed risk_scores thr b ->
                  In b seen \/ In b (c1 ++ a :: c2)%list).
Proof.
  revert seen c1. induction available_actions as [|x rest IH]; intros seen c1; simpl.
  - intros E. destruct c1; discriminate E.
  - destruct (allowedb risk_scores thr x && negb (existsb (String.eqb x) seen)) eqn:Ex.
    + apply andb_true_iff in Ex. destruct Ex as [Hal Hseen].
      apply negb_true_iff in Hseen.
      destruct c1 as [|y c1]; simpl; intros E; injection E as E1 E2.
      * subst x. exists [], rest. split; [reflexivity|]. split; [intros []|].
        split; [intros b []|].
        intros b Hin Hb.
        destruct (first_allowed_complete thr rest (seen ++ [a])%list b Hin Hb) as [Hs|Hf].
        -- apply in_app_or in Hs. destruct Hs as [Hs|[<-|[]]]; [now left|]. right. now left.
        -- right. rewrite E2 in Hf. now right.
      * subst y. destruct (IH _ _ E2) as (pre & post & -> & Hn & Hpre & Hpost).
        assert (Hax : a <> x).
        { intros ->.
          assert (Hin : In x (first_allowed risk_scores thr (seen ++ [x]) (pre ++ x :: post)))
            by (rewrite E2; apply in_or_app; right; now left).
          apply first_allowed_sound in Hin. destruct Hin as (_ & _ & Hns).
          apply Hns. apply in_or_app. right. now left. }
        exists (x :: pre), post. split; [reflexivity|].
        split; [intros [E|Hin]; [now apply Hax | now apply Hn]|].
        split.
        -- intros b [<-|Hin] Hb; [right; now left|].
           destruct (Hpre b Hin Hb) as [Hs|Hc]; [|right; now right].
           apply in_app_or in Hs. destruct Hs as [Hs|[<-|[]]]; [now left | right; now left].
        -- intros b Hin Hb. destruct (Hpost b Hin Hb) as [Hs|Hc]; [|right; now right].
           apply in_app_or in Hs. destruct Hs as [Hs|[<-|[]]]; [now left | right; now left].
    + intros E. destruct (IH _ _ E) as (pre & post & -> & Hn & Hpre & Hpost).
      assert (Hin : In a (first_allowed risk_scores thr seen (pre ++ a :: post)))
        by (rewrite E; apply in_or_app; right; now left).
      apply first_allowed_sound in Hin. destruct Hin as (_ & Hal & Hns).
      assert (Hax : a <> x).
      { intros ->. apply andb_false_iff in Ex. destruct Ex as [Ex|Ex].
        - apply allowedb_spec in Hal. congruence.
        - apply negb_false_iff in Ex. apply existsb_eqb_In in Ex. contradiction. }
      exists (x :: pre), post. split; [reflexivity|].
      split; [intros [E'|Hin]; [now apply Hax | now apply Hn]|].
      split; [|exact Hpost].
      intros b [<-|Hin] Hb; [|now apply Hpre].
      left. apply andb_false_iff in Ex. destruct Ex as [Ex|Ex].
      * apply allowedb_spec in Hb. congruence.
      * apply negb_false_iff in Ex. now apply existsb_eqb_In.
Qed.

Lemma max_by_score_split (items : list (string * Q)) (best : string * Q) :
  (max_by_score best items = best
   /\ forall e, In e items -> (snd e <= snd best)%Q)
  \/ (exists i1 i2,
        items = (i1 ++ max_by_score best items :: i2)%list
        /\ (snd best < snd (max_by_score best items))%Q
        /\ (forall e, In e i1 -> (snd e < snd (max_by_score best items))%Q)
        /\ (forall e, In e i2 -> (snd e <= snd (max_by_score best items))%Q)).
Proof.
  revert best. induction items as [|x rest IH]; intros best; simpl.
  - left. split; [reflexivity | intros e []].
  - unfold Qgt_bool. destruct (Qlt_bool (snd best) (snd x)) eqn:Ex.
    + apply Qlt_bool_iff in Ex. right.
      destruct (IH x) as [[Er Hle] | (i1 & i2 & Er & Hlt & H1 & H2)].
      * rewrite Er. exists [], rest. split; [reflexivity|]. split; [exact Ex|].
        split; [intros e [] | exact Hle].
      * exists (x :: i1), i2. split; [simpl; now rewrite <- Er|].
        split; [now apply Qlt_trans with (snd x)|].
        split; [|exact H2]. intros e [<-|Hin]; [exact Hlt | now apply H1].
    + apply Qlt_bool_false_iff in Ex.
      destruct (IH best) as [[Er Hle] | (i1 & i2 & Er & Hlt & H1 & H2)].
      * left. split; [exact Er|]. intros e [<-|Hin]; [exact Ex | now apply Hle].
      * right. exists (x :: i1), i2. split; [simpl; now rewrite <- Er|].
        split; [exact Hlt|]. split; [|exact H2].
        intros e [<-|Hin]; [now apply Qle_lt_trans with (snd best) | now apply H1].
Qed.

(** The maximum of a non-empty [dict] of scores, split at the entry
    that [max] returns. *)
Lemma max_by_score_first (x : string * Q) (items : list (string * Q)) :
  exists d1 d2,
    x :: items = (d1 ++ max_by_score x items :: d2)%list
    /\ (forall e, In e d1 -> (snd e < snd (max_by_score x items))%Q)
    /\ (forall e, In e d2 -> (snd e <= snd (max_by_score x items))%Q).
Proof.
  destruct (max_by_score_split items x) as [[Er Hle] | (i1 & i2 & Er & Hlt & H1 & H2)].
  - exists [], items. rewrite Er. split; [reflexivity|]. split; [intros e [] | exact Hle].
  - exists (x :: i1), i2. split; [simpl; now rewrite <- Er|].
    split; [|exact H2]. intros e [<-|Hin]; [exact Hlt | now apply H1].
Qed.

Lemma scored_first_argmax (thr : Q) (available_actions : list string)
    (x : string * Q) (items : list (string * Q)) :
  score_actions available_actions action_history risk_scores thr [] = x :: items ->
  first_argmax score (allowed risk_scores thr) available_actions
    (fst (max_by_score x items)).
Proof.
  intros Hs. rewrite score_actions_entries in Hs.
  destruct (max_by_score_first x items) as (d1 & d2 & Ed & H1 & H2).
  rewrite <- Hs in Ed.
  apply map_eq_app in Ed. destruct Ed as (c1 & c2' & Ec & E1 & E2).
  apply map_eq_cons in E2. destruct E2 as (a & c2 & -> & Ea & E2).
  rewrite <- Ea in *. simpl fst. simpl snd in H1, H2.
  assert (Hin : In a (first_allowed risk_scores thr [] available_actions))
    by (rewrite Ec; apply in_or_app; right; now left).
  destruct (first_allowed_sound _ _ _ _ Hin) as (_ & Hal & _).
  split; [exact Hal|].
  destruct (first_allowed_split _ _ _ _ _ _ Ec) as (pre & post & -> & _ & Hpre & Hpost).
  exists pre, post. split; [reflexivity|]. split.
  - intros b Hb Hab. destruct (Hpre b Hb Hab) as [[]|Hc].
    apply (H1 (entry b)). rewrite <- E1. now apply in_map.
  - intros b Hb Hab. destruct (Hpost b Hb Hab) as [[]|Hc].
    apply in_app_or in Hc. destruct Hc as [Hc|[<-|Hc]].
    + apply Qlt_le_weak. apply (H1 (entry b)). rewrite <- E1. now apply in_map.
    + apply Qle_refl.
    + apply (H2 (entry b)). rewrite <- E2. now apply in_map.
Qed.

Lemma scores_empty_iff (thr : Q) (available_actions : list string) :
  score_actions available_actions action_history risk_scores thr [] = []
  <-> forall b, In b available_actions -> ~ allowed risk_scores thr b.
Proof.
  rewrite score_actions_entries. split.
  - intros E b Hin Hal.
    destruct (first_allowed_complete thr available_actions [] b Hin Hal) as [[]|Hf].
    destruct (first_allowed risk_scores thr [] available_actions); [contradiction | discriminate].
  - intros Hnone.
    destruct (first_allowed risk_scores thr [] available_actions) as [|b l] eqn:E; [reflexivity|].
    assert (Hin : In b (first_allowed risk_scores thr [] available_actions))
      by (rewrite E; now left).
    destruct (first_allowed_sound _ _ _ _ Hin) as (H1 & H2 & _).
    now destruct (Hnone b H1).
Qed.

Lemma scores_empty_existsb (thr : Q) (available_actions : list string) :
  score_actions available_actions action_history risk_scores thr [] = []
  <-> existsb (allowedb risk_scores thr) available_actions = false.
Proof.
  rewrite scores_empty_iff. split.
  - intros Hnone. destruct (existsb _ _) eqn:E; [|reflexivity].
    apply existsb_exists in E. destruct E as (b & Hin & Hb).
    apply allowedb_spec in Hb. now destruct (Hnone b Hin).
  - intros E b Hin Hal. apply allowedb_spec in Hal.
    assert (Ht : existsb (allowedb risk_scores thr) available_actions = true)
      by (apply existsb_exists; eauto).
    congruence.
Qed.

Lemma select_step (depth : nat) (thr : Q) (available_actions : list string) :
  available_actions <> [] ->
  select_action_by_coverage (S depth) available_actions action_history risk_scores thr
  = match score_actions available_actions action_history risk_scores thr [] with
    | [] => select_action_by_coverage depth available_actions action_history risk_scores 1.0
    | x :: items => Ok (Some (fst (max_by_score x items)))
    end.
Proof. destruct available_actions; [contradiction | reflexivity]. Qed.

(** When even the relaxed threshold excludes every offered action, the
    function calls itself until the interpreter gives up. *)
Lemma select_relaxed_stuck (depth : nat) (available_actions : list string) :
  available_actions <> [] ->
  score_actions available_actions action_history risk_scores 1.0 [] = [] ->
  select_action_by_coverage depth available_actions action_history risk_scores 1.0
  = Raise RecursionError.
Proof.
  intros Hne Hs. induction depth as [|depth IH]; [reflexivity|].
  rewrite select_step by exact Hne. now rewrite Hs.
Qed.

Lemma select_none (depth : nat) (thr : Q) (available_actions : list string) :
  select_action_by_coverage depth available_actions action_history risk_scores thr = Ok None ->
  available_actions = [].
Proof.
  revert thr. induction depth as [|depth IH]; intros thr; simpl; [discriminate|].
  destruct available_actions as [|a rest]; [reflexivity|].
  destruct (score_actions _ _ _ _ _); [apply IH | discriminate].
Qed.

(** Two frames are all the function ever uses. *)
Lemma select_two_frames (depth : nat) (thr : Q) (available_actions : list string) :
  select_action_by_coverage (S (S depth)) available_actions action_history risk_scores thr
  = select_action_by_coverage 2 available_actions action_history risk_scores thr.
Proof.
  destruct available_actions as [|a0 rest]; [reflexivity|].
  rewrite !(select_step _ thr) by discriminate.
  destruct (score_actions (a0 :: rest) action_history risk_scores thr []); [|reflexivity].
  destruct (score_actions (a0 :: rest) action_history risk_scores 1.0 []) eqn:E1.
  - now rewrite !select_relaxed_stuck.
  - rewrite !select_step by discriminate. now rewrite E1.
Qed.

Lemma select_first_argmax (depth : nat) (thr : Q) (available_actions : list string)
    (a : string) :
  select_action_by_coverage (S (S depth)) available_actions action_history risk_scores thr
  = Ok (Some a) ->
  first_argmax score
    (allowed risk_scores (effective_threshold available_actions risk_scores thr))
    available_actions a.
Proof.
  destruct available_actions as [|a0 rest]; [discriminate|].
  rewrite select_step by discriminate. unfold effective_threshold.
  destruct (score_actions (a0 :: rest) action_history risk_scores thr []) as [|x items] eqn:Es.
  - rewrite (proj1 (scores_empty_existsb thr (a0 :: rest)) Es).
    rewrite select_step by discriminate.
    destruct (score_actions (a0 :: rest) action_history risk_scores 1.0 [])
      as [|x items] eqn:E1.
    + now rewrite select_relaxed_stuck.
    + intros E. injection E as <-. now apply scored_first_argmax.
  - destruct (existsb _ _) eqn:Ee.
    + intros E. injection E as <-. now apply scored_first_argmax.
    + apply scores_empty_existsb in Ee. congruence.
Qed.

Lemma select_returns (depth : nat) (thr : Q) (available_actions : list string) :
  (exists b, In b available_actions
             /\ allowed risk_scores (effective_threshold available_actions risk_scores thr) b) ->
  exists a,
    select_action_by_coverage (S (S depth)) available_actions action_history risk_scores thr
    = Ok (Some a).
Proof.
  intros (b & Hin & Hal).
  assert (Hne : available_actions <> []) by (intros ->; destruct Hin).
  rewrite select_step by exact Hne. unfold effective_threshold in Hal.
  destruct (score_actions available_actions action_history risk_scores thr [])
    as [|x items] eqn:Es; [|eauto].
  rewrite (proj1 (scores_empty_existsb thr available_actions) Es) in Hal.
  rewrite select_step by exact Hne.
  destruct (score_actions available_actions action_history risk_scores 1.0 [])
    as [|x items] eqn:E1; [|eauto].
  destruct (proj1 (scores_empty_iff _ _) E1 b Hin Hal).
Qed.

Lemma first_argmax_In (adm : string -> Prop) (available_actions : list string) (a : string) :
  first_argmax score adm available_actions a -> In a available_actions.
Proof.
  intros (_ & pre & post & -> & _). apply in_or_app. right. now left.
Qed.

End ExplorationFacts.

Section SelectionTheorems.
Import Exploration.
Local Open Scope Q_scope.

Lemma stored_risk_in_range (risk_scores : gmap string Q) (a : string) :
  (forall b r, risk_scores !! b = Some r -> r <= 1) -> stored_risk risk_scores a <= 1.
Proof.
  intros Hr. unfold stored_risk. destruct (risk_scores !! a) as [r|] eqn:E; simpl.
  - now apply (Hr a).
  - discriminate.
Qed.

Lemma coverage_score_cases (a : string) (action_history : list string) :
  let n := py_count a action_history in
  (n = 0%nat -> calculate_action_coverage_score a action_history == 1)
  /\ (n = 1%nat -> calculate_action_coverage_score a action_history == 1 # 2)
  /\ ((2 <= n)%nat ->
      calculate_action_coverage_score a action_history == 1 / (inject_Z (Z.of_nat n) + 1)).
Proof.
  intros n. unfold calculate_action_coverage_score. fold n.
  split; [|split].
  - intros ->. reflexivity.
  - intros ->. reflexivity.
  - intros Hn. destruct n as [|[|m]]; [lia | lia |].
    simpl Nat.eqb. cbv iota.
    rewrite inject_Z_plus. reflexivity.
Qed.

(** C5, as the code has it.  Exactly the offered actions whose risk does
    not exceed the threshold are scored.  When the threshold excludes
    every offered action and some offered action has a risk of at most 1.0
    (as all have when the stored scores are within [0,1]), the selection
    calls itself once, with the threshold 1.0, and that call returns an
    action: one frame is not enough, two are.  Under the same condition on
    the risks an action is returned whatever the threshold.  The selection
    returns [None] exactly when nothing is offered. *)
Theorem selection_excludes_and_relaxes_once (available_actions action_history : list string)
    (risk_scores : gmap string Q) (thr : Q) :
  let select d t :=
    select_action_by_coverage d available_actions action_history risk_scores t in
  let scored t := score_actions available_actions action_history risk_scores t [] in
  (forall a, In a (map fst (scored thr))
             <-> In a available_actions /\ ~ thr < stored_risk risk_scores a)
  /\ (scored thr = [] ->
      (exists b, In b available_actions /\ stored_risk risk_scores b <= 1) ->
      select 1%nat thr = Raise RecursionError
      /\ exists a, In a available_actions
                   /\ select 1%nat 1.0 = Ok (Some a)
                   /\ forall depth, select (S (S depth)) thr = Ok (Some a))
  /\ ((exists b, In b available_actions /\ stored_risk risk_scores b <= 1) ->
      forall depth, exists a, In a available_actions /\ select (S (S depth)) thr = Ok (Some a))
  /\ (available_actions <> [] ->
      (forall b r, risk_scores !! b = Some r -> r <= 1) ->
      exists b, In b available_actions /\ stored_risk risk_scores b <= 1)
  /\ (forall depth, select (S depth) thr = Ok None <-> available_actions = []).
Proof.
  intros select scored. subst select scored. cbv beta.
  split; [|split; [|split; [|split]]].
  - intros a. rewrite score_actions_entries, map_map. simpl. rewrite map_id. split.
    + intros Hin. apply first_allowed_sound in Hin. destruct Hin as (H1 & H2 & _).
      split; [exact H1|]. unfold allowed in H2. now apply Qle_not_lt.
    + intros [Hin Hn].
      destruct (first_allowed_complete risk_scores thr available_actions [] a Hin)
        as [[]|Hf]; [|exact Hf].
      unfold allowed. now apply Qnot_lt_le.
  - intros Hs (b & Hin & Hb).
    assert (Hne : available_actions <> []) by (intros ->; destruct Hin).
    split; [rewrite select_step by exact Hne; now rewrite Hs|].
    destruct (score_actions available_actions action_history risk_scores 1.0 [])
      as [|x items] eqn:E1.
    { destruct (proj1 (scores_empty_iff _ _ _ _) E1 b Hin). unfold allowed. lra. }
    exists (fst (max_by_score x items)). split.
    + eapply first_argmax_In. apply (scored_first_argmax _ _ _ _ _ _ E1).
    + split; [rewrite select_step by exact Hne; now rewrite E1|].
      intros depth. rewrite !select_step by exact Hne. now rewrite Hs, E1.
  - intros (b & Hin & Hb) depth.
    destruct (select_returns action_history risk_scores depth thr available_actions)
      as [a Ha].
    { unfold effective_threshold.
      destruct (existsb (allowedb risk_scores thr) available_actions) eqn:Ee.
      - apply existsb_exists in Ee. destruct Ee as (b' & Hin' & Hb').
        exists b'. split; [exact Hin' | now apply allowedb_spec].
      - exists b. split; [exact Hin|]. unfold allowed. lra. }
    exists a. split; [|exact Ha].
    eapply first_argmax_In. apply (select_first_argmax _ _ _ _ _ _ Ha).
  - intros Hne Hr. destruct available_actions as [|b rest]; [contradiction|].
    exists b. split; [now left | now apply stored_risk_in_range].
  - intros depth. split; [apply select_none|]. intros ->. reflexivity.
Qed.

End SelectionTheorems.

Lemma selection_excludes_and_relaxes_once_witness :
  let select d t :=
    Exploration.select_action_by_coverage d ["click_submit"; "fill_input"] [] all_risky t in
  Exploration.score_actions ["click_submit"; "fill_input"] [] all_risky 0.9 [] = []
  /\ (exists b, In b ["click_submit"; "fill_input"] /\ (stored_risk all_risky b <= 1)%Q)
  /\ select 1%nat 0.9%Q = Raise RecursionError
  /\ exists a, In a ["click_submit"; "fill_input"]
               /\ select 1%nat 1.0%Q = Ok (Some a)
               /\ forall depth, select (S (S depth)) 0.9%Q = Ok (Some a).
Proof.
  assert (Hs : Exploration.score_actions ["click_submit"; "fill_input"] [] all_risky 0.9 [] = [])
    by (vm_compute; reflexivity).
  assert (Hb : exists b, In b ["click_submit"; "fill_input"]
                         /\ (stored_risk all_risky b <= 1)%Q).
  { exists "fill_input". split; [right; now left|]. vm_compute. discriminate. }
  split; [exact Hs|]. split; [exact Hb|].
  exact (proj1 (proj2 (selection_excludes_and_relaxes_once
                         ["click_submit"; "fill_input"] [] all_risky 0.9)) Hs Hb).
Defined.

(** C5, as stated, fails: with a stored risk above 1.0 the offered set is
    not empty, and the selection returns no action at any depth; it calls
    itself until the recursion limit is hit. *)
Lemma selection_stuck_above_one :
  Exploration.select_action_by_coverage recursion_limit ["risky_action"] []
    out_of_range_risks 0.9 = Raise RecursionError
  /\ ~ (exists (depth : nat) (r : option string),
          Exploration.select_action_by_coverage depth ["risky_action"] []
            out_of_range_risks 0.9 = Ok r).
Proof.
  assert (Hall : forall depth,
             Exploration.select_action_by_coverage depth ["risky_action"] []
               out_of_range_risks 0.9 = Raise RecursionError).
  { intros [|depth]; [reflexivity|].
    rewrite select_step by discriminate.
    replace (Exploration.score_actions ["risky_action"] [] out_of_range_risks 0.9 [])
      with (@nil (string * Q)) by (vm_compute; reflexivity).
    apply select_relaxed_stuck; [discriminate | vm_compute; reflexivity]. }
  split; [apply Hall|].
  intros (depth & r & E). rewrite Hall in E. discriminate E.
Qed.

(** ** The exploration policy on binary64 *)

Section FloatSelection.
Import ExplorationFloat.
Variable action_history : list string.
Variable risk_scores : gmap string float.

Let score (a : string) : float := combined_score a action_history risk_scores.
Let entry (a : string) : string * float := (a, score a).

Lemma float_dict_set_absent (d : list (string * float)) (k : string) (v : float) :
  ~ In k (map fst d) -> dict_set d k v = (d ++ [(k, v)])%list.
Proof.
  induction d as [|[k' v'] d IH]; simpl; [reflexivity|].
  intros Hn. destruct (String.eqb_spec k' k) as [->|_].
  - exfalso. apply Hn. now left.
  - rewrite IH; [reflexivity|]. intros Hin. apply Hn. now right.
Qed.

Lemma float_dict_set_same (d : list (string * float)) (k : string) :
  (forall k' v', In (k', v') d -> v' = score k') ->
  In k (map fst d) -> dict_set d k (score k) = d.
Proof.
  induction d as [|[k' v'] d IH]; simpl; [intros _ []|].
  intros Hw Hin. destruct (String.eqb_spec k' k) as [->|Hne].
  - now rewrite (Hw k v' (or_introl eq_refl)).
  - rewrite IH; [reflexivity | |].
    + intros k2 v2 H2. apply Hw. now right.
    + destruct Hin as [E|Hin]; [contradiction | exact Hin].
Qed.

(** The scoring loop appends, to the scores it starts from, the allowed
    actions it has not scored yet, in the order of their first occurrence. *)
Lemma float_score_actions_first_allowed (thr : float) (available_actions : list string)
    (acc : list (string * float)) :
  (forall k v, In (k, v) acc -> v = score k) ->
  score_actions available_actions action_history risk_scores thr acc
  = (acc ++ map entry
              (float_first_allowed risk_scores thr (map fst acc) available_actions))%list.
Proof.
  revert acc. induction available_actions as [|a rest IH]; intros acc Hw; simpl.
  - now rewrite app_nil_r.
  - unfold float_allowedb at 1. fold (float_stored_risk risk_scores a).
    destruct (float_gt (float_stored_risk risk_scores a) thr); simpl; [now apply IH|].
    destruct (existsb (String.eqb a) (map fst acc)) eqn:Eseen; simpl.
    + apply existsb_eqb_In in Eseen.
      fold (score a). rewrite (float_dict_set_same acc a Hw Eseen). now apply IH.
    + assert (Hn : ~ In a (map fst acc)).
      { intros Hin. apply existsb_eqb_In in Hin. congruence. }
      fold (score a). rewrite (float_dict_set_absent acc a (score a) Hn).
      rewrite IH.
      * rewrite map_app. simpl. now rewrite <- app_assoc.
      * intros k v Hin. apply in_app_or in Hin. destruct Hin as [Hin|[E|[]]].
        -- now apply Hw.
        -- now injection E as <- <-.
Qed.

Lemma float_score_actions_entries (thr : float) (available_actions : list string) :
  score_actions available_actions action_history risk_scores thr []
  = map entry (float_first_allowed risk_scores thr [] available_actions).
Proof. now rewrite float_score_actions_first_allowed by (intros k v []). Qed.

Lemma float_first_allowed_sound (thr : float) (available_actions seen : list string)
    (b : string) :
  In b (float_first_allowed risk_scores thr seen available_actions) ->
  In b available_actions /\ float_allowedb risk_scores thr b = true /\ ~ In b seen.
Proof.
  revert seen. induction available_actions as [|a rest IH]; intros seen; simpl; [intros []|].
  destruct (float_allowedb risk_scores thr a) eqn:Ea; simpl.
  - destruct (existsb (String.eqb a) seen) eqn:Es; simpl.
    + intros Hin. destruct (IH _ Hin) as (H1 & H2 & H3). auto.
    + intros [<-|Hin].
      * split; [now left|]. split; [exact Ea|].
        intros Hin. apply existsb_eqb_In in Hin. congruence.
      * destruct (IH _ Hin) as (H1 & H2 & H3). split; [now right|]. split; [exact H2|].
        intros Hs. apply H3. apply in_or_app. now left.
  - intros Hin. destruct (IH _ Hin) as (H1 & H2 & H3). auto.
Qed.

Lemma float_first_allowed_complete (thr : float) (available_actions seen : list string)
    (b : string) :
  In b available_actions -> float_allowedb risk_scores thr b = true ->
  In b seen \/ In b (float_first_allowed risk_scores thr seen available_actions).
Proof.
  revert seen. induction available_actions as [|a rest IH]; intros seen; simpl; [intros []|].
  intros [<-|Hin] Hal.
  - rewrite Hal. simpl.
    destruct (existsb (String.eqb a) seen) eqn:Es; simpl.
    + left. now apply existsb_eqb_In.
    + right. now left.
  - destruct (float_allowedb risk_scores thr a && negb (existsb (String.eqb a) seen)).
    + destruct (IH (seen ++ [a])%list Hin Hal) as [Hs|Hf].
      * apply in_app_or in Hs. destruct Hs as [Hs|[<-|[]]]; [now left|].
        right. now left.
      * right. now right.
    + now apply IH.
Qed.

(** Where an action stands among the first allowed ones tells where its
    first occurrence stands in the offered list. *)
Lemma float_first_allowed_split (thr : float) (available_actions seen c1 c2 : list string)
    (a : string) :
  float_first_allowed risk_scores thr seen available_actions = (c1 ++ a :: c2)%list ->
  exists pre post,
    available_actions = (pre ++ a :: post)%list
    /\ ~ In a pre
    /\ (forall b, In b pre -> float_allowedb risk_scores thr b = true -> In b seen \/ In b c1)
    /\ (forall b, In b post -> float_allowedb risk_scores thr b = true ->
                  In b seen \/ In b (c1 ++ a :: c2)%list).
Proof.
  revert seen c1. induction available_actions as [|x rest IH]; intros seen c1; simpl.
  - intros E. destruct c1; discriminate E.
  - destruct (float_allowedb risk_scores thr x && negb (existsb (String.eqb x) seen)) eqn:Ex.
    + apply andb_true_iff in Ex. destruct Ex as [Hal Hseen].
      apply negb_true_iff in Hseen.
      destruct c1 as [|y c1]; simpl; intros E; injection E as E1 E2.
      * subst x. exists [], rest. split; [reflexivity|]. split; [intros []|].
        split; [intros b []|].
        intros b Hin Hb.
        destruct (float_first_allowed_complete thr rest (seen ++ [a])%list b Hin Hb)
          as [Hs|Hf].
        -- apply in_app_or in Hs. destruct Hs as [Hs|[<-|[]]]; [now left|]. right. now left.
        -- right. rewrite E2 in Hf. now right.
      * subst y. destruct (IH _ _ E2) as (pre & post & -> & Hn & Hpre & Hpost).
        assert (Hax : a <> x).
        { intros ->.
          assert (Hin : In x (float_first_allowed risk_scores thr (seen ++ [x])
                                (pre ++ x :: post)))
            by (rewrite E2; apply in_or_app; right; now left).
          apply float_first_allowed_sound in Hin. destruct Hin as (_ & _ & Hns).
          apply Hns. apply in_or_app. right. now left. }
        exists (x :: pre), post. split; [reflexivity|].
        split; [intros [E|Hin]; [now apply Hax | now apply Hn]|].
        split.
        -- intros b [<-|Hin] Hb; [right; now left|].
           destruct (Hpre b Hin Hb) as [Hs|Hc]; [|right; now right].
           apply in_app_or in Hs. destruct Hs as [Hs|[<-|[]]]; [now left | right; now left].
        -- intros b Hin Hb. destruct (Hpost b Hin Hb) as [Hs|Hc]; [|right; now right].
           apply in_app_or in Hs. destruct Hs as [Hs|[<-|[]]]; [now left | right; now left].
    + intros E. destruct (IH _ _ E) as (pre & post & -> & Hn & Hpre & Hpost).
      assert (Hin : In a (float_first_allowed risk_scores thr seen (pre ++ a :: post)))
        by (rewrite E; apply in_or_app; right; now left).
      apply float_first_allowed_sound in Hin. destruct Hin as (_ & Hal & Hns).
      assert (Hax : a <> x).
      { intros ->. apply andb_false_iff in Ex. destruct Ex as [Ex|Ex].
        - congruence.
        - apply negb_false_iff in Ex. apply existsb_eqb_In in Ex. contradiction. }
      exists (x :: pre), post. split; [reflexivity|].
      split; [intros [E'|Hin]; [now apply Hax | now apply Hn]|].
      split; [|exact Hpost].
      intros b [<-|Hin] Hb; [|now apply Hpre].
      left. apply andb_false_iff in Ex. destruct Ex as [Ex|Ex].
      * congruence.
      * apply negb_false_iff in Ex. now apply existsb_eqb_In.
Qed.

(** [max] over scores none of which is NaN: either the running best is
    kept and no item compares greater, or the items split at the result. *)
Lemma float_max_by_score_split (items : list (string * float)) (best : string * float) :
  (forall e, In e items -> is_nan (snd e) = false) ->
  (max_by_score best items = best
   /\ forall e, In e items -> float_gt (snd e) (snd best) = false)
  \/ (exists i1 i2,
        items = (i1 ++ max_by_score best items :: i2)%list
        /\ float_gt (snd (max_by_score best items)) (snd best) = true
        /\ (forall e, In e i1 -> float_gt (snd (max_by_score best items)) (snd e) = true)
        /\ (forall e, In e i2 -> float_gt (snd e) (snd (max_by_score best items)) = false)).
Proof.
  revert best. induction items as [|x rest IH]; intros best Hnan; simpl.
  - left. split; [reflexivity | intros e []].
  - assert (Hrest : forall e, In e rest -> is_nan (snd e) = false)
      by (intros e He; apply Hnan; now right).
    destruct (float_gt (snd x) (snd best)) eqn:Ex.
    + right.
      destruct (IH x Hrest) as [[Er Hle] | (i1 & i2 & Er & Hlt & H1 & H2)].
      * rewrite Er. exists [], rest. split; [reflexivity|]. split; [exact Ex|].
        split; [intros e [] | exact Hle].
      * exists (x :: i1), i2. split; [simpl; now rewrite <- Er|].
        split; [exact (float_ltb_trans _ _ _ Ex Hlt)|].
        split; [|exact H2]. intros e [<-|Hin]; [exact Hlt | now apply H1].
    + destruct (IH best Hrest) as [[Er Hle] | (i1 & i2 & Er & Hlt & H1 & H2)].
      * left. split; [exact Er|]. intros e [<-|Hin]; [exact Ex | now apply Hle].
      * right. exists (x :: i1), i2. split; [simpl; now rewrite <- Er|].
        split; [exact Hlt|]. split; [|exact H2].
        intros e [<-|Hin]; [|now apply H1].
        apply (float_ltb_le_trans (snd best)); [apply Hnan; now left | exact Ex | exact Hlt].
Qed.

Lemma float_max_by_score_first (x : string * float) (items : list (string * float)) :
  (forall e, In e items -> is_nan (snd e) = false) ->
  exists d1 d2,
    x :: items = (d1 ++ max_by_score x items :: d2)%list
    /\ (forall e, In e d1 -> float_gt (snd (max_by_score x items)) (snd e) = true)
    /\ (forall e, In e d2 -> float_gt (snd e) (snd (max_by_score x items)) = false).
Proof.
  intros Hnan.
  destruct (float_max_by_score_split items x Hnan)
    as [[Er Hle] | (i1 & i2 & Er & Hlt & H1 & H2)].
  - exists [], items. rewrite Er. split; [reflexivity|]. split; [intros e [] | exact Hle].
  - exists (x :: i1), i2. split; [simpl; now rewrite <- Er|].
    split; [|exact H2]. intros e [<-|Hin]; [exact Hlt | now apply H1].
Qed.

Lemma float_scored_first_argmax (thr : float) (available_actions : list string)
    (x : string * float) (items : list (string * float)) :
  (forall b, In b available_actions -> is_nan (score b) = false) ->
  score_actions available_actions action_history risk_scores thr [] = x :: items ->
  float_first_argmax score (float_allowedb risk_scores thr) available_actions (fst (max_by_score x items)).
Proof.
  intros Hnan Hs. rewrite float_score_actions_entries in Hs.
  assert (Hitems : forall e, In e items -> is_nan (snd e) = false).
  { intros e He.
    assert (Hin : In e (map entry (float_first_allowed risk_scores thr [] available_actions)))
      by (rewrite Hs; now right).
    apply in_map_iff in Hin. destruct Hin as (b & <- & Hb).
    apply float_first_allowed_sound in Hb. simpl. apply Hnan. tauto. }
  destruct (float_max_by_score_first x items Hitems) as (d1 & d2 & Ed & H1 & H2).
  rewrite <- Hs in Ed.
  apply map_eq_app in Ed. destruct Ed as (c1 & c2' & Ec & E1 & E2).
  apply map_eq_cons in E2. destruct E2 as (a & c2 & -> & Ea & E2).
  rewrite <- Ea in *. simpl fst. simpl snd in H1, H2.
  assert (Hin : In a (float_first_allowed risk_scores thr [] available_actions))
    by (rewrite Ec; apply in_or_app; right; now left).
  destruct (float_first_allowed_sound _ _ _ _ Hin) as (_ & Hal & _).
  split; [exact Hal|].
  destruct (float_first_allowed_split _ _ _ _ _ _ Ec) as (pre & post & -> & _ & Hpre & Hpost).
  exists pre, post. split; [reflexivity|]. split.
  - intros b Hb Hab. destruct (Hpre b Hb Hab) as [[]|Hc].
    apply (H1 (entry b)). rewrite <- E1. now apply in_map.
  - intros b Hb Hab. destruct (Hpost b Hb Hab) as [[]|Hc].
    apply in_app_or in Hc. destruct Hc as [Hc|[<-|Hc]].
    + apply float_ltb_asym. apply (H1 (entry b)). rewrite <- E1. now apply in_map.
    + apply float_ltb_irrefl.
    + apply (H2 (entry b)). rewrite <- E2. now apply in_map.
Qed.

Lemma float_scores_empty_iff (thr : float) (available_actions : list string) :
  score_actions available_actions action_history risk_scores thr [] = []
  <-> existsb (float_allowedb risk_scores thr) available_actions = false.
Proof.
  rewrite float_score_actions_entries. split.
  - intros E. destruct (existsb _ _) eqn:Ee; [|reflexivity].
    apply existsb_exists in Ee. destruct Ee as (b & Hin & Hb).
    destruct (float_first_allowed_complete thr available_actions [] b Hin Hb) as [[]|Hf].
    destruct (float_first_allowed risk_scores thr [] available_actions);
      [contradiction | discriminate].
  - intros E.
    destruct (float_first_allowed risk_scores thr [] available_actions) as [|b l] eqn:Ef;
      [reflexivity|].
    assert (Hin : In b (float_first_allowed risk_scores thr [] available_actions))
      by (rewrite Ef; now left).
    destruct (float_first_allowed_sound _ _ _ _ Hin) as (H1 & H2 & _).
    assert (Ht : existsb (float_allowedb risk_scores thr) available_actions = true)
      by (apply existsb_exists; eauto).
    congruence.
Qed.

Lemma float_select_step (depth : nat) (thr : float) (available_actions : list string) :
  available_actions <> [] ->
  select_action_by_coverage (S depth) available_actions action_history risk_scores thr
  = match score_actions available_actions action_history risk_scores thr [] with
    | [] => select_action_by_coverage depth available_actions action_history risk_scores 1.0
    | x :: items => Ok (Some (fst (max_by_score x items)))
    end.
Proof. destruct available_actions; [contradiction | reflexivity]. Qed.

Lemma float_select_relaxed_stuck (depth : nat) (available_actions : list string) :
  available_actions <> [] ->
  score_actions available_actions action_history risk_scores 1.0 [] = [] ->
  select_action_by_coverage depth available_actions action_history risk_scores 1.0
  = Raise RecursionError.
Proof.
  intros Hne Hs. induction depth as [|depth IH]; [reflexivity|].
  rewrite float_select_step by exact Hne. now rewrite Hs.
Qed.

Lemma float_select_two_frames (depth : nat) (thr : float) (available_actions : list string) :
  select_action_by_coverage (S (S depth)) available_actions action_history risk_scores thr
  = select_action_by_coverage 2 available_actions action_history risk_scores thr.
Proof.
  destruct available_actions as [|a0 rest]; [reflexivity|].
  rewrite !(float_select_step _ thr) by discriminate.
  destruct (score_actions (a0 :: rest) action_history risk_scores thr []); [|reflexivity].
  destruct (score_actions (a0 :: rest) action_history risk_scores 1.0 []) eqn:E1.
  - now rewrite !float_select_relaxed_stuck.
  - rewrite !float_select_step by discriminate. now rewrite E1.
Qed.

Lemma float_select_first_argmax (depth : nat) (thr : float) (available_actions : list string)
    (a : string) :
  (forall b, In b available_actions -> is_nan (score b) = false) ->
  select_action_by_coverage (S (S depth)) available_actions action_history risk_scores thr
  = Ok (Some a) ->
  float_first_argmax score
    (float_allowedb risk_scores (float_effective_threshold available_actions risk_scores thr))
    available_actions a.
Proof.
  intros Hnan.
  destruct available_actions as [|a0 rest]; [discriminate|].
  rewrite float_select_step by discriminate. unfold float_effective_threshold.
  destruct (score_actions (a0 :: rest) action_history risk_scores thr []) as [|x items] eqn:Es.
  - rewrite (proj1 (float_scores_empty_iff thr (a0 :: rest)) Es).
    rewrite float_select_step by discriminate.
    destruct (score_actions (a0 :: rest) action_history risk_scores 1.0 [])
      as [|x items] eqn:E1.
    + now rewrite float_select_relaxed_stuck.
    + intros E. injection E as <-. now apply float_scored_first_argmax.
  - destruct (existsb _ _) eqn:Ee.
    + intros E. injection E as <-. now apply float_scored_first_argmax.
    + apply float_scores_empty_iff in Ee. congruence.
Qed.

Lemma float_select_returns (depth : nat) (thr : float) (available_actions : list string) :
  (exists b, In b available_actions
             /\ float_allowedb risk_scores
                  (float_effective_threshold available_actions risk_scores thr) b = true) ->
  exists a,
    select_action_by_coverage (S (S depth)) available_actions action_history risk_scores thr
    = Ok (Some a).
Proof.
  intros (b & Hin & Hal).
  assert (Hne : available_actions <> []) by (intros ->; destruct Hin).
  rewrite float_select_step by exact Hne. unfold float_effective_threshold in Hal.
  destruct (score_actions available_actions action_history risk_scores thr [])
    as [|x items] eqn:Es; [|eauto].
  rewrite (proj1 (float_scores_empty_iff thr available_actions) Es) in Hal.
  rewrite float_select_step by exact Hne.
  destruct (score_actions available_actions action_history risk_scores 1.0 [])
    as [|x items] eqn:E1; [|eauto].
  apply float_scores_empty_iff in E1.
  assert (Ht : existsb (float_allowedb risk_scores 1.0) available_actions = true)
    by (apply existsb_exists; eauto).
  congruence.
Qed.

End FloatSelection.

Section FloatSelectionTheorem.
Import ExplorationFloat.

Lemma float_coverage_score_cases (a : string) (action_history : list string) :
  let n := py_count a action_history in
  (n = 0%nat -> calculate_action_coverage_score a action_history = 1.0%float)
  /\ (n = 1%nat -> calculate_action_coverage_score a action_history = 0.5%float)
  /\ ((2 <= n)%nat ->
      calculate_action_coverage_score a action_history
      = (1.0 / float_of_Z (Z.of_nat n + 1))%float).
Proof.
  intros n. unfold calculate_action_coverage_score. fold n.
  split; [|split].
  - intros ->. reflexivity.
  - intros ->. reflexivity.
  - intros Hn. destruct n as [|[|m]]; [lia | lia | reflexivity].
Qed.

(** C6, on the floats of the machine.  When no computed score is NaN,
    the action that the selection returns is allowed by the threshold in
    force (the given one, or 1.0 when the given one excludes every offered
    action), every allowed action offered before its first occurrence has
    a computed score that compares smaller, and no allowed action offered
    after it has one that compares greater; an action is returned as soon
    as some offered action is allowed, and the result does not depend on
    the recursion depth left.  The computed score is
    [coverage * 0.7 + (1.0 - risk) * 0.3], each operation rounded, with
    coverage 1.0, 0.5 and the rounded [1.0 / (n + 1)] for 0, 1 and
    [n >= 2] executions, and risk 0.5 for an action without stored score. *)
Theorem selection_is_first_argmax (available_actions action_history : list string)
    (risk_scores : gmap string float) (thr : float) (depth : nat) :
  let eff := float_effective_threshold available_actions risk_scores thr in
  let score b := combined_score b action_history risk_scores in
  let select d :=
    select_action_by_coverage d available_actions action_history risk_scores thr in
  ((forall b, In b available_actions -> is_nan (score b) = false) ->
   forall a, select (S (S depth)) = Ok (Some a) ->
             float_first_argmax score (float_allowedb risk_scores eff) available_actions a)
  /\ ((exists b, In b available_actions /\ float_allowedb risk_scores eff b = true) ->
      exists a, select (S (S depth)) = Ok (Some a))
  /\ (forall depth', select (S (S depth')) = select (S (S depth)))
  /\ (forall a,
        score a
        = (calculate_action_coverage_score a action_history * 0.7
           + (1.0 - float_stored_risk risk_scores a) * 0.3)%float)
  /\ (forall a,
        let n := py_count a action_history in
        (n = 0%nat -> calculate_action_coverage_score a action_history = 1.0%float)
        /\ (n = 1%nat -> calculate_action_coverage_score a action_history = 0.5%float)
        /\ ((2 <= n)%nat ->
            calculate_action_coverage_score a action_history
            = (1.0 / float_of_Z (Z.of_nat n + 1))%float))
  /\ (forall a, risk_scores !! a = None -> float_stored_risk risk_scores a = 0.5%float).
Proof.
  intros eff score select. subst eff score select. cbv beta.
  split; [intros Hnan a; now apply float_select_first_argmax|].
  split; [apply float_select_returns|].
  split; [intros depth'; now rewrite float_select_two_frames,
                                       (float_select_two_frames _ _ depth)|].
  split; [reflexivity|].
  split; [intros a; apply float_coverage_score_cases|].
  intros a E. unfold float_stored_risk. now rewrite E.
Qed.

End FloatSelectionTheorem.

Lemma selection_is_first_argmax_witness :
  (forall b, In b tied_offer ->
             is_nan (ExplorationFloat.combined_score b tied_history tied_risks) = false)
  /\ ExplorationFloat.select_action_by_coverage 2 tied_offer tied_history tied_risks 0.9
     = Ok (Some "b")
  /\ float_first_argmax (fun b => ExplorationFloat.combined_score b tied_history tied_risks)
       (float_allowedb tied_risks (float_effective_threshold tied_offer tied_risks 0.9))
       tied_offer "b".
Proof.
  assert (Hnan : forall b, In b tied_offer ->
             is_nan (ExplorationFloat.combined_score b tied_history tied_risks) = false).
  { intros b [<-|[<-|[]]]; vm_compute; reflexivity. }
  assert (Hsel : ExplorationFloat.select_action_by_coverage 2 tied_offer tied_history
                   tied_risks 0.9 = Ok (Some "b")) by (vm_compute; reflexivity).
  split; [exact Hnan|]. split; [exact Hsel|].
  exact (proj1 (selection_is_first_argmax tied_offer tied_history tied_risks 0.9 0)
           Hnan "b" Hsel).
Defined.

(** C6, as stated, fails: ties of the combined score are not broken by
    the first occurrence.  The two offered actions have the same score
    13/40 as real numbers, so that the first offered would be selected; the
    scores that the machine computes are 0.32499999999999996 for the first
    and 0.325 for the second, and the second is selected. *)
Lemma tie_decided_by_rounding :
  let exact_score b := Exploration.combined_score b tied_history tied_risks_exact in
  ((float_value 0.0625 == 0.0625)%Q /\ (float_value 0.5 == 0.5)%Q)
  /\ ((exact_score "a" == 13 # 40)%Q /\ (exact_score "b" == 13 # 40)%Q)
  /\ Exploration.select_action_by_coverage 2 tied_offer tied_history tied_risks_exact 0.9
     = Ok (Some "a")
  /\ (ExplorationFloat.combined_score "a" tied_history tied_risks
      = 0.32499999999999996%float
      /\ ExplorationFloat.combined_score "b" tied_history tied_risks = 0.325%float)
  /\ ExplorationFloat.select_action_by_coverage 2 tied_offer tied_history tied_risks 0.9
     = Ok (Some "b")
  /\ ~ first_argmax exact_score (allowed tied_risks_exact 0.9) tied_offer "b".
Proof.
  intros exact_score.
  split; [split; vm_compute; reflexivity|].
  split; [split; vm_compute; reflexivity|].
  split; [vm_compute; reflexivity|].
  split; [split; vm_compute; reflexivity|].
  split; [vm_compute; reflexivity|].
  intros (_ & pre & post & E & Hpre & _).
  destruct pre as [|p [|q pre]]; simpl in E.
  - discriminate E.
  - injection E as <- _.
    assert (Hal : allowed tied_risks_exact 0.9 "a") by (vm_compute; discriminate).
    specialize (Hpre "a" (or_introl eq_refl) Hal).
    vm_compute in Hpre. discriminate Hpre.
  - injection E as _ _ E. destruct pre; discriminate E.
Qed.

(** ** The never-invent property *)

Section PlannerFacts.
Context {Observation : Type}.

(** The contract names the offered action that was selected, without its
    surrounding whitespace. *)
Lemma plan_next_action_stripped (state state' : AgentState Observation)
    (c : Contract.ActionContract) :
  ActionPlanner.plan_next_action state = Ok (state', Some c) ->
  exists a, In a (available_actions (ui_state state)) /\ Contract.action_id c = strip a.
Proof.
  unfold ActionPlanner.plan_next_action. intros Hp.
  destruct (available_actions (ui_state state)) as [|a0 rest] eqn:Ea; [discriminate|].
  apply exc_bind_ok in Hp. destruct Hp as (sel & Hsel & Hp).
  destruct (negb (opt_truthy sel)); [discriminate|].
  destruct sel as [a|]; [|discriminate].
  apply exc_bind_ok in Hp. destruct Hp as (c' & Hc & Hp).
  injection Hp as _ ->.
  exists a. split.
  - unfold recursion_limit in Hsel.
    eapply first_argmax_In. apply (select_first_argmax _ _ _ _ _ _ Hsel).
  - now apply (construct_ok a []).
Qed.

(** When no offered identifier has surrounding whitespace, the planner
    names an offered action. *)
Lemma plan_next_action_offered (state state' : AgentState Observation)
    (c : Contract.ActionContract) :
  (forall a, In a (available_actions (ui_state state)) -> strip a = a) ->
  ActionPlanner.plan_next_action state = Ok (state', Some c) ->
  In (Contract.action_id c) (available_actions (ui_state state)).
Proof.
  intros Hclean Hp.
  destruct (plan_next_action_stripped _ _ _ Hp) as (a & Hin & ->).
  now rewrite (Hclean a Hin).
Qed.

End PlannerFacts.

(** C1, on the code.  The driver offers ["click_submit "]; the cycle
    completes and sets [decision.next_action] to a contract for
    ["click_submit"], which is not in the offered set. *)
Theorem padded_offer_invents_action :
  exists (state' : AgentState unit) (c : Contract.ActionContract),
    Graph.run_reasoning_cycle padded_offer_state = Ok state'
    /\ next_action (decision state') = Some c
    /\ Contract.action_id c = "click_submit"
    /\ available_actions (ui_state state') = ["click_submit "]
    /\ ~ In (Contract.action_id c) (available_actions (ui_state state')).
Proof.
  eexists _, _. split; [vm_compute; reflexivity|].
  split; [reflexivity|]. split; [reflexivity|]. split; [reflexivity|].
  simpl. intros [E|[]]. discriminate E.
Qed.

(** A cycle that terminates at the router leaves the [next_action] of
    the cycle before in the decision. *)
Example terminate_keeps_previous_action :
  exists state' : AgentState unit,
    Graph.run_reasoning_cycle finished_state = Ok state'
    /\ control (decision state') = TERMINATE
    /\ next_action (decision state') = next_action (decision finished_state)
    /\ available_actions (ui_state state') = [].
Proof.
  eexists. split; [vm_compute; reflexivity|]. repeat split.
Qed.

(** * Further properties *)

(** ** The termination rules of the router *)

Section TerminationRules.
Context {Observation : Type}.

Lemma count_high_skipn (k : nat) (l : list AnomalyReport) :
  (Router.count_high (skipn k l) <= Router.count_high l)%nat.
Proof.
  unfold Router.count_high.
  rewrite <- (firstn_skipn k l) at 2. rewrite List.filter_app, length_app. lia.
Qed.

Lemma count_high_all (l : list AnomalyReport) :
  forallb Router.is_high l = true -> Router.count_high l = length l.
Proof.
  unfold Router.count_high. induction l as [|a l IH]; simpl; [reflexivity|].
  intros Hall. apply andb_true_iff in Hall. destruct Hall as [Ha Hl].
  rewrite Ha. simpl. now rewrite IH.
Qed.

Lemma slice_last_length {A : Type} (n : nat) (l : list A) :
  (n <= length l)%nat -> (0 < n)%nat -> length (slice_last n l) = n.
Proof.
  intros Hle Hpos. unfold slice_last. destruct n; [lia|].
  rewrite length_skipn. lia.
Qed.

Lemma high_ratio_spec (h n : nat) :
  (0 < n)%nat ->
  Qgt_bool (inject_Z (Z.of_nat h) / inject_Z (Z.of_nat n)) 0.5 = true
  <-> (n < 2 * h)%nat.
Proof.
  intros Hn. unfold Qgt_bool. rewrite Qlt_bool_iff.
  assert (Hpos : (0 < inject_Z (Z.of_nat n))%Q).
  { change 0%Q with (inject_Z 0). rewrite <- Zlt_Qlt. lia. }
  assert (Hdouble : (n < 2 * h)%nat
                    <-> (inject_Z (Z.of_nat n) < 2 * inject_Z (Z.of_nat h))%Q).
  { change 2%Q with (inject_Z 2). rewrite <- inject_Z_mult, <- Zlt_Qlt. lia. }
  rewrite Hdouble. split.
  - intros Hlt.
    apply (Qmult_lt_r _ _ _ Hpos) in Hlt.
    assert (E : (inject_Z (Z.of_nat h) / inject_Z (Z.of_nat n) * inject_Z (Z.of_nat n)
                 == inject_Z (Z.of_nat h))%Q).
    { field. intros E0. rewrite E0 in Hpos. now apply Qlt_irrefl in Hpos. }
    rewrite E in Hlt. lra.
  - intros Hlt. apply Qlt_shift_div_l; [exact Hpos | lra].
Qed.

(** The test of the last three anomalies cannot succeed once the count
    among the last five has been found below three. *)
Lemma consecutive_rule_subsumed (l : list AnomalyReport) :
  (Router.count_high (if (5 <=? length l)%nat then slice_last 5 l else l) < 3)%nat ->
  (length (if (3 <=? length l)%nat then slice_last 3 l else []) =? 3)%nat
  && forallb Router.is_high (if (3 <=? length l)%nat then slice_last 3 l else []) = false.
Proof.
  intros Hlow.
  destruct (Nat.leb_spec 3 (length l)) as [H3|_]; [|reflexivity].
  destruct (forallb Router.is_high (slice_last 3 l)) eqn:Ef; [|apply andb_false_r].
  exfalso.
  pose proof (count_high_all _ Ef) as Hc.
  rewrite (slice_last_length 3 l) in Hc by lia.
  assert (Hle : (Router.count_high (slice_last 3 l)
                 <= Router.count_high (if (5 <=? length l)%nat then slice_last 5 l else l))%nat).
  { unfold slice_last at 1.
    destruct (Nat.leb_spec 5 (length l)) as [H5|H5].
    - unfold slice_last.
      replace (length l - 3)%nat with (2 + (length l - 5))%nat by lia.
      rewrite <- skipn_skipn. apply count_high_skipn.
    - apply count_high_skipn. }
  lia.
Qed.

(** X1. [should_terminate] holds exactly when nothing is offered, or the
    step limit is reached, or at least three of the last five anomalies are
    HIGH, or the log has more than twenty entries of which more than half
    are HIGH.  Its test of three consecutive HIGH anomalies never decides:
    the reason it would give is never returned. *)
Theorem should_terminate_rules (state : AgentState Observation) :
  (fst (Router.should_terminate state) = true
   <-> available_actions (ui_state state) = []
       \/ (max_steps (execution_context state) <= step_count (execution_context state))%Z
       \/ (3 <= Router.count_high
                  (if (5 <=? length (anomalies state))%nat
                   then slice_last 5 (anomalies state) else anomalies state))%nat
       \/ ((20 < length (anomalies state))%nat
           /\ (length (anomalies state) < 2 * Router.count_high (anomalies state))%nat))
  /\ snd (Router.should_terminate state)
     <> Text "Three consecutive high-severity anomalies detected".
Proof.
  unfold Router.should_terminate.
  destruct (available_actions (ui_state state)) as [|a0 rest].
  { split; [split; [intros _; now left | reflexivity] | discriminate]. }
  destruct (Z.leb_spec (max_steps (execution_context state))
              (step_count (execution_context state))) as [Hs|Hs].
  { split; [split; [intros _; right; now left | reflexivity] | discriminate]. }
  destruct (Nat.leb_spec 3
              (Router.count_high
                 (if (5 <=? length (anomalies state))%nat
                  then slice_last 5 (anomalies state) else anomalies state))) as [Hh|Hh].
  { split; [split; [intros _; right; right; now left | reflexivity] | discriminate]. }
  rewrite (consecutive_rule_subsumed _ Hh).
  destruct (Nat.ltb_spec 20 (length (anomalies state))) as [H20|H20]; simpl andb.
  - pose proof (high_ratio_spec (Router.count_high (anomalies state))
                  (length (anomalies state)) ltac:(lia)) as Hr.
    destruct (Qgt_bool _ 0.5) eqn:Eg.
    + split; [|discriminate]. split; [|reflexivity].
      intros _. right; right; right. split; [exact H20 | now apply Hr].
    + split; [|discriminate]. split; [discriminate|].
      intros [E|[E|[E|[_ E]]]]; [discriminate | lia | lia |].
      apply Hr in E. discriminate E.
  - split; [|discriminate]. split; [discriminate|].
    intros [E|[E|[E|[E _]]]]; [discriminate | lia | lia | lia].
Qed.

End TerminationRules.

(** ** The routing decision *)

Section RoutingDecision.
Context {Observation : Type}.

Lemma make_routing_decision_terminate (state : AgentState Observation) :
  snd (Router.make_routing_decision state) = TERMINATE
  <-> fst (Router.should_terminate state) = true.
Proof.
  unfold Router.make_routing_decision.
  destruct (Router.should_terminate state) as [[|] r]; simpl.
  - split; reflexivity.
  - destruct (Router.should_deep_test state) as [[|] r']; simpl; split; discriminate.
Qed.

Lemma should_terminate_false (state : AgentState Observation) :
  fst (Router.should_terminate state) = false ->
  available_actions (ui_state state) <> []
  /\ (step_count (execution_context state) < max_steps (execution_context state))%Z.
Proof.
  unfold Router.should_terminate.
  destruct (available_actions (ui_state state)) as [|a0 rest]; [discriminate|].
  destruct (Z.leb_spec (max_steps (execution_context state))
              (step_count (execution_context state))) as [Hs|Hs]; [discriminate|].
  intros _. split; [discriminate | exact Hs].
Qed.

Lemma is_regression_spec (a : AnomalyReport) :
  Router.is_regression a = true <-> category a = REGRESSION.
Proof.
  unfold Router.is_regression. destruct (category a); simpl; split;
    reflexivity || discriminate.
Qed.

Lemma is_medium_spec (a : AnomalyReport) :
  Router.is_medium a = true <-> severity a = MEDIUM.
Proof.
  unfold Router.is_medium. destruct (severity a); simpl; split;
    reflexivity || discriminate.
Qed.

(** X2. The router decides DEEP_TEST exactly when [should_terminate]
    fails and either one of the last three anomalies (of all, when there
    are fewer) is MEDIUM or a REGRESSION, or the stored risk of the action
    executed last exceeds 0.75; an action executed last that has no stored
    score never counts, its risk being taken as 0.5. *)
Theorem deep_test_decision (state : AgentState Observation) :
  let recent :=
    if (3 <=? length (anomalies state))%nat
    then slice_last 3 (anomalies state) else anomalies state in
  (snd (Router.make_routing_decision state) = DEEP_TEST
   <-> fst (Router.should_terminate state) = false
       /\ ((exists a, In a recent /\ (severity a = MEDIUM \/ category a = REGRESSION))
           \/ exists last_action r,
                last_or_none (action_history (execution_context state)) = Some last_action
                /\ risk_scores (knowledge state) !! last_action = Some r
                /\ (0.75 < r)%Q)).
Proof.
  intros recent. unfold Router.make_routing_decision.
  destruct (Router.should_terminate state) as [[|] r0]; simpl.
  { split; [discriminate | intros [E _]; discriminate E]. }
  unfold Router.should_deep_test. fold recent.
  destruct (existsb Router.is_medium recent) eqn:Em; simpl.
  { split; [|reflexivity]. intros _. split; [reflexivity|]. left.
    apply existsb_exists in Em. destruct Em as (a & Hin & Ha).
    exists a. split; [exact Hin|]. left. now apply is_medium_spec. }
  destruct (existsb Router.is_regression recent) eqn:Er; simpl.
  { split; [|reflexivity]. intros _. split; [reflexivity|]. left.
    apply existsb_exists in Er. destruct Er as (a & Hin & Ha).
    exists a. split; [exact Hin|]. right. now apply is_regression_spec. }
  assert (Hnone : ~ exists a, In a recent /\ (severity a = MEDIUM \/ category a = REGRESSION)).
  { intros (a & Hin & [Ha|Ha]).
    - assert (Et : existsb Router.is_medium recent = true)
        by (apply existsb_exists; exists a; split; [exact Hin | now apply is_medium_spec]).
      congruence.
    - assert (Et : existsb Router.is_regression recent = true)
        by (apply existsb_exists; exists a; split; [exact Hin | now apply is_regression_spec]).
      congruence. }
  destruct (last_or_none (action_history (execution_context state))) as [la|]; simpl.
  - destruct (risk_scores (knowledge state) !! la) as [r|] eqn:El; simpl.
    + destruct (Qgt_bool r 0.75) eqn:Eg; simpl.
      * split; [|reflexivity]. intros _. split; [reflexivity|]. right.
        exists la, r. split; [reflexivity|]. split; [exact El|].
        now apply Qlt_bool_iff.
      * split; [discriminate|]. intros [_ [Hex | (la' & r' & E1 & E2 & Hlt)]];
          [now destruct Hnone|].
        injection E1 as <-. rewrite El in E2. injection E2 as <-.
        apply Qlt_bool_iff in Hlt. unfold Qgt_bool in Eg. congruence.
    + change (Qgt_bool 0.5 0.75) with false. simpl.
      split; [discriminate|]. intros [_ [Hex | (la' & r' & E1 & E2 & Hlt)]];
        [now destruct Hnone|].
      injection E1 as <-. rewrite El in E2. discriminate E2.
  - split; [discriminate|]. intros [_ [Hex | (la' & r' & E1 & _)]];
      [now destruct Hnone | discriminate E1].
Qed.

End RoutingDecision.

(** ** What a completed cycle has and has not written *)

Section CycleOutcome.
Context {Observation : Type} `{ObservationModel Observation} `{FloatRuntime}.

Lemma anomaly_detector_node_inv (state state' : AgentState Observation) :
  AnomalyDetector.anomaly_detector_node state = Ok state' ->
  exists b found,
    AnomalyDetector.detect_anomalies state = Ok (set_baselines state b, found)
    /\ state' = set_anomalies (set_baselines state b) (anomalies state ++ found)%list.
Proof.
  unfold AnomalyDetector.anomaly_detector_node. intros Hn.
  apply exc_bind_ok in Hn. destruct Hn as ([s1 found] & Hd & Hn).
  destruct (detect_anomalies_frame _ _ _ Hd) as [b ->].
  exists b, found. split; [exact Hd|]. now injection Hn as <-.
Qed.

Lemma action_planner_node_control (state state' : AgentState Observation) :
  ActionPlanner.action_planner_node state = Ok state' ->
  control (decision state') = control (decision state).
Proof.
  unfold ActionPlanner.action_planner_node. intros Hn.
  apply exc_bind_ok in Hn. destruct Hn as ([s1 c] & Hp & Hn).
  destruct (plan_next_action_frame _ _ _ Hp) as [-> | ->];
    destruct c as [c|]; injection Hn as <-; reflexivity.
Qed.

(** The control of a completed cycle is the one the router wrote. *)
Lemma cycle_control (state state' : AgentState Observation) :
  Graph.run_reasoning_cycle state = Ok state' ->
  exists s1 : AgentState Observation,
    AnomalyDetector.anomaly_detector_node state = Ok s1
    /\ control (decision state') = control (decision (Router.router_node s1)).
Proof.
  intros Hc. destruct (run_reasoning_cycle_inv _ _ Hc) as (s1 & Hd & Hrest).
  exists s1. split; [exact Hd|].
  destruct Hrest as [[_ ->] | (_ & s3 & Hp & Hl)]; [reflexivity|].
  destruct (learner_node_frame _ _ Hl) as (_ & _ & _ & -> & _).
  now apply action_planner_node_control.
Qed.

(** X3. A completed cycle leaves the UI state and the execution context
    as they were, and its anomaly log is the log it was given followed by
    what the detector found on the given state. *)
Theorem cycle_reads_inputs_and_appends_anomalies (state state' : AgentState Observation) :
  Graph.run_reasoning_cycle state = Ok state' ->
  ui_state state' = ui_state state
  /\ execution_context state' = execution_context state
  /\ exists b found,
       AnomalyDetector.detect_anomalies state = Ok (set_baselines state b, found)
       /\ anomalies state' = (anomalies state ++ found)%list.
Proof.
  intros Hc. destruct (run_reasoning_cycle_inv _ _ Hc) as (s1 & Hd & Hrest).
  destruct (anomaly_detector_node_inv _ _ Hd) as (b & found & Hdet & ->).
  destruct (router_node_frame (set_anomalies (set_baselines state b)
                                 (anomalies state ++ found)%list))
    as (Eu & Ee & _ & Ea & _).
  assert (Hall : ui_state state' = ui_state state
                 /\ execution_context state' = execution_context state
                 /\ anomalies state' = (anomalies state ++ found)%list).
  { destruct Hrest as [[_ ->] | (_ & s3 & Hp & Hl)].
    - rewrite Eu, Ee, Ea. auto.
    - destruct (action_planner_node_frame _ _ Hp) as (s2 & c & Hplan & Eu3 & Ee3 & _ & Ea3 & _).
      destruct (learner_node_frame _ _ Hl) as (Eu4 & Ee4 & _ & _ & Ea4).
      rewrite Eu4, Ee4, Ea4, Eu3, Ee3, Ea3.
      destruct (plan_next_action_frame _ _ _ Hplan) as [-> | ->]; simpl;
        rewrite ?Eu, ?Ee, ?Ea; auto. }
  destruct Hall as (H1 & H2 & H3). split; [exact H1|]. split; [exact H2|].
  exists b, found. auto.
Qed.

(** X4. A completed cycle whose control is TERMINATE has planned nothing:
    the next action and the risk scores are those it was given.  A
    completed cycle with another control was offered at least one action
    and had steps left. *)
Theorem cycle_terminate_or_plan (state state' : AgentState Observation) :
  Graph.run_reasoning_cycle state = Ok state' ->
  (control (decision state') = TERMINATE ->
   next_action (decision state') = next_action (decision state)
   /\ risk_scores (knowledge state') = risk_scores (knowledge state))
  /\ (control (decision state') <> TERMINATE ->
      available_actions (ui_state state) <> []
      /\ (step_count (execution_context state) < max_steps (execution_context state))%Z).
Proof.
  intros Hc. destruct (cycle_control _ _ Hc) as (s1' & Hd' & Ectl).
  destruct (run_reasoning_cycle_inv _ _ Hc) as (s1 & Hd & Hrest).
  rewrite Hd in Hd'. injection Hd' as <-.
  destruct (anomaly_detector_node_frame _ _ Hd) as (Eu & Ee & Er & Edec & _).
  destruct (router_node_frame s1) as (Eu2 & Ee2 & Ek2 & _ & En2).
  split.
  - intros Ht. rewrite Ectl in Ht.
    destruct Hrest as [[_ ->] | (Hne & _)]; [|contradiction].
    rewrite En2, Ek2, Edec, Er. auto.
  - intros Hnt. rewrite Ectl, router_node_control in Hnt.
    assert (Hf : fst (Router.should_terminate s1) = false).
    { destruct (fst (Router.should_terminate s1)) eqn:E; [|reflexivity].
      destruct Hnt. now apply make_routing_decision_terminate. }
    destruct (should_terminate_false _ Hf) as [Hav Hst].
    now rewrite Eu, Ee in *.
Qed.

(** X5. In a completed cycle that does not terminate, the next action,
    when one is set, names an offered action without its surrounding
    whitespace, and is an offered action when no offered identifier has
    surrounding whitespace. *)
Theorem cycle_names_stripped_offer (state state' : AgentState Observation)
    (c : Contract.ActionContract) :
  Graph.run_reasoning_cycle state = Ok state' ->
  control (decision state') <> TERMINATE ->
  next_action (decision state') = Some c ->
  (exists a, In a (available_actions (ui_state state)) /\ Contract.action_id c = strip a)
  /\ ((forall a, In a (available_actions (ui_state state)) -> strip a = a) ->
      In (Contract.action_id c) (available_actions (ui_state state))).
Proof.
  intros Hc Hnt Hnext.
  destruct (cycle_control _ _ Hc) as (s1' & Hd' & Ectl).
  destruct (run_reasoning_cycle_inv _ _ Hc) as (s1 & Hd & Hrest).
  rewrite Hd in Hd'. injection Hd' as <-.
  destruct (anomaly_detector_node_frame _ _ Hd) as (Eu & _).
  destruct (router_node_frame s1) as (Eu2 & _).
  destruct Hrest as [[Ht _] | (_ & s3 & Hp & Hl)]; [rewrite Ectl in Hnt; contradiction|].
  destruct (action_planner_node_frame _ _ Hp) as (s2 & c' & Hplan & _ & _ & _ & _ & En).
  destruct (learner_node_frame _ _ Hl) as (_ & _ & _ & Edec & _).
  rewrite Edec, En in Hnext. subst c'.
  destruct (plan_next_action_stripped _ _ _ Hplan) as (a & Hin & Ea).
  rewrite Eu2, Eu in Hin.
  split; [eauto|]. intros Hclean. rewrite Ea, (Hclean a Hin). exact Hin.
Qed.

End CycleOutcome.

Lemma cycle_reads_inputs_and_appends_anomalies_witness :
  exists state' : AgentState (option string),
    Graph.run_reasoning_cycle stalled_state = Ok state'
    /\ ui_state state' = ui_state stalled_state
    /\ execution_context state' = execution_context stalled_state
    /\ exists b found,
         AnomalyDetector.detect_anomalies stalled_state
         = Ok (set_baselines stalled_state b, found)
         /\ anomalies state' = (anomalies stalled_state ++ found)%list.
Proof.
  destruct (Graph.run_reasoning_cycle stalled_state) as [state'|e] eqn:E;
    [|vm_compute in E; discriminate E].
  exists state'. split; [reflexivity|].
  exact (cycle_reads_inputs_and_appends_anomalies stalled_state state' E).
Defined.

Lemma cycle_terminate_or_plan_witness :
  (exists state' : AgentState unit,
      Graph.run_reasoning_cycle finished_state = Ok state'
      /\ control (decision state') = TERMINATE
      /\ next_action (decision state') = next_action (decision finished_state)
      /\ risk_scores (knowledge state') = risk_scores (knowledge finished_state))
  /\ (exists state' : AgentState unit,
        Graph.run_reasoning_cycle clean_run_state = Ok state'
        /\ control (decision state') <> TERMINATE
        /\ available_actions (ui_state clean_run_state) <> []
        /\ (step_count (execution_context clean_run_state)
            < max_steps (execution_context clean_run_state))%Z).
Proof.
  split.
  - destruct (Graph.run_reasoning_cycle finished_state) as [state'|e] eqn:E;
      [|vm_compute in E; discriminate E].
    exists state'. split; [reflexivity|].
    assert (Hctl : control (decision state') = TERMINATE)
      by (vm_compute in E; injection E as <-; reflexivity).
    split; [exact Hctl|].
    exact (proj1 (cycle_terminate_or_plan finished_state state' E) Hctl).
  - destruct (Graph.run_reasoning_cycle clean_run_state) as [state'|e] eqn:E;
      [|vm_compute in E; discriminate E].
    exists state'. split; [reflexivity|].
    assert (Hctl : control (decision state') <> TERMINATE)
      by (vm_compute in E; injection E as <-; discriminate).
    split; [exact Hctl|].
    exact (proj2 (cycle_terminate_or_plan clean_run_state state' E) Hctl).
Defined.

Lemma cycle_names_stripped_offer_witness :
  exists (state' : AgentState unit) (c : Contract.ActionContract),
    Graph.run_reasoning_cycle clean_run_state = Ok state'
    /\ control (decision state') <> TERMINATE
    /\ next_action (decision state') = Some c
    /\ (exists a, In a (available_actions (ui_state clean_run_state))
                  /\ Contract.action_id c = strip a)
    /\ In (Contract.action_id c) (available_actions (ui_state clean_run_state)).
Proof.
  destruct (Graph.run_reasoning_cycle clean_run_state) as [state'|e] eqn:E;
    [|vm_compute in E; discriminate E].
  assert (Hctl : control (decision state') <> TERMINATE)
    by (vm_compute in E; injection E as <-; discriminate).
  destruct (next_action (decision state')) as [c|] eqn:En;
    [|vm_compute in E; injection E as <-; discriminate En].
  exists state', c. split; [reflexivity|]. split; [exact Hctl|]. split; [exact En|].
  destruct (cycle_names_stripped_offer clean_run_state state' c E Hctl En) as [H1 H2].
  split; [exact H1|]. apply H2.
  intros a [<-|[<-|[]]]; reflexivity.
Defined.

(** ** The range of the risk scores *)

Section RiskRange.
Local Open Scope Q_scope.

Lemma risks_in_range_empty : risks_in_range ∅.
Proof. intros a r E. rewrite lookup_empty in E. discriminate E. Qed.

Lemma risks_in_range_insert (m : gmap string Q) (a : string) (r : Q) :
  0 <= r <= 1 -> risks_in_range m -> risks_in_range (<[a := r]> m).
Proof.
  intros Hr Hm b r'. rewrite lookup_insert. destruct (decide (a = b)) as [->|Hne].
  - intros E. injection E as <-. exact Hr.
  - apply Hm.
Qed.

Lemma stored_risk_range (m : gmap string Q) (a : string) :
  risks_in_range m -> 0 <= stored_risk m a <= 1.
Proof.
  intros Hr. unfold stored_risk. destruct (m !! a) as [r|] eqn:E; simpl.
  - now apply (Hr a).
  - split; discriminate.
Qed.

Lemma update_from_anomaly_range (m : gmap string Q) (an : AnomalyReport) :
  risks_in_range m -> risks_in_range (Risk.update_from_anomaly m an).
Proof.
  intros Hr. unfold Risk.update_from_anomaly.
  destruct (Anomaly.action_id an) as [b|]; [|exact Hr].
  destruct (str_truthy b); [|exact Hr].
  intros a r. rewrite lookup_insert. destruct (decide (b = a)) as [->|Hne].
  - intros E. injection E as <-. apply clamp_range.
  - apply Hr.
Qed.

Lemma update_from_anomaly_grows (m : gmap string Q) (an : AnomalyReport) (a : string) :
  risks_in_range m ->
  stored_risk m a <= stored_risk (Risk.update_from_anomaly m an) a.
Proof.
  intros Hr. unfold Risk.update_from_anomaly.
  destruct (Anomaly.action_id an) as [b|]; [|apply Qle_refl].
  destruct (str_truthy b); [|apply Qle_refl].
  unfold stored_risk at 2. rewrite lookup_insert.
  destruct (decide (b = a)) as [->|Hne]; [|apply Qle_refl].
  simpl. fold (stored_risk m a).
  pose proof (stored_risk_range m a Hr) as Ha.
  rewrite update_risk_score_anomaly; [|exact Ha | unfold Risk.default_learning_rate; lra].
  pose proof (damped_step (stored_risk m a) Risk.default_learning_rate _ Ha
                ltac:(unfold Risk.default_learning_rate; lra)
                (severity_weights_range (severity_value (severity an)))) as Hd.
  lra.
Qed.

Lemma update_from_anomaly_keeps (m : gmap string Q) (an : AnomalyReport) (a : string) :
  is_Some (m !! a) -> is_Some (Risk.update_from_anomaly m an !! a).
Proof.
  intros Hs. unfold Risk.update_from_anomaly.
  destruct (Anomaly.action_id an) as [b|]; [|exact Hs].
  destruct (str_truthy b); [|exact Hs].
  rewrite lookup_insert. destruct (decide (b = a)); [eauto | exact Hs].
Qed.

Lemma fold_update_range (l : list AnomalyReport) (m : gmap string Q) :
  risks_in_range m ->
  risks_in_range (fold_left Risk.update_from_anomaly l m)
  /\ (forall a, stored_risk m a <= stored_risk (fold_left Risk.update_from_anomaly l m) a)
  /\ (forall a, is_Some (m !! a) ->
                is_Some (fold_left Risk.update_from_anomaly l m !! a)).
Proof.
  revert m. induction l as [|an l IH]; intros m Hr; simpl.
  - split; [exact Hr|]. split; [intros a; apply Qle_refl | auto].
  - destruct (IH _ (update_from_anomaly_range m an Hr)) as (H1 & H2 & H3).
    split; [exact H1|]. split.
    + intros a. apply Qle_trans with (stored_risk (Risk.update_from_anomaly m an) a);
        [now apply update_from_anomaly_grows | apply H2].
    + intros a Hs. apply H3. now apply update_from_anomaly_keeps.
Qed.

(** X6. On risk scores within [0,1], [update_risks_from_anomalies]
    returns scores within [0,1], lowers the risk of no action (a missing
    score counting as 0.5) and drops no entry. *)
Theorem update_risks_keeps_range (risks : gmap string Q) (l : list AnomalyReport) (n : nat) :
  risks_in_range risks ->
  risks_in_range (Risk.update_risks_from_anomalies risks l n)
  /\ (forall a, stored_risk risks a
                <= stored_risk (Risk.update_risks_from_anomalies risks l n) a)
  /\ (forall a, is_Some (risks !! a) ->
                is_Some (Risk.update_risks_from_anomalies risks l n !! a)).
Proof. apply fold_update_range. Qed.

(** X7. Under the default learning rate, [k] updates for anomalies of one
    severity take a risk [r] of [0,1] to [1 - (1 - r) * (1 - 0.2 * w) ^ k],
    [w] being the weight of the severity, and [k] updates without anomaly
    take it to [r * 0.9 ^ k]. *)
Theorem repeated_updates_closed_form (a sev : string) (r : Q) (k : nat) :
  0 <= r <= 1 ->
  Nat.iter k (fun x => Risk.update_risk_score a x true sev Risk.default_learning_rate) r
  == 1 - (1 - r) * (1 - 0.2 * Risk.severity_weights sev) ^ Z.of_nat k
  /\ Nat.iter k (fun x => Risk.update_risk_score a x false sev Risk.default_learning_rate) r
     == r * 0.9 ^ Z.of_nat k.
Proof.
  intros Hr.
  assert (Hlr : 0 <= Risk.default_learning_rate <= 1)
    by (unfold Risk.default_learning_rate; lra).
  assert (Hpow : forall x n, x ^ Z.of_nat (S n) == x ^ Z.of_nat n * x).
  { intros x n. rewrite Nat2Z.inj_succ. unfold Z.succ.
    rewrite Qpower_plus' by lia. now rewrite Qpower_1_r. }
  split.
  - induction k as [|k IH]; [simpl; lra|].
    assert (Hin : 0 <= Nat.iter k
                         (fun x => Risk.update_risk_score a x true sev
                                     Risk.default_learning_rate) r <= 1).
    { destruct k; [exact Hr|]. simpl. apply clamp_range. }
    rewrite Nat.iter_succ, update_risk_score_anomaly by assumption.
    rewrite IH, Hpow. unfold Risk.default_learning_rate. ring.
  - induction k as [|k IH]; [simpl; lra|].
    assert (Hin : 0 <= Nat.iter k
                         (fun x => Risk.update_risk_score a x false sev
                                     Risk.default_learning_rate) r <= 1).
    { destruct k; [exact Hr|]. simpl. apply clamp_range. }
    rewrite Nat.iter_succ, update_risk_score_clean by assumption.
    rewrite IH, Hpow. unfold Risk.default_learning_rate. field.
Qed.

End RiskRange.

Lemma update_risks_keeps_range_witness :
  let found := [{| severity := HIGH; category := INVARIANT_VIOLATION;
                   Anomaly.action_id := Some "click_submit" |}] in
  risks_in_range sample_risks
  /\ risks_in_range (Risk.update_risks_from_anomalies sample_risks found 10)
  /\ (forall a, (stored_risk sample_risks a
                 <= stored_risk (Risk.update_risks_from_anomalies sample_risks found 10) a)%Q)
  /\ (forall a, is_Some (sample_risks !! a) ->
                is_Some (Risk.update_risks_from_anomalies sample_risks found 10 !! a)).
Proof.
  intros found.
  assert (Hr : risks_in_range sample_risks).
  { apply risks_in_range_insert; [lra | apply risks_in_range_empty]. }
  split; [exact Hr|].
  exact (update_risks_keeps_range sample_risks found 10 Hr).
Defined.

Lemma repeated_updates_closed_form_witness :
  (0 <= 0.5 <= 1)%Q
  /\ (Nat.iter 3 (fun x => Risk.update_risk_score "click_submit" x true "HIGH"
                             Risk.default_learning_rate) 0.5
      == 1 - (1 - 0.5) * (1 - 0.2 * Risk.severity_weights "HIGH") ^ Z.of_nat 3)%Q
  /\ (Nat.iter 3 (fun x => Risk.update_risk_score "click_submit" x false "HIGH"
                             Risk.default_learning_rate) 0.5
      == 0.5 * 0.9 ^ Z.of_nat 3)%Q.
Proof.
  assert (Hr : (0 <= 0.5 <= 1)%Q) by lra.
  split; [exact Hr|].
  exact (repeated_updates_closed_form "click_submit" "HIGH" 0.5 3 Hr).
Defined.

(** ** The planner on risk scores within range *)

Section PlannerOutcomes.
Context {Observation : Type}.

Lemma select_returns_in_range (available_actions action_history : list string)
    (risk_scores : gmap string Q) (thr : Q) (depth : nat) :
  available_actions <> [] -> risks_in_range risk_scores ->
  exists a,
    In a available_actions
    /\ Exploration.select_action_by_coverage (S (S depth)) available_actions action_history
         risk_scores thr = Ok (Some a).
Proof.
  intros Hne Hr.
  destruct (select_returns action_history risk_scores depth thr available_actions) as [a Ha].
  { unfold effective_threshold.
    destruct (existsb (allowedb risk_scores thr) available_actions) eqn:Ee.
    - apply existsb_exists in Ee. destruct Ee as (b & Hin & Hb).
      exists b. split; [exact Hin | now apply allowedb_spec].
    - destruct available_actions as [|b rest]; [contradiction|].
      exists b. split; [now left|]. unfold allowed.
      pose proof (stored_risk_range risk_scores b Hr). lra. }
  exists a. split; [|exact Ha].
  eapply first_argmax_In. apply (select_first_argmax _ _ _ _ _ _ Ha).
Qed.

Lemma construct_blank (a : string) :
  a <> "" -> blank a ->
  Contract.construct a [] = Raise (ValidationError "action_id cannot be empty").
Proof.
  intros Hne Hb. apply strip_blank in Hb.
  unfold Contract.construct, Contract.action_id_field, Contract.validate_action_id.
  destruct a as [|c a]; [contradiction|].
  change (String.length (String c a) <? 1)%nat with false. cbv iota.
  rewrite Hb. reflexivity.
Qed.

Lemma construct_not_blank (a : string) :
  ~ blank a ->
  Contract.construct a []
  = Ok {| Contract.action_id := strip a; Contract.parameters := [] |}.
Proof.
  intros Hb. unfold Contract.construct, Contract.action_id_field, Contract.validate_action_id.
  destruct a as [|c a]; [destruct Hb; intros c []|].
  change (String.length (String c a) <? 1)%nat with false. cbv iota.
  change (str_truthy (String c a)) with true. simpl negb. simpl orb.
  destruct (str_truthy (strip (String c a))) eqn:Et; [reflexivity|].
  apply str_truthy_false in Et. apply strip_blank in Et. contradiction.
Qed.

(** X8. When the stored risk scores are within [0,1] and something is
    offered, the planner never fails for want of a selection: an offered
    action [a] is selected, and the planner returns no contract when [a] is
    the empty identifier, raises the validation error of the contract when
    [a] is made of whitespace, and otherwise returns the contract of
    [a.strip()] with no parameters; the updated risk scores are written
    back whenever it returns. *)
Theorem planner_outcomes (state : AgentState Observation) :
  risks_in_range (risk_scores (knowledge state)) ->
  available_actions (ui_state state) <> [] ->
  let updated_risks :=
    Risk.update_risks_from_anomalies (risk_scores (knowledge state)) (anomalies state) 10 in
  let written := set_risk_scores state updated_risks in
  exists a,
    In a (available_actions (ui_state state))
    /\ Exploration.select_action_by_coverage recursion_limit (available_actions (ui_state state))
         (action_history (execution_context state)) updated_risks 0.9 = Ok (Some a)
    /\ ((a = "" /\ ActionPlanner.plan_next_action state = Ok (written, None))
        \/ (a <> "" /\ blank a
            /\ ActionPlanner.plan_next_action state
               = Raise (ValidationError "action_id cannot be empty"))
        \/ (~ blank a
            /\ ActionPlanner.plan_next_action state
               = Ok (written,
                     Some {| Contract.action_id := strip a; Contract.parameters := [] |}))).
Proof.
  intros Hr Hne updated_risks written.
  assert (Hur : risks_in_range updated_risks) by (now apply fold_update_range).
  destruct (select_returns_in_range (available_actions (ui_state state))
              (action_history (execution_context state)) updated_risks 0.9 998 Hne Hur)
    as (a & Hin & Hsel).
  change (S (S 998)) with recursion_limit in Hsel.
  exists a. split; [exact Hin|]. split; [exact Hsel|].
  unfold ActionPlanner.plan_next_action.
  destruct (available_actions (ui_state state)) as [|a0 rest] eqn:Ea; [contradiction|].
  fold updated_risks. fold written.
  change (action_history (execution_context written))
    with (action_history (execution_context state)).
  rewrite Hsel. simpl exc_bind. simpl opt_truthy.
  destruct a as [|c a].
  - left. split; reflexivity.
  - right. change (negb (str_truthy (String c a))) with false. cbv iota.
    destruct (string_dec (strip (String c a)) "") as [Eb|Eb].
    + left. apply strip_blank in Eb. split; [discriminate|]. split; [exact Eb|].
      now rewrite construct_blank.
    + right. assert (Hnb : ~ blank (String c a)) by (intros Hb; now apply strip_blank in Hb).
      split; [exact Hnb|]. now rewrite construct_not_blank.
Qed.

End PlannerOutcomes.

Lemma planner_outcomes_witness :
  risks_in_range (risk_scores (knowledge clean_run_state))
  /\ available_actions (ui_state clean_run_state) <> []
  /\ ActionPlanner.plan_next_action clean_run_state
     = Ok (set_risk_scores clean_run_state
             (Risk.update_risks_from_anomalies (risk_scores (knowledge clean_run_state))
                (anomalies clean_run_state) 10),
           Some {| Contract.action_id := "fill_input"; Contract.parameters := [] |}).
Proof.
  assert (Hr : risks_in_range (risk_scores (knowledge clean_run_state))).
  { apply risks_in_range_insert; [lra | apply risks_in_range_empty]. }
  assert (Hne : available_actions (ui_state clean_run_state) <> []) by discriminate.
  split; [exact Hr|]. split; [exact Hne|].
  destruct (planner_outcomes clean_run_state Hr Hne) as (a & _ & Hsel & Hcases).
  assert (Ea : a = "fill_input") by (vm_compute in Hsel; now injection Hsel as <-).
  subst a.
  destruct Hcases as [[E _] | [(_ & Hb & _) | (_ & Hp)]].
  - discriminate E.
  - apply strip_blank in Hb. vm_compute in Hb. discriminate Hb.
  - exact Hp.
Defined.

Section CycleRange.
Context {Observation : Type} `{ObservationModel Observation} `{FloatRuntime}.

(** X9. A completed cycle keeps the stored risk scores within [0,1]
    when they were so. *)
Theorem cycle_keeps_risk_range (state state' : AgentState Observation) :
  Graph.run_reasoning_cycle state = Ok state' ->
  risks_in_range (risk_scores (knowledge state)) ->
  risks_in_range (risk_scores (knowledge state')).
Proof.
  intros Hc Hr.
  destruct (cycle_anomalies_and_risks _ _ Hc) as [-> | ->]; [exact Hr|].
  now apply fold_update_range.
Qed.

End CycleRange.

Lemma cycle_keeps_risk_range_witness :
  exists state' : AgentState unit,
    Graph.run_reasoning_cycle clean_run_state = Ok state'
    /\ risks_in_range (risk_scores (knowledge clean_run_state))
    /\ risks_in_range (risk_scores (knowledge state')).
Proof.
  destruct (Graph.run_reasoning_cycle clean_run_state) as [state'|e] eqn:E;
    [|vm_compute in E; discriminate E].
  assert (Hr : risks_in_range (risk_scores (knowledge clean_run_state))).
  { apply risks_in_range_insert; [lra | apply risks_in_range_empty]. }
  exists state'. split; [reflexivity|]. split; [exact Hr|].
  exact (cycle_keeps_risk_range clean_run_state state' E Hr).
Defined.

(** ** Coverage and exploration *)

Section CoverageFacts.
Import Exploration.
Local Open Scope Q_scope.

Lemma coverage_closed_form (a : string) (action_history : list string) :
  calculate_action_coverage_score a action_history
  == 1 / (inject_Z (Z.of_nat (py_count a action_history)) + 1).
Proof.
  destruct (coverage_score_cases a action_history) as (H0 & H1 & H2).
  destruct (py_count a action_history) as [|[|n]] eqn:E.
  - rewrite H0 by reflexivity. reflexivity.
  - rewrite H1 by reflexivity. reflexivity.
  - apply H2. lia.
Qed.

Lemma py_count_app (a : string) (l1 l2 : list string) :
  py_count a (l1 ++ l2) = (py_count a l1 + py_count a l2)%nat.
Proof. unfold py_count. now rewrite List.filter_app, length_app. Qed.

Lemma py_count_zero (a : string) (l : list string) :
  py_count a l = 0%nat <-> ~ In a l.
Proof.
  unfold py_count. induction l as [|x l IH]; simpl.
  - split; [intros _ [] | reflexivity].
  - destruct (String.eqb_spec a x) as [->|Hne]; simpl.
    + split; [discriminate | intros Hn; destruct Hn; now left].
    + rewrite IH. split.
      * intros Hn [E|Hin]; [now apply Hne | now apply Hn].
      * intros Hn Hin. apply Hn. now right.
Qed.

Lemma py_count_single (a b : string) :
  py_count a [b] = if String.eqb a b then 1%nat else 0%nat.
Proof. unfold py_count. simpl. now destruct (String.eqb a b). Qed.

Lemma successor_at_least (k n : nat) :
  (k <= n + 1)%nat -> inject_Z (Z.of_nat k) <= inject_Z (Z.of_nat n) + 1.
Proof.
  intros Hle.
  assert (E : inject_Z (Z.of_nat n) + 1 == inject_Z (Z.of_nat n + 1))
    by (rewrite inject_Z_plus; reflexivity).
  rewrite E, <- Zle_Qle. lia.
Qed.

Lemma inverse_successor_decreases (n m : nat) :
  (n < m)%nat ->
  1 / (inject_Z (Z.of_nat m) + 1) < 1 / (inject_Z (Z.of_nat n) + 1).
Proof.
  intros Hlt.
  assert (Hn : 0 < inject_Z (Z.of_nat n) + 1).
  { change 1 with (inject_Z 1). rewrite <- inject_Z_plus.
    change 0 with (inject_Z 0). rewrite <- Zlt_Qlt. lia. }
  assert (Hnm : inject_Z (Z.of_nat n) + 1 < inject_Z (Z.of_nat m) + 1).
  { change 1 with (inject_Z 1). rewrite <- !inject_Z_plus, <- Zlt_Qlt. lia. }
  unfold Qdiv. rewrite !Qmult_1_l.
  apply -> Qinv_lt_contravar; [exact Hnm | lra | exact Hn].
Qed.

(** X10. The coverage score is [1 / (n + 1)] for an action executed [n]
    times: it lies in (0,1], each further execution of the action lowers
    it strictly, and the execution of another action leaves it as it is. *)
Theorem coverage_score_decreases (a : string) (action_history : list string) :
  calculate_action_coverage_score a action_history
  == 1 / (inject_Z (Z.of_nat (py_count a action_history)) + 1)
  /\ 0 < calculate_action_coverage_score a action_history <= 1
  /\ calculate_action_coverage_score a (action_history ++ [a])
     < calculate_action_coverage_score a action_history
  /\ (forall b, b <> a ->
        calculate_action_coverage_score a (action_history ++ [b])
        = calculate_action_coverage_score a action_history).
Proof.
  split; [apply coverage_closed_form|]. split; [|split].
  - rewrite coverage_closed_form.
    assert (Hn : 1 <= inject_Z (Z.of_nat (py_count a action_history)) + 1)
      by (apply (successor_at_least 1); lia).
    split.
    + apply Qlt_shift_div_l; lra.
    + apply Qle_shift_div_r; lra.
  - rewrite !coverage_closed_form. apply inverse_successor_decreases.
    rewrite py_count_app, py_count_single, String.eqb_refl. lia.
  - intros b Hne. unfold calculate_action_coverage_score.
    rewrite py_count_app, py_count_single.
    destruct (String.eqb_spec a b) as [E|_]; [now destruct Hne|].
    now rewrite Nat.add_0_r.
Qed.

(** X11. When the stored risk scores are within [0,1] and some offered
    action that the threshold in force allows has never been executed, the
    action that the selection returns has never been executed either. *)
Theorem selection_prefers_unexplored (available_actions action_history : list string)
    (risk_scores : gmap string Q) (thr : Q) (depth : nat) (a : string) :
  risks_in_range risk_scores ->
  select_action_by_coverage (S (S depth)) available_actions action_history risk_scores thr
  = Ok (Some a) ->
  (exists b, In b available_actions
             /\ allowed risk_scores (effective_threshold available_actions risk_scores thr) b
             /\ py_count b action_history = 0%nat) ->
  py_count a action_history = 0%nat.
Proof.
  intros Hr Hsel (b & Hin & Hb & Hb0).
  pose proof (select_first_argmax _ _ _ _ _ _ Hsel) as (_ & pre & post & E & Hpre & Hpost).
  simpl in Hpre, Hpost.
  destruct (Nat.eq_dec (py_count a action_history) 0%nat) as [Ha0|Ha0]; [exact Ha0|].
  exfalso.
  assert (Hle : combined_score b action_history risk_scores
                <= combined_score a action_history risk_scores).
  { rewrite E in Hin. apply in_app_or in Hin. destruct Hin as [Hin|[<-|Hin]].
    - apply Qlt_le_weak. now apply Hpre.
    - apply Qle_refl.
    - now apply Hpost. }
  unfold combined_score in Hle.
  fold (stored_risk risk_scores a) in Hle. fold (stored_risk risk_scores b) in Hle.
  pose proof (stored_risk_range risk_scores a Hr) as Hra.
  pose proof (stored_risk_range risk_scores b Hr) as Hrb.
  assert (Hcb : calculate_action_coverage_score b action_history == 1).
  { now apply (proj1 (coverage_score_cases b action_history)). }
  assert (Hca : calculate_action_coverage_score a action_history <= 1 # 2).
  { rewrite coverage_closed_form.
    assert (Hn : 2 <= inject_Z (Z.of_nat (py_count a action_history)) + 1)
      by (apply (successor_at_least 2); lia).
    apply Qle_shift_div_r; lra. }
  rewrite Hcb in Hle. lra.
Qed.

End CoverageFacts.

Lemma selection_prefers_unexplored_witness :
  risks_in_range sample_risks
  /\ Exploration.select_action_by_coverage 2 sample_offer sample_history sample_risks 0.9
     = Ok (Some "navigate_back")
  /\ py_count "navigate_back" sample_history = 0%nat.
Proof.
  assert (Hr : risks_in_range sample_risks).
  { apply risks_in_range_insert; [lra | apply risks_in_range_empty]. }
  assert (Hsel : Exploration.select_action_by_coverage 2 sample_offer sample_history
                   sample_risks 0.9 = Ok (Some "navigate_back"))
    by (vm_compute; reflexivity).
  split; [exact Hr|]. split; [exact Hsel|].
  apply (selection_prefers_unexplored sample_offer sample_history sample_risks 0.9 0
           "navigate_back" Hr Hsel).
  exists "navigate_back". split; [right; right; now left|].
  split; [vm_compute; discriminate | reflexivity].
Defined.

Section ExplorationQueryFacts.
Import ExplorationQueries.

(** X12. The number of unexplored actions is zero exactly when every
    offered action occurs in the history; it is positive exactly when some
    offered action has the coverage score 1.0; and it is at most the number
    of offered actions, an action offered twice counting once. *)
Theorem unexplored_count_spec (available_actions action_history : list string) :
  (get_unexplored_action_count available_actions action_history = 0%nat
   <-> forall a, In a available_actions -> In a action_history)
  /\ ((0 < get_unexplored_action_count available_actions action_history)%nat
      <-> exists a, In a available_actions
                    /\ (Exploration.calculate_action_coverage_score a action_history
                        == 1.0)%Q)
  /\ (get_unexplored_action_count available_actions action_history
      <= length available_actions)%nat
  /\ (forall a, In a available_actions ->
        get_unexplored_action_count (a :: available_actions) action_history
        = get_unexplored_action_count available_actions action_history).
Proof.
  unfold get_unexplored_action_count.
  assert (Hzero : size ((list_to_set available_actions : gset string)
                          ∖ list_to_set action_history) = 0%nat
                  <-> forall a, In a available_actions -> In a action_history).
  { rewrite size_empty_iff. split.
    - intros He a Hin. apply list_elem_of_In.
      destruct (decide (a ∈ action_history)) as [Hy|Hn]; [exact Hy|].
      exfalso. apply list_elem_of_In in Hin.
      assert (Ha : a ∈ (list_to_set available_actions : gset string)
                        ∖ list_to_set action_history) by set_solver.
      rewrite He in Ha. set_solver.
    - intros Hall. apply set_equiv. intros a. split; [|set_solver].
      rewrite elem_of_difference, !elem_of_list_to_set, !list_elem_of_In.
      intros [Hin Hn]. destruct Hn. now apply Hall. }
  split; [exact Hzero|]. split; [|split].
  - split.
    + intros Hpos. apply size_pos_elem_of in Hpos. destruct Hpos as (a & Ha).
      apply elem_of_difference in Ha. destruct Ha as [Hin Hn].
      rewrite elem_of_list_to_set, list_elem_of_In in Hin, Hn.
      exists a. split; [exact Hin|].
      unfold Exploration.calculate_action_coverage_score.
      rewrite (proj2 (py_count_zero a action_history) Hn). reflexivity.
    + intros (a & Hin & Hc).
      destruct (Nat.eq_dec
                  (size ((list_to_set available_actions : gset string)
                           ∖ list_to_set action_history)) 0%nat) as [Ez|Ez]; [|lia].
      exfalso. pose proof (proj1 Hzero Ez a Hin) as Hh.
      unfold Exploration.calculate_action_coverage_score in Hc.
      destruct (py_count a action_history) as [|[|n]] eqn:En.
      * apply py_count_zero in En. contradiction.
      * vm_compute in Hc. discriminate Hc.
      * assert (Hq : (1.0 / inject_Z (Z.of_nat (S (S n)) + 1) == 1.0)%Q) by exact Hc.
        assert (H3 : (inject_Z 3 <= inject_Z (Z.of_nat (S (S n)) + 1))%Q)
          by (rewrite <- Zle_Qle; lia).
        assert (Hle : (1.0 / inject_Z (Z.of_nat (S (S n)) + 1) <= 1 # 3)%Q).
        { apply Qle_shift_div_r.
          - apply Qlt_le_trans with (inject_Z 3); [reflexivity | exact H3].
          - change (inject_Z 3) with 3%Q in H3. lra. }
        rewrite Hq in Hle. now apply Hle.
  - etransitivity; [apply subseteq_size; apply subseteq_difference_l; reflexivity|].
    clear Hzero. induction available_actions as [|a l IH].
    + rewrite list_to_set_nil, size_empty. lia.
    + rewrite list_to_set_cons, size_union_alt, size_singleton.
      assert (Hd : (size ((list_to_set l : gset string) ∖ {[a]})
                    <= size (list_to_set l : gset string))%nat)
        by (apply subseteq_size; apply subseteq_difference_l; reflexivity).
      simpl length. lia.
  - intros a Hin. apply list_elem_of_In in Hin. rewrite list_to_set_cons.
    assert (E : ({[a]} : gset string) ∪ list_to_set available_actions
                = list_to_set available_actions).
    { apply subseteq_union_1_L, singleton_subseteq_l, elem_of_list_to_set. exact Hin. }
    now rewrite E.
Qed.

Lemma get_category_append (cs : categories) (c c' : category) (a : string) :
  get_category (append_to cs c' a) c
  = (get_category cs c ++ if category_eqb c' c then [a] else [])%list.
Proof. destruct c, c'; simpl; now rewrite ?app_nil_r. Qed.

Lemma group_loop (l : list string) (cs : categories) (c : category) :
  get_category
    (fold_left (fun cs action_id => append_to cs (category_of action_id) action_id) l cs) c
  = (get_category cs c
     ++ List.filter (fun a => category_eqb (category_of a) c) l)%list.
Proof.
  revert cs. induction l as [|a l IH]; intros cs; simpl; [now rewrite app_nil_r|].
  rewrite IH, get_category_append.
  destruct (category_eqb (category_of a) c); simpl; now rewrite <- ?app_assoc, ?app_nil_r.
Qed.

(** X13. [group_actions_by_category] puts every offered action into the
    list of exactly one category, the first in the order navigation, form,
    click, assertion, wait whose keywords occur in its lowercased
    identifier, [other] when none does; each list keeps the offered order,
    and the six lists together have as many entries as were offered. *)
Theorem group_actions_partition (available_actions : list string) :
  (forall c,
      get_category (group_actions_by_category available_actions) c
      = List.filter (fun a => category_eqb (category_of a) c) available_actions)
  /\ (forall a c,
        In a (get_category (group_actions_by_category available_actions) c)
        <-> In a available_actions /\ category_of a = c)
  /\ (length (navigation_actions (group_actions_by_category available_actions))
      + length (form_actions (group_actions_by_category available_actions))
      + length (click_actions (group_actions_by_category available_actions))
      + length (assertion_actions (group_actions_by_category available_actions))
      + length (wait_actions (group_actions_by_category available_actions))
      + length (other_actions (group_actions_by_category available_actions))
      = length available_actions)%nat.
Proof.
  assert (Hget : forall c,
             get_category (group_actions_by_category available_actions) c
             = List.filter (fun a => category_eqb (category_of a) c) available_actions).
  { intros c. unfold group_actions_by_category. rewrite group_loop. now destruct c. }
  split; [exact Hget|]. split.
  - intros a c. rewrite Hget, filter_In. split.
    + intros [Hin Hc]. split; [exact Hin|]. destruct (category_of a), c; now try discriminate.
    + intros [Hin <-]. split; [exact Hin|]. now destruct (category_of a).
  - change (navigation_actions (group_actions_by_category available_actions))
      with (get_category (group_actions_by_category available_actions) navigation).
    change (form_actions (group_actions_by_category available_actions))
      with (get_category (group_actions_by_category available_actions) form).
    change (click_actions (group_actions_by_category available_actions))
      with (get_category (group_actions_by_category available_actions) click).
    change (assertion_actions (group_actions_by_category available_actions))
      with (get_category (group_actions_by_category available_actions) assertion).
    change (wait_actions (group_actions_by_category available_actions))
      with (get_category (group_actions_by_category available_actions) wait).
    change (other_actions (group_actions_by_category available_actions))
      with (get_category (group_actions_by_category available_actions) other).
    rewrite !Hget. clear Hget.
    induction available_actions as [|a l IH]; [reflexivity|].
    simpl. destruct (category_of a); simpl; lia.
Qed.

End ExplorationQueryFacts.

(** ** The queries of the risk policy *)

Section SafestActions.
Import RiskQueries.
Local Open Scope Q_scope.

Lemma insert_by_risk_perm (x : string * Q) (l : list (string * Q)) :
  Permutation (insert_by_risk x l) (x :: l).
Proof.
  induction l as [|y rest IH]; simpl; [reflexivity|].
  destruct (Qlt_bool (snd y) (snd x)); [|reflexivity].
  rewrite IH. apply perm_swap.
Qed.

Lemma sorted_by_risk_perm (l : list (string * Q)) :
  Permutation (sorted_by_risk l) l.
Proof.
  induction l as [|x l IH]; simpl; [reflexivity|].
  rewrite insert_by_risk_perm. now constructor.
Qed.

Lemma insert_by_risk_sorted (x : string * Q) (l : list (string * Q)) :
  StronglySorted (fun p q => snd p <= snd q) l ->
  StronglySorted (fun p q => snd p <= snd q) (insert_by_risk x l).
Proof.
  induction l as [|y rest IH]; intros Hs; simpl.
  - constructor; [constructor | constructor].
  - apply StronglySorted_inv in Hs. destruct Hs as [Hrest Hy].
    destruct (Qlt_bool (snd y) (snd x)) eqn:E.
    + apply Qlt_bool_iff in E. constructor; [now apply IH|].
      rewrite List.Forall_forall. intros z Hz.
      apply (Permutation_in _ (insert_by_risk_perm x rest)) in Hz.
      destruct Hz as [<-|Hz]; [now apply Qlt_le_weak|].
      rewrite List.Forall_forall in Hy. now apply Hy.
    + apply Qlt_bool_false_iff in E.
      constructor; [constructor; assumption|].
      constructor; [exact E|].
      rewrite List.Forall_forall in Hy |- *. intros z Hz.
      apply Qle_trans with (snd y); [exact E | now apply Hy].
Qed.

Lemma sorted_by_risk_sorted (l : list (string * Q)) :
  StronglySorted (fun p q => snd p <= snd q) (sorted_by_risk l).
Proof.
  induction l as [|x l IH]; simpl; [constructor | now apply insert_by_risk_sorted].
Qed.

(** The insertion passes over pairs of a strictly smaller risk only:
    among the pairs of one risk the order is kept. *)
Lemma insert_by_risk_stable (r : Q) (x : string * Q) (l : list (string * Q)) :
  List.filter (fun p => Qeq_bool (snd p) r) (insert_by_risk x l)
  = List.filter (fun p => Qeq_bool (snd p) r) (x :: l).
Proof.
  induction l as [|y rest IH]; [reflexivity|].
  simpl insert_by_risk. destruct (Qlt_bool (snd y) (snd x)) eqn:E; [|reflexivity].
  apply Qlt_bool_iff in E.
  simpl. rewrite IH. simpl.
  destruct (Qeq_bool (snd y) r) eqn:Ey; destruct (Qeq_bool (snd x) r) eqn:Ex;
    try reflexivity.
  apply Qeq_bool_iff in Ey, Ex. rewrite Ey, Ex in E. now apply Qlt_irrefl in E.
Qed.

Lemma sorted_by_risk_stable (r : Q) (l : list (string * Q)) :
  List.filter (fun p => Qeq_bool (snd p) r) (sorted_by_risk l)
  = List.filter (fun p => Qeq_bool (snd p) r) l.
Proof.
  induction l as [|x l IH]; [reflexivity|].
  simpl sorted_by_risk. rewrite insert_by_risk_stable. simpl. now rewrite IH.
Qed.

Lemma strongly_sorted_app {A : Type} (R : A -> A -> Prop) (l1 l2 : list A) :
  StronglySorted R (l1 ++ l2) ->
  StronglySorted R l1 /\ forall a b, In a l1 -> In b l2 -> R a b.
Proof.
  induction l1 as [|x l1 IH]; simpl; intros Hs.
  - split; [constructor | intros a b []].
  - apply StronglySorted_inv in Hs. destruct Hs as [Hrest Hx].
    destruct (IH Hrest) as [H1 H2]. rewrite List.Forall_forall in Hx. split.
    + constructor; [exact H1|]. rewrite List.Forall_forall. intros z Hz. apply Hx.
      apply in_or_app. now left.
    + intros a b [<-|Ha] Hb; [apply Hx, in_or_app; now right | now apply H2].
Qed.

Lemma strongly_sorted_ext {A : Type} (R R' : A -> A -> Prop) (l : list A) :
  (forall x y, In x l -> In y l -> R x y -> R' x y) ->
  StronglySorted R l -> StronglySorted R' l.
Proof.
  intros Hext Hs. induction Hs as [|x l Hs IH Hx]; constructor.
  - apply IH. intros y z Hy Hz. apply Hext; now right.
  - rewrite List.Forall_forall in Hx |- *. intros y Hy.
    apply Hext; [now left | now right | now apply Hx].
Qed.

Lemma strongly_sorted_map {A B : Type} (f : A -> B) (R : B -> B -> Prop) (l : list A) :
  StronglySorted (fun x y => R (f x) (f y)) l -> StronglySorted R (map f l).
Proof.
  induction 1 as [|x l Hs IH Hx]; simpl; constructor; [exact IH|].
  rewrite List.Forall_forall in Hx |- *. intros b Hb.
  apply in_map_iff in Hb. destruct Hb as (y & <- & Hy). now apply Hx.
Qed.

Lemma filter_map_fst (f : string -> Q) (r : Q) (l : list (string * Q)) :
  (forall p, In p l -> snd p = f (fst p)) ->
  List.filter (fun a => Qeq_bool (f a) r) (map fst l)
  = map fst (List.filter (fun p => Qeq_bool (snd p) r) l).
Proof.
  induction l as [|p l IH]; intros Hf; [reflexivity|]. simpl.
  rewrite <- (Hf p) by now left.
  rewrite IH by (intros q Hq; apply Hf; now right).
  now destruct (Qeq_bool (snd p) r).
Qed.

(** X14. [get_safest_actions] returns the first [top_n] entries of the
    offered actions sorted by stored risk (0.5 for an action without a
    score): the sorted list is a permutation of the offered list, its risks
    never decrease, actions of equal risk keep their offered order, and no
    returned action is riskier than one that was left out. *)
Theorem safest_actions_sorted (available_actions : list string)
    (risk_scores : gmap string Q) (top_n : nat) :
  let result := get_safest_actions available_actions risk_scores top_n in
  let all_sorted :=
    get_safest_actions available_actions risk_scores (length available_actions) in
  length result = Nat.min top_n (length available_actions)
  /\ result = firstn top_n all_sorted
  /\ Permutation all_sorted available_actions
  /\ StronglySorted
       (fun a b => stored_risk risk_scores a <= stored_risk risk_scores b) all_sorted
  /\ (forall r,
        List.filter (fun a => Qeq_bool (stored_risk risk_scores a) r) all_sorted
        = List.filter (fun a => Qeq_bool (stored_risk risk_scores a) r) available_actions)
  /\ (forall a b, In a result -> In b (skipn top_n all_sorted) ->
        stored_risk risk_scores a <= stored_risk risk_scores b).
Proof.
  intros result all_sorted. subst result all_sorted.
  pose (pairs := map (fun action_id => (action_id, stored_risk risk_scores action_id))
                   available_actions).
  assert (Hget : forall n, get_safest_actions available_actions risk_scores n
                           = map fst (firstn n (sorted_by_risk pairs))) by reflexivity.
  rewrite !Hget. clear Hget.
  assert (Hlen : length (sorted_by_risk pairs) = length available_actions).
  { rewrite (Permutation_length (sorted_by_risk_perm pairs)). unfold pairs.
    apply length_map. }
  assert (Hall : firstn (length available_actions) (sorted_by_risk pairs)
                 = sorted_by_risk pairs).
  { apply firstn_all2. lia. }
  assert (Hsnd : forall p, In p (sorted_by_risk pairs)
                           -> snd p = stored_risk risk_scores (fst p)).
  { intros p Hp. apply (Permutation_in _ (sorted_by_risk_perm pairs)) in Hp.
    unfold pairs in Hp. apply in_map_iff in Hp. now destruct Hp as (a & <- & _). }
  assert (Hfst : map fst pairs = available_actions).
  { unfold pairs. rewrite map_map. simpl. apply map_id. }
  assert (Hsorted : StronglySorted
            (fun p q => stored_risk risk_scores (fst p) <= stored_risk risk_scores (fst q))
            (sorted_by_risk pairs)).
  { apply (strongly_sorted_ext (fun p q => snd p <= snd q));
      [|apply sorted_by_risk_sorted].
    intros p q Hp Hq Hle. now rewrite <- (Hsnd p Hp), <- (Hsnd q Hq). }
  rewrite Hall.
  split; [rewrite length_map, length_firstn; lia|].
  split; [now rewrite firstn_map|].
  split; [rewrite <- Hfst; apply Permutation_map, sorted_by_risk_perm|].
  split; [now apply strongly_sorted_map|].
  split.
  - intros r. rewrite (filter_map_fst (stored_risk risk_scores)) by exact Hsnd.
    rewrite sorted_by_risk_stable.
    rewrite <- (filter_map_fst (stored_risk risk_scores)), Hfst; [reflexivity|].
    intros p Hp. unfold pairs in Hp. apply in_map_iff in Hp.
    now destruct Hp as (a & <- & _).
  - intros a b Ha Hb. rewrite <- firstn_map in Ha.
    pose proof (strongly_sorted_map fst
                  (fun a b => stored_risk risk_scores a <= stored_risk risk_scores b)
                  _ Hsorted) as Hm.
    rewrite <- (firstn_skipn top_n (map fst (sorted_by_risk pairs))) in Hm.
    apply strongly_sorted_app in Hm. destruct Hm as [_ Hm]. now apply Hm.
Qed.

End SafestActions.

Section AvoidFacts.
Import RiskQueries.
Local Open Scope Q_scope.

Lemma get_risk_category_high (r : Q) :
  get_risk_category r = "HIGH_RISK" <-> 0.8 <= r.
Proof.
  unfold get_risk_category.
  destruct (Qlt_bool r 0.2) eqn:E1; [apply Qlt_bool_iff in E1; split; [discriminate | lra]|].
  destruct (Qlt_bool r 0.5) eqn:E2; [apply Qlt_bool_iff in E2; split; [discriminate | lra]|].
  destruct (Qlt_bool r 0.8) eqn:E3; [apply Qlt_bool_iff in E3; split; [discriminate | lra]|].
  apply Qlt_bool_false_iff in E3. split; [intros _; exact E3 | reflexivity].
Qed.

(** X15. [should_avoid_action] holds exactly when the stored risk (0.5
    for an action without a score) has reached the threshold, or at least
    two of the last ten anomalies of the given history are HIGH and
    attributed to the action.  With the default threshold and no history
    it holds exactly for the actions of category "HIGH_RISK".  Every action
    that the selection excludes under a threshold is one to avoid under it,
    but not conversely: at a risk equal to the threshold the action is to
    be avoided and is still allowed by the selection. *)
Theorem should_avoid_action_spec (action_id : string) (risk_scores : gmap string Q)
    (risk_threshold : Q) (anomaly_history : option (list AnomalyReport)) :
  (should_avoid_action action_id risk_scores risk_threshold anomaly_history = true
   <-> risk_threshold <= stored_risk risk_scores action_id
       \/ exists l,
            anomaly_history = Some l
            /\ (2 <= length
                       (List.filter
                          (fun a => attributed_to action_id a
                                    && severity_eqb (severity a) HIGH)
                          (slice_last 10 l)))%nat)
  /\ (should_avoid_action action_id risk_scores 0.8 None = true
      <-> get_risk_category (stored_risk risk_scores action_id) = "HIGH_RISK")
  /\ (~ allowed risk_scores risk_threshold action_id ->
      should_avoid_action action_id risk_scores risk_threshold anomaly_history = true)
  /\ (stored_risk risk_scores action_id == risk_threshold ->
      allowed risk_scores risk_threshold action_id
      /\ should_avoid_action action_id risk_scores risk_threshold anomaly_history = true).
Proof.
  assert (Hrisk : forall thr hist,
             thr <= stored_risk risk_scores action_id ->
             should_avoid_action action_id risk_scores thr hist = true).
  { intros thr hist Hle. unfold should_avoid_action. fold (stored_risk risk_scores action_id).
    apply Qle_bool_iff in Hle. now rewrite Hle. }
  split; [|split; [|split]].
  - split.
    + unfold should_avoid_action. fold (stored_risk risk_scores action_id).
      destruct (Qle_bool risk_threshold (stored_risk risk_scores action_id)) eqn:E.
      * intros _. left. now apply Qle_bool_iff.
      * destruct anomaly_history as [[|first others]|]; try discriminate.
        intros Hc. right. exists (first :: others). split; [reflexivity|].
        now apply Nat.leb_le in Hc.
    + intros [Hle | (l & -> & Hc)]; [now apply Hrisk|].
      unfold should_avoid_action.
      destruct (Qle_bool risk_threshold _); [reflexivity|].
      destruct l as [|first others]; [simpl in Hc; lia|].
      now apply Nat.leb_le.
  - rewrite get_risk_category_high. unfold should_avoid_action.
    fold (stored_risk risk_scores action_id).
    destruct (Qle_bool 0.8 (stored_risk risk_scores action_id)) eqn:E.
    + apply Qle_bool_iff in E. split; [intros _; exact E | reflexivity].
    + split; [discriminate|]. intros Hle. apply Qle_bool_iff in Hle. congruence.
  - intros Hn. apply Hrisk. unfold allowed in Hn. apply Qnot_le_lt in Hn.
    now apply Qlt_le_weak.
  - intros He. split; [unfold allowed; rewrite He; apply Qle_refl|].
    apply Hrisk. rewrite He. apply Qle_refl.
Qed.

End AvoidFacts.

Lemma should_avoid_action_spec_witness :
  (stored_risk sample_risks "click_submit" == 0.95)%Q
  /\ allowed sample_risks 0.95 "click_submit"
  /\ RiskQueries.should_avoid_action "click_submit" sample_risks 0.95 None = true.
Proof.
  assert (He : (stored_risk sample_risks "click_submit" == 0.95)%Q) by reflexivity.
  split; [exact He|].
  exact (proj2 (proj2 (proj2 (should_avoid_action_spec "click_submit" sample_risks 0.95 None)))
           He).
Defined.

Section NeutralRisks.
Import RiskQueries. Import Exploration.
Local Open Scope Q_scope.

Lemma initialize_loop (l : list string) (m : gmap string Q) (a : string) :
  fold_left (fun m action_id => <[action_id := 0.5]> m) l m !! a
  = if existsb (String.eqb a) l then Some 0.5 else m !! a.
Proof.
  revert m. induction l as [|b l IH]; intros m; simpl; [reflexivity|].
  rewrite IH. destruct (existsb (String.eqb a) l); [now rewrite orb_true_r|].
  rewrite orb_false_r. destruct (String.eqb_spec a b) as [->|Hne].
  - apply lookup_insert_eq.
  - apply lookup_insert_ne. congruence.
Qed.

Lemma initialize_lookup (l : list string) (a : string) :
  initialize_risk_scores l !! a = if existsb (String.eqb a) l then Some 0.5 else None.
Proof. unfold initialize_risk_scores. now rewrite initialize_loop, lookup_empty. Qed.

Lemma initialize_stored_risk (l : list string) (a : string) :
  stored_risk (initialize_risk_scores l) a = 0.5.
Proof.
  unfold stored_risk. rewrite initialize_lookup. now destruct (existsb _ l).
Qed.

Lemma initialize_in_range (l : list string) : risks_in_range (initialize_risk_scores l).
Proof.
  intros a r. rewrite initialize_lookup. destruct (existsb _ l); [|discriminate].
  intros E. injection E as <-. lra.
Qed.

Lemma coverage_order (a b : string) (action_history : list string) :
  (calculate_action_coverage_score b action_history
   < calculate_action_coverage_score a action_history
   -> (py_count a action_history < py_count b action_history)%nat)
  /\ (calculate_action_coverage_score b action_history
      <= calculate_action_coverage_score a action_history
      -> (py_count a action_history <= py_count b action_history)%nat).
Proof.
  rewrite !coverage_closed_form. split.
  - intros Hlt. destruct (Nat.lt_ge_cases (py_count a action_history)
                            (py_count b action_history)) as [Hc|Hc]; [exact Hc|].
    exfalso. apply Nat.lt_eq_cases in Hc. destruct Hc as [Hc|Hc].
    + pose proof (inverse_successor_decreases _ _ Hc). lra.
    + rewrite Hc in Hlt. now apply Qlt_irrefl in Hlt.
  - intros Hle. destruct (Nat.le_gt_cases (py_count a action_history)
                            (py_count b action_history)) as [Hc|Hc]; [exact Hc|].
    exfalso. pose proof (inverse_successor_decreases _ _ Hc). lra.
Qed.

(** X16. [initialize_risk_scores] gives every offered action the score
    0.5 and no other action a score.  On these scores the selection
    returns, whatever the threshold, the offered action executed least
    often, the first of them in the offered order. *)
Theorem neutral_risks_select_least_executed (available_actions action_history : list string)
    (thr : Q) (depth : nat) :
  let neutral := initialize_risk_scores available_actions in
  (forall a, In a available_actions -> neutral !! a = Some 0.5)
  /\ (forall a, ~ In a available_actions -> neutral !! a = None)
  /\ (available_actions <> [] ->
      exists a pre post,
        select_action_by_coverage (S (S depth)) available_actions action_history neutral thr
        = Ok (Some a)
        /\ available_actions = (pre ++ a :: post)%list
        /\ (forall b, In b pre ->
              (py_count a action_history < py_count b action_history)%nat)
        /\ (forall b, In b post ->
              (py_count a action_history <= py_count b action_history)%nat)).
Proof.
  intros neutral. subst neutral.
  split; [|split].
  - intros a Hin. rewrite initialize_lookup.
    destruct (existsb (String.eqb a) available_actions) eqn:E; [reflexivity|].
    assert (Ht : existsb (String.eqb a) available_actions = true)
      by (apply existsb_exists; exists a; split; [exact Hin | apply String.eqb_refl]).
    congruence.
  - intros a Hn. rewrite initialize_lookup.
    destruct (existsb (String.eqb a) available_actions) eqn:E; [|reflexivity].
    apply existsb_exists in E. destruct E as (b & Hin & Hb).
    apply String.eqb_eq in Hb. subst b. contradiction.
  - intros Hne.
    destruct (select_returns_in_range available_actions action_history
                (initialize_risk_scores available_actions) thr depth Hne
                (initialize_in_range available_actions)) as (a & _ & Hsel).
    pose proof (select_first_argmax _ _ _ _ _ _ Hsel) as (_ & pre & post & E & Hpre & Hpost).
    simpl in Hpre, Hpost.
    assert (Hall : forall b, In b available_actions ->
                             allowed (initialize_risk_scores available_actions)
                               (effective_threshold available_actions
                                  (initialize_risk_scores available_actions) thr) b).
    { intros b Hb. unfold allowed, effective_threshold. rewrite initialize_stored_risk.
      destruct (existsb _ available_actions) eqn:Ee; [|lra].
      apply existsb_exists in Ee. destruct Ee as (c & _ & Hc).
      apply allowedb_spec in Hc. unfold allowed in Hc.
      now rewrite initialize_stored_risk in Hc. }
    assert (Hscore : forall b,
               combined_score b action_history (initialize_risk_scores available_actions)
               == calculate_action_coverage_score b action_history * 0.7 + 0.15).
    { intros b. unfold combined_score.
      fold (stored_risk (initialize_risk_scores available_actions) b).
      rewrite initialize_stored_risk. lra. }
    exists a, pre, post. split; [exact Hsel|]. split; [exact E|]. split.
    + intros b Hb. apply (proj1 (coverage_order a b action_history)).
      assert (Hin : In b available_actions) by (rewrite E; apply in_or_app; now left).
      specialize (Hpre b Hb (Hall b Hin)). rewrite !Hscore in Hpre. lra.
    + intros b Hb. apply (proj2 (coverage_order a b action_history)).
      assert (Hin : In b available_actions)
        by (rewrite E; apply in_or_app; right; now right).
      specialize (Hpost b Hb (Hall b Hin)). rewrite !Hscore in Hpost. lra.
Qed.

End NeutralRisks.

Lemma neutral_risks_select_least_executed_witness :
  sample_offer <> []
  /\ exists a pre post,
       Exploration.select_action_by_coverage 2 sample_offer sample_history
         (RiskQueries.initialize_risk_scores sample_offer) 0.9 = Ok (Some a)
       /\ sample_offer = (pre ++ a :: post)%list
       /\ (forall b, In b pre -> (py_count a sample_history < py_count b sample_history)%nat)
       /\ (forall b, In b post -> (py_count a sample_history <= py_count b sample_history)%nat).
Proof.
  assert (Hne : sample_offer <> []) by discriminate.
  split; [exact Hne|].
  exact (proj2 (proj2 (neutral_risks_select_least_executed sample_offer sample_history 0.9 0))
           Hne).
Defined.

(** ** The baseline statistics *)

Section UpdateFacts.
Context `{FloatRuntime}.

Lemma float_square_overflow (s : float) :
  is_nan s = false -> is_infinity s = false -> (s =? 0)%float = false ->
  (abs s =? 1)%float = false -> is_infinity (libm_pow (abs s) 2) = true ->
  float_square s = Raise OverflowError.
Proof.
  intros H1 H2 H3 H4 H5. unfold float_square. now rewrite H1, H2, H3, H4, H5.
Qed.

(** X18. With a float as the standard deviation, [BaselineMetrics.update]
    raises ZeroDivisionError exactly when the count is -1, and nothing
    but OverflowError otherwise: it does so when the count is not -1, the
    new count converts to a float, and the C library's [pow] overflows on
    the square of a finite standard deviation other than 0 and 1.  When
    the update returns, the count is one more, the mean is the stored one
    plus the rounded quotient of the difference by the new count, and the
    standard deviation is the root of the rounded new variance. *)
Theorem update_returns_or_raises (self : BaselineMetrics) (x s : float) :
  std_dev self = Float s ->
  (update self x = Raise ZeroDivisionError <-> count self = (-1)%Z)
  /\ (forall e, update self x = Raise e -> e = ZeroDivisionError \/ e = OverflowError)
  /\ (count self <> (-1)%Z -> is_infinity (float_of_Z (count self + 1)) = false ->
      is_nan s = false -> is_infinity s = false -> (s =? 0)%float = false ->
      (abs s =? 1)%float = false -> is_infinity (libm_pow (abs s) 2) = true ->
      update self x = Raise OverflowError)
  /\ (forall updated,
        update self x = Ok updated ->
        count updated = (count self + 1)%Z
        /\ mean updated
           = (mean self + (x - mean self) / float_of_Z (count self + 1))%float
        /\ exists square,
             float_square s = Ok square
             /\ float_root ((float_of_Z (count self) * square
                              + (x - mean self) * (x - mean updated))
                             / float_of_Z (count self + 1))%float
                = Ok (std_dev updated)).
Proof.
  intros Hs. split; [|split; [|split]].
  - split.
    + intros E. destruct (update_error _ _ _ _ Hs E) as [[_ Hc]|[Ho _]];
        [exact Hc | discriminate Ho].
    + intros Hc. unfold update. rewrite Hc. reflexivity.
  - intros e E. destruct (update_error _ _ _ _ Hs E) as [[-> _]|[-> _]]; auto.
  - intros Hc Hn H1 H2 H3 H4 H5. unfold update. rewrite Hs.
    unfold float_div_int at 1, float_of_int. rewrite Hn. simpl exc_bind.
    destruct (Z.eqb_spec (count self + 1) 0) as [E|_]; [lia|]. simpl exc_bind.
    now rewrite (float_square_overflow s H1 H2 H3 H4 H5).
  - intros updated E. split; [exact (update_count _ _ _ E)|].
    unfold update in E. rewrite Hs in E.
    apply exc_bind_ok in E. destruct E as (step & Hstep & E).
    apply exc_bind_ok in E. destruct E as (sd & Hsd & E).
    apply float_div_int_ok in Hstep. destruct Hstep as (_ & _ & ->).
    injection E as <-. cbn [mean std_dev].
    split; [reflexivity|].
    apply exc_bind_ok in Hsd. destruct Hsd as (square & Hsq & Hsd).
    apply exc_bind_ok in Hsd. destruct Hsd as (weighted & Hw & Hsd).
    apply exc_bind_ok in Hsd. destruct Hsd as (variance & Hv & Hsd).
    exists square. split; [exact Hsq|].
    apply float_div_int_ok in Hv. destruct Hv as (_ & _ & ->).
    unfold int_mul_float in Hw.
    apply exc_bind_ok in Hw. destruct Hw as (c & Hc & Hw). injection Hw as <-.
    unfold float_of_int in Hc. destruct (is_infinity (float_of_Z (count self)));
      [discriminate Hc|]. injection Hc as <-. exact Hsd.
Qed.

End UpdateFacts.

Lemma update_returns_or_raises_witness :
  let self := {| mean := 0%float; std_dev := Float 1e155; count := 5 |} in
  std_dev self = Float 1e155
  /\ update self 1 = Raise OverflowError
  /\ (forall e, update self 1 = Raise e -> e = ZeroDivisionError \/ e = OverflowError).
Proof.
  intros self.
  assert (Hs : std_dev self = Float 1e155) by reflexivity.
  destruct (@update_returns_or_raises correctly_rounded_runtime self 1%float 1e155%float Hs)
    as (_ & Herr & Hover & _).
  split; [exact Hs|]. split; [|exact Herr].
  apply Hover; solve [discriminate | reflexivity].
Defined.

Section LearnerFacts.
Context {Observation : Type} `{FloatRuntime}.

(** X19. When an action was executed, [update_action_success_rates]
    takes the sample 0.0 if one of the last three anomalies is a HIGH one
    attributed to that action, and 1.0 otherwise.  Without a stored success
    rate it returns and stores the sample as the mean of one sample, with a
    standard deviation of 0.0.  On a stored one it raises what the update
    with the sample raises, and otherwise stores the updated baseline, whose
    count is one more.  It writes under the key of the success rate only. *)
Theorem success_rate_learns_one_sample (state : AgentState Observation)
    (last_action : string) :
  let key := String.append last_action "_success_rate" in
  let stored := baselines (knowledge state) in
  let failed (a : AnomalyReport) :=
    Anomaly.action_id a = Some last_action /\ severity a = HIGH in
  last_or_none (action_history (execution_context state)) = Some last_action ->
  exists sample : float,
    ((exists a, In a (slice_last 3 (anomalies state)) /\ failed a) /\ sample = 0.0%float
     \/ (forall a, In a (slice_last 3 (anomalies state)) -> ~ failed a)
        /\ sample = 1.0%float)
    /\ (stored !! key = None ->
        Learner.update_action_success_rates state
        = Ok (set_baselines state
                (<[key := {| d_mean := Some sample; d_std_dev := Some (Float 0.0);
                             d_count := Some 1%Z |}]> stored)))
    /\ (forall d, stored !! key = Some d ->
          Learner.update_action_success_rates state
          = let* updated := update (from_dict d) sample in
            Ok (set_baselines state (<[key := to_dict updated]> stored)))
    /\ (forall d updated, stored !! key = Some d ->
          update (from_dict d) sample = Ok updated ->
          count updated = (count (from_dict d) + 1)%Z).
Proof.
  intros key stored failed Hlast.
  set (triggered :=
         existsb
           (fun a =>
              match Anomaly.action_id a with
              | Some id => String.eqb id last_action
              | None => false
              end
              && String.eqb (severity_value (severity a)) "HIGH")
           (if (0 <? length (anomalies state))%nat
            then slice_last 3 (anomalies state) else [])).
  exists (if negb triggered then 1.0%float else 0.0%float).
  assert (Hrecent : (if (0 <? length (anomalies state))%nat
                     then slice_last 3 (anomalies state) else [])
                    = slice_last 3 (anomalies state)).
  { destruct (anomalies state); reflexivity. }
  assert (Hfailed : forall a,
             match Anomaly.action_id a with
             | Some id => String.eqb id last_action
             | None => false
             end
             && String.eqb (severity_value (severity a)) "HIGH" = true <-> failed a).
  { intros a. unfold failed. rewrite andb_true_iff.
    destruct (Anomaly.action_id a) as [id|].
    - rewrite String.eqb_eq. destruct (severity a); simpl; split;
        intros [E1 E2]; try discriminate; subst; auto. now injection E1 as ->.
    - split; intros [E1 E2]; discriminate. }
  split; [|split; [|split]].
  - destruct triggered eqn:Et; simpl.
    + left. split; [|reflexivity]. unfold triggered in Et. rewrite Hrecent in Et.
      apply existsb_exists in Et. destruct Et as (a & Hin & Ha).
      exists a. split; [exact Hin | now apply Hfailed].
    + right. split; [|reflexivity]. intros a Hin Ha.
      unfold triggered in Et. rewrite Hrecent in Et.
      assert (Ht : existsb
                     (fun a =>
                        match Anomaly.action_id a with
                        | Some id => String.eqb id last_action
                        | None => false
                        end
                        && String.eqb (severity_value (severity a)) "HIGH")
                     (slice_last 3 (anomalies state)) = true).
      { apply existsb_exists. exists a. split; [exact Hin | now apply Hfailed]. }
      congruence.
  - intros Hnone. unfold Learner.update_action_success_rates. rewrite Hlast.
    fold key stored. rewrite Hnone. reflexivity.
  - intros d Hd. unfold Learner.update_action_success_rates. rewrite Hlast.
    fold key stored. rewrite Hd. reflexivity.
  - intros d updated _ Hu. exact (update_count _ _ _ Hu).
Qed.

End LearnerFacts.

Lemma success_rate_learns_one_sample_witness :
  let key := "click_submit_success_rate" in
  last_or_none (action_history (execution_context rated_state)) = Some "click_submit"
  /\ Learner.update_action_success_rates rated_state
     = Ok (set_baselines rated_state
             (<[key := {| d_mean := Some 0.5%float; d_std_dev := Some (Float 0.5);
                          d_count := Some 2%Z |}]> (baselines (knowledge rated_state)))).
Proof.
  intros key.
  assert (Hlast : last_or_none (action_history (execution_context rated_state))
                  = Some "click_submit") by reflexivity.
  split; [exact Hlast|].
  destruct (success_rate_learns_one_sample rated_state "click_submit" Hlast)
    as (sample & Hsample & _ & Hstored & _).
  destruct Hsample as [[_ ->]|[Hnone _]].
  - rewrite (Hstored _ eq_refl). vm_compute. reflexivity.
  - exfalso. apply (Hnone {| severity := HIGH; category := INVARIANT_VIOLATION;
                             Anomaly.action_id := Some "click_submit" |}).
    + simpl. now left.
    + split; reflexivity.
Defined.

Section StabilityEdges.
Context `{FloatRuntime}.

(** X20. On a stored baseline the stability check is the update of the
    baseline with the current value, paired with a verdict, whatever the
    verdict: it raises what the update raises and otherwise returns the
    updated baseline, so that a value reported as a deviation enters the
    baseline as well.  The one exception is a [complex] standard deviation
    other than zero over at least three samples, where the comparison of
    the quotient raises TypeError.  With fewer than three samples the
    verdict is no violation; with at least three and a standard deviation
    of zero it is a violation exactly when the distance of the value from
    the mean compares greater than the rounded 1% of the mean's absolute
    value. *)
Theorem stability_check_learns_every_value (name : string) (x sigma : float)
    (d : baseline_dict) :
  let checked v :=
    check_stability_against_baseline name x (Some d) sigma
    = let* u := update (from_dict d) x in Ok ({| violated := v |}, u) in
  ((count (from_dict d) < 3)%Z -> checked false)
  /\ ((3 <= count (from_dict d))%Z -> number_is_zero (std_dev (from_dict d)) = true ->
      checked (float_gt (abs (x - mean (from_dict d))) (0.01 * abs (mean (from_dict d)))))
  /\ (forall s, (3 <= count (from_dict d))%Z -> std_dev (from_dict d) = Float s ->
                (s =? 0)%float = false ->
                checked (float_gt (abs (x - mean (from_dict d)) / s) sigma))
  /\ (forall z, (3 <= count (from_dict d))%Z -> std_dev (from_dict d) = Complex z ->
                number_is_zero (Complex z) = false ->
                check_stability_against_baseline name x (Some d) sigma = Raise TypeError)
  /\ (forall v u,
        check_stability_against_baseline name x (Some d) sigma = Ok (v, u) ->
        update (from_dict d) x = Ok u /\ count u = (count (from_dict d) + 1)%Z).
Proof.
  intros checked. subst checked. cbv beta.
  split; [apply check_stability_provisional|].
  split; [apply check_stability_zero|].
  split; [intros s; apply check_stability_z_score|].
  split.
  - intros z Hc Hs Hz. unfold check_stability_against_baseline.
    destruct (Z.ltb_spec (count (from_dict d)) 3) as [Hlt|_]; [lia|].
    rewrite Hs, Hz. reflexivity.
  - intros v u. unfold check_stability_against_baseline.
    assert (Hup : forall v',
               (let* updated := update (from_dict d) x in Ok (v', updated)) = Ok (v, u) ->
               update (from_dict d) x = Ok u /\ count u = (count (from_dict d) + 1)%Z).
    { intros v' E. apply exc_bind_ok in E. destruct E as (u' & Hu & E).
      injection E as _ <-. split; [exact Hu | exact (update_count _ _ _ Hu)]. }
    destruct (count (from_dict d) <? 3)%Z; [apply Hup|].
    destruct (number_is_zero (std_dev (from_dict d))).
    + destruct (float_gt _ _); apply Hup.
    + destruct (std_dev (from_dict d)) as [s|z]; [|discriminate].
      destruct (float_gt _ _); apply Hup.
Qed.

End StabilityEdges.

Lemma stability_check_learns_every_value_witness :
  let d := {| d_mean := Some 100%float; d_std_dev := Some (Float 0); d_count := Some 5%Z |} in
  ((3 <= count (from_dict d))%Z /\ number_is_zero (std_dev (from_dict d)) = true)
  /\ exists u,
       check_stability_against_baseline "element_count" 102 (Some d) 2.0
       = Ok ({| violated := true |}, u)
       /\ update (from_dict d) 102 = Ok u
       /\ count u = 6%Z.
Proof.
  intros d.
  assert (Hc : (3 <= count (from_dict d))%Z) by (simpl; lia).
  assert (Hz : number_is_zero (std_dev (from_dict d)) = true) by reflexivity.
  split; [auto|].
  pose proof (@stability_check_learns_every_value correctly_rounded_runtime "element_count"
                102%float 2.0%float d) as (_ & Hzero & _ & _ & Hret).
  specialize (Hzero Hc Hz).
  destruct (update (from_dict d) 102) as [u|e] eqn:Eu; [|vm_compute in Eu; discriminate Eu].
  exists u. simpl exc_bind in Hzero.
  split; [exact Hzero|]. exact (Hret _ _ Hzero).
Defined.

Section ForgottenBaseline.
Context `{FloatRuntime}.

(** X28. A stored baseline without a count, or with the count 0, and
    without a standard deviation, or with the standard deviation 0, is
    restarted by the first value checked against it.  The check reports no
    violation and returns the count 1; the mean it returns is the stored
    mean plus the rounded difference of the value from it, which need not
    be the value; the standard deviation is the root of the rounded product
    of the two differences, a [complex] when that product is negative, and
    the check raises where that root overflows. *)
Theorem baseline_without_count_restarts (name : string) (x sigma : float)
    (d : baseline_dict) :
  d_count d = None \/ d_count d = Some 0%Z ->
  d_std_dev d = None \/ d_std_dev d = Some (Float 0) ->
  let stored := default 0%float (d_mean d) in
  let new_mean := (stored + (x - stored) / 1)%float in
  let variance := ((0 * 0 + (x - stored) * (x - new_mean)) / 1)%float in
  check_stability_against_baseline name x (Some d) sigma
  = let* root := float_root variance in
    Ok ({| violated := false |}, {| mean := new_mean; std_dev := root; count := 1 |}).
Proof.
  intros Hc Hs stored new_mean variance.
  assert (Ec : count (from_dict d) = 0%Z)
    by (unfold from_dict; destruct Hc as [-> | ->]; reflexivity).
  assert (Es : std_dev (from_dict d) = Float 0)
    by (unfold from_dict; destruct Hs as [-> | ->]; reflexivity).
  rewrite check_stability_provisional by lia.
  assert (Hu : update (from_dict d) x
               = let* root := float_root variance in
                 Ok {| mean := new_mean; std_dev := root; count := 1 |}).
  { unfold update. rewrite Ec, Es. reflexivity. }
  rewrite Hu.
  destruct (float_root variance); reflexivity.
Qed.

End ForgottenBaseline.

Lemma baseline_without_count_restarts_witness :
  let d := {| d_mean := Some 2500%float; d_std_dev := None; d_count := None |} in
  (d_count d = None \/ d_count d = Some 0%Z)
  /\ (d_std_dev d = None \/ d_std_dev d = Some (Float 0))
  /\ exists variance,
       float_gt 0 variance = true
       /\ check_stability_against_baseline "login_flow_duration_ms" 0.1 (Some d) 2.0
          = Ok ({| violated := false |},
                {| mean := 0.09999999999990905%float;
                   std_dev := Complex (complex_root variance); count := 1 |}).
Proof.
  intros d.
  assert (Hc : d_count d = None \/ d_count d = Some 0%Z) by now left.
  assert (Hs : d_std_dev d = None \/ d_std_dev d = Some (Float 0)) by now left.
  split; [exact Hc|]. split; [exact Hs|].
  exists ((0 * 0 + (0.1 - 2500) * (0.1 - (2500 + (0.1 - 2500) / 1))) / 1)%float.
  split; [vm_compute; reflexivity|].
  rewrite (@baseline_without_count_restarts correctly_rounded_runtime "login_flow_duration_ms"
             0.1%float 2.0%float d Hc Hs).
  vm_compute. reflexivity.
Defined.

(** ** The checks of the detector *)

Section StabilityLoop.
Context `{FloatRuntime}.

Lemma stability_anomalies_cons (name : string) (x : float) (rest : list (string * float))
    (last_action : option string) (baselines : gmap string baseline_dict) :
  AnomalyDetector.stability_anomalies ((name, x) :: rest) last_action baselines
  = let* (stability_check, updated_baseline) :=
      check_stability_against_baseline name x (baselines !! name) 2.0 in
    let* (baselines', found) :=
      AnomalyDetector.stability_anomalies rest last_action
        (<[name := to_dict updated_baseline]> baselines) in
    Ok (baselines',
        if violated stability_check
        then AnomalyDetector.report MEDIUM REGRESSION last_action :: found
        else found).
Proof. reflexivity. Qed.

(** X21. The baseline loop of the detector, on metrics of distinct
    names, returns exactly when the check of every metric against the
    baseline stored before the loop returns.  When it returns, the
    baseline that the check of a metric returns is stored under the name of
    the metric with all three keys, baselines under other names are kept,
    and one anomaly is reported for each metric whose check is violated. *)
Theorem stability_loop_checks_each_metric (metrics : list (string * float))
    (last_action : option string) (baselines : gmap string baseline_dict) :
  NoDup (map fst metrics) ->
  ((exists baselines' found,
       AnomalyDetector.stability_anomalies metrics last_action baselines
       = Ok (baselines', found))
   <-> (forall name x, In (name, x) metrics ->
          exists v u,
            check_stability_against_baseline name x (baselines !! name) 2.0 = Ok (v, u)))
  /\ (forall baselines' found,
        AnomalyDetector.stability_anomalies metrics last_action baselines
        = Ok (baselines', found) ->
        (forall name x, In (name, x) metrics ->
           exists v u,
             check_stability_against_baseline name x (baselines !! name) 2.0 = Ok (v, u)
             /\ baselines' !! name = Some (to_dict u)
             /\ (violated v = true -> found <> []))
        /\ (forall name, ~ In name (map fst metrics) ->
              baselines' !! name = baselines !! name)
        /\ found = repeat (AnomalyDetector.report MEDIUM REGRESSION last_action)
                     (length (List.filter (deviates baselines) metrics))).
Proof.
  revert baselines. induction metrics as [|[name x] rest IH]; intros baselines Hnd.
  - split.
    + split; [intros _ ? ? [] | intros _; exists baselines, []; reflexivity].
    + intros b' found E. simpl in E. injection E as <- <-.
      split; [intros ? ? []|]. split; reflexivity.
  - simpl in Hnd. apply NoDup_cons in Hnd. destruct Hnd as [Hfresh Hnd].
    assert (Hfresh' : ~ In name (map fst rest)) by (rewrite <- list_elem_of_In; exact Hfresh).
    assert (Hne : forall n y, In (n, y) rest -> name <> n).
    { intros n y Hin ->. apply Hfresh'. apply in_map_iff. now exists (n, y). }
    split.
    + split.
      * intros (b' & found & E). rewrite stability_anomalies_cons in E.
        apply exc_bind_ok in E. destruct E as ([v u] & Hcheck & E).
        apply exc_bind_ok in E. destruct E as ([b2 found2] & Hrest & _).
        intros n y [Eq|Hin].
        -- injection Eq as <- <-. eauto.
        -- destruct (proj1 (proj1 (IH (<[name := to_dict u]> baselines) Hnd))
                       (ex_intro _ b2 (ex_intro _ found2 Hrest)) n y Hin)
             as (v' & u' & Hc').
           rewrite lookup_insert_ne in Hc' by exact (Hne n y Hin). eauto.
      * intros Hall. destruct (Hall name x (or_introl eq_refl)) as (v & u & Hcheck).
        destruct (proj2 (proj1 (IH (<[name := to_dict u]> baselines) Hnd)))
          as (b2 & found2 & Hrest).
        { intros n y Hin. rewrite lookup_insert_ne by exact (Hne n y Hin).
          apply Hall. now right. }
        rewrite stability_anomalies_cons, Hcheck. simpl. rewrite Hrest. simpl. eauto.
    + intros b' found E.
      assert (Hnd' : NoDup (map fst ((name, x) :: rest)))
        by (simpl; apply NoDup_cons; auto).
      pose proof (stability_anomalies_found _ _ _ _ _ Hnd' E) as Hfound.
      rewrite stability_anomalies_cons in E.
      apply exc_bind_ok in E. destruct E as ([v u] & Hcheck & E).
      apply exc_bind_ok in E. destruct E as ([b2 found2] & Hrest & E).
      injection E as <- <-.
      destruct (proj2 (IH (<[name := to_dict u]> baselines) Hnd) _ _ Hrest)
        as (Heach & Hother & _).
      split; [|split; [|exact Hfound]].
      * intros n y [Eq|Hin].
        -- injection Eq as <- <-. exists v, u. split; [exact Hcheck|].
           split; [rewrite (Hother name Hfresh'); apply lookup_insert_eq|].
           intros ->. discriminate.
        -- destruct (Heach n y Hin) as (v' & u' & Hc' & Hb' & Hv').
           rewrite lookup_insert_ne in Hc' by exact (Hne n y Hin).
           exists v', u'. split; [exact Hc'|]. split; [exact Hb'|].
           intros Hviol. specialize (Hv' Hviol).
           destruct (violated v); [discriminate | exact Hv'].
      * intros n Hn. simpl in Hn.
        rewrite Hother by (intros Hin; apply Hn; now right).
        apply lookup_insert_ne. intros ->. apply Hn. now left.
Qed.

End StabilityLoop.

Lemma stability_loop_checks_each_metric_witness :
  let metrics := [("response_time_ms", 500%float)] in
  NoDup (map fst metrics)
  /\ exists baselines',
       AnomalyDetector.stability_anomalies metrics (Some "click_submit")
         response_time_baseline
       = Ok (baselines', [AnomalyDetector.report MEDIUM REGRESSION (Some "click_submit")])
       /\ (forall name, ~ In name (map fst metrics) ->
             baselines' !! name = response_time_baseline !! name)
       /\ exists u, baselines' !! "response_time_ms" = Some (to_dict u) /\ count u = 11%Z.
Proof.
  intros metrics.
  assert (Hnd : NoDup (map fst metrics)) by apply NoDup_singleton.
  split; [exact Hnd|].
  destruct (AnomalyDetector.stability_anomalies metrics (Some "click_submit")
              response_time_baseline) as [[b' found]|e] eqn:E;
    [|vm_compute in E; discriminate E].
  destruct (proj2 (@stability_loop_checks_each_metric correctly_rounded_runtime metrics
                     (Some "click_submit") response_time_baseline Hnd) b' found E)
    as (Heach & Hother & Hfound).
  exists b'. split; [now rewrite Hfound|]. split; [exact Hother|].
  destruct (Heach "response_time_ms" 500%float (or_introl eq_refl))
    as (v & u & Hcheck & Hb & _).
  exists u. split; [exact Hb|].
  vm_compute in Hcheck. now injection Hcheck as _ <-.
Defined.

Section ForwardProgress.
Context {Observation : Type} `{ObservationModel Observation}.

(** X22. [check_forward_progress] with a positive window [n] always
    returns, and reports a violation exactly when at least [n] actions were
    executed and the last [n] observations exist and all equal the first of
    them.  With the window 0 the slice [[-0:]] is the whole history: the
    check raises IndexError on an empty history and otherwise reports a
    violation exactly when all observations equal the first one, whatever
    the actions. *)
Theorem forward_progress_window (action_history : list string)
    (observation_history : list Observation) (n : nat) :
  ((0 < n)%nat ->
   exists v,
     CoreInvariants.check_forward_progress action_history observation_history n = Ok v
     /\ (violated v = true
         <-> (n <= length action_history)%nat
             /\ exists earlier first_obs others,
                  observation_history = (earlier ++ first_obs :: others)%list
                  /\ length (first_obs :: others) = n
                  /\ Forall (fun obs => obs_eqb obs first_obs = true) (first_obs :: others)))
  /\ (n = 0%nat ->
      match observation_history with
      | [] => CoreInvariants.check_forward_progress action_history observation_history n
              = Raise IndexError
      | first_obs :: _ =>
          CoreInvariants.check_forward_progress action_history observation_history n
          = Ok {| violated :=
                    forallb (fun obs => obs_eqb obs first_obs) observation_history |}
      end).
Proof.
  split.
  - intros Hn. unfold CoreInvariants.check_forward_progress.
    destruct (Nat.ltb_spec (length observation_history) n) as [Hshort|Hlong].
    { eexists. split; [reflexivity|]. simpl. split; [discriminate|].
      intros (_ & earlier & o & others & -> & Hl & _).
      rewrite length_app in Hshort. simpl in Hshort, Hl. lia. }
    assert (Hsplit : observation_history
                     = (firstn (length observation_history - n) observation_history
                        ++ slice_last n observation_history)%list).
    { unfold slice_last. destruct n; [lia|]. now rewrite firstn_skipn. }
    assert (Hlen : length (slice_last n observation_history) = n).
    { unfold slice_last. destruct n; [lia|]. rewrite length_skipn. lia. }
    destruct (slice_last n observation_history) as [|o others] eqn:Es;
      [simpl in Hlen; lia|].
    destruct (forallb (fun obs => obs_eqb obs o) (o :: others)) eqn:Ef.
    + destruct (Nat.leb_spec n (length action_history)) as [Ha|Ha]; simpl andb; cbv iota.
      * eexists. split; [reflexivity|]. simpl. split; [|reflexivity]. intros _.
        split; [exact Ha|]. eexists _, o, others. split; [exact Hsplit|].
        split; [exact Hlen|]. apply List.Forall_forall. intros x Hx.
        rewrite forallb_forall in Ef. now apply Ef.
      * eexists. split; [reflexivity|]. simpl. split; [discriminate|].
        intros (Ha' & _). lia.
    + simpl andb. cbv iota. eexists. split; [reflexivity|]. simpl.
      split; [discriminate|].
      intros (_ & earlier & o' & others' & E & Hl & Hall).
      assert (Eo : (o' :: others') = (o :: others)).
      { rewrite Hsplit in E at 1.
        apply app_inj_2 in E; [now destruct E | simpl in *; lia]. }
      injection Eo as -> ->.
      assert (Et : forallb (fun obs => obs_eqb obs o) (o :: others) = true).
      { apply forallb_forall. rewrite List.Forall_forall in Hall. exact Hall. }
      congruence.
  - intros ->. unfold CoreInvariants.check_forward_progress.
    destruct observation_history as [|o rest]; [reflexivity|].
    change (length (o :: rest) <? 0)%nat with false. cbv iota.
    change (slice_last 0 (o :: rest)) with (o :: rest). cbv iota.
    change (0 <=? length action_history)%nat with true. rewrite andb_true_r.
    now destruct (forallb _ _).
Qed.

End ForwardProgress.

Lemma forward_progress_window_witness :
  (0 < 3)%nat
  /\ exists v,
       CoreInvariants.check_forward_progress ["action1"; "action2"; "action3"]
         [Some "B"; Some "A"; Some "A"; Some "A"] 3 = Ok v
       /\ violated v = true.
Proof.
  assert (Hn : (0 < 3)%nat) by lia.
  split; [exact Hn|].
  destruct (proj1 (forward_progress_window ["action1"; "action2"; "action3"]
                     [Some "B"; Some "A"; Some "A"; Some "A"] 3) Hn) as (v & Hv & Hiff).
  exists v. split; [exact Hv|]. apply Hiff. split; [simpl; lia|].
  exists [Some "B"], (Some "A"), [Some "A"; Some "A"].
  split; [reflexivity|]. split; [reflexivity|]. repeat constructor.
Defined.

Section SubstringFacts.

Lemma prefix_spec (needle haystack : string) :
  String.prefix needle haystack = true
  <-> exists post, haystack = String.append needle post.
Proof.
  revert haystack. induction needle as [|c needle IH]; intros haystack.
  - split; [intros _; now exists haystack | intros _; now destruct haystack].
  - destruct haystack as [|d haystack]; simpl.
    + split; [discriminate | intros [post E]; discriminate E].
    + destruct (Ascii.ascii_dec c d) as [->|Hne].
      * rewrite IH. split; intros [post E]; exists post; [now rewrite E | now injection E].
      * split; [discriminate | intros [post E]; injection E as E1 E2; congruence].
Qed.

(** [needle in haystack] holds exactly when the haystack is the needle
    between two strings. *)
Lemma contains_spec (needle haystack : string) :
  contains needle haystack = true
  <-> exists pre post, haystack = String.append pre (String.append needle post).
Proof.
  induction haystack as [|d haystack IH].
  - change (contains needle "") with (String.prefix needle "" || false).
    rewrite orb_false_r, prefix_spec. split.
    + intros [post E]. now exists "", post.
    + intros (pre & post & E). destruct pre as [|c pre]; [now exists post | discriminate E].
  - change (contains needle (String d haystack))
      with (String.prefix needle (String d haystack) || contains needle haystack).
    rewrite orb_true_iff, prefix_spec, IH. split.
    + intros [[post E] | (pre & post & E)].
      * now exists "", post.
      * exists (String d pre), post. simpl. now rewrite E.
    + intros (pre & post & E). destruct pre as [|c pre].
      * left. now exists post.
      * right. simpl in E. injection E as _ E. now exists pre, post.
Qed.

End SubstringFacts.

Section TypedInvariantFacts.
Import TypedInvariants.
Context {V : Type}.

Lemma violated_nonempty {A : Type} (l : list A) :
  violated (match l with [] => {| violated := false |} | _ => {| violated := true |} end) = true
  <-> exists x, In x l.
Proof.
  destruct l as [|x l]; simpl.
  - split; [discriminate | intros [x []]].
  - split; [intros _; exists x; now left | reflexivity].
Qed.

(** X23. [check_entity_continuity] reports a violation exactly when some
    key of the previous entities is missing from the current ones and the
    lowercased action identifier contains neither "delete" nor "remove". *)
Theorem entity_continuity_spec (previous_keys : list string)
    (current_entities : gmap string V) (action_id : string) :
  violated (check_entity_continuity previous_keys current_entities action_id) = true
  <-> (exists entity_id, In entity_id previous_keys /\ current_entities !! entity_id = None)
      /\ ~ (exists pre post,
              lower action_id = String.append pre (String.append "delete" post))
      /\ ~ (exists pre post,
              lower action_id = String.append pre (String.append "remove" post)).
Proof.
  unfold check_entity_continuity. rewrite violated_nonempty.
  unfold disappeared_entities. rewrite <- !contains_spec. split.
  - intros (e & He). apply filter_In in He. destruct He as [Hin Hc].
    destruct (current_entities !! e) eqn:El; [discriminate|].
    apply andb_true_iff in Hc. destruct Hc as [H1 H2].
    apply negb_true_iff in H1, H2.
    split; [now exists e|]. split; congruence.
  - intros ((e & Hin & El) & H1 & H2). exists e. apply filter_In. split; [exact Hin|].
    rewrite El. apply andb_true_iff. split; apply negb_true_iff;
      [destruct (contains "delete" _) | destruct (contains "remove" _)];
      try reflexivity; contradiction.
Qed.

(** X24. [check_api_ui_consistency] reports a violation exactly when
    there is an API response whose [success] is truthy or whose [status] is
    "ok", and some expected field is missing from the UI observation. *)
Theorem api_ui_consistency_spec
    (api_response : option (gmap string Contract.param_value))
    (ui_observation : gmap string V) (expected_ui_fields : list string) :
  violated (check_api_ui_consistency api_response ui_observation expected_ui_fields) = true
  <-> exists response,
        api_response = Some response
        /\ (value_truthy (default (Contract.PBool false) (response !! "success")) = true
            \/ response !! "status" = Some (Contract.PStr "ok"))
        /\ exists field, In field expected_ui_fields /\ ui_observation !! field = None.
Proof.
  unfold check_api_ui_consistency. destruct api_response as [response|].
  - assert (Hok : value_is_ok (response !! "status") = true
                  <-> response !! "status" = Some (Contract.PStr "ok")).
    { unfold value_is_ok. destruct (response !! "status") as [[| | | |s]|]; simpl;
        try (split; discriminate).
      rewrite String.eqb_eq. split; [now intros -> | now intros [= ->]]. }
    destruct (value_truthy _ || value_is_ok _) eqn:Es; simpl negb; cbv iota.
    + rewrite violated_nonempty. unfold missing_fields.
      apply orb_true_iff in Es. rewrite Hok in Es. split.
      * intros (f & Hf). apply filter_In in Hf. destruct Hf as [Hin Hm].
        exists response. split; [reflexivity|]. split; [exact Es|].
        exists f. split; [exact Hin|]. now destruct (ui_observation !! f).
      * intros (r & _ & _ & f & Hin & Hm). exists f. apply filter_In.
        split; [exact Hin|]. now rewrite Hm.
    + simpl. split; [discriminate|].
      intros (r & E & Hs & _). injection E as <-.
      apply orb_false_iff in Es. destruct Es as [E1 E2].
      destruct Hs as [Hs|Hs]; [congruence|]. apply Hok in Hs. congruence.
  - simpl. split; [discriminate | intros (r & E & _); discriminate E].
Qed.

End TypedInvariantFacts.

Section AvailabilityFacts.
Import TypedInvariants.

(** X25. [check_action_availability_consistency] reports a violation
    exactly when the lowercased identifier of the executed action contains
    one of the state-changing keywords and the previous and current offers
    hold the same actions, in whatever order and however often. *)
Theorem availability_consistency_spec
    (previous_available_actions current_available_actions : list string)
    (action_executed : string) :
  violated (check_action_availability_consistency previous_available_actions
              current_available_actions action_executed) = true
  <-> (exists keyword pre post,
          In keyword state_changing_keywords
          /\ lower action_executed
             = String.append pre (String.append keyword post))
      /\ (forall a, In a previous_available_actions <-> In a current_available_actions).
Proof.
  unfold check_action_availability_consistency, contains_any.
  assert (Hkw : existsb (fun kw => contains kw (lower action_executed)) state_changing_keywords
                = true
                <-> exists keyword pre post,
                      In keyword state_changing_keywords
                      /\ lower action_executed
                         = String.append pre (String.append keyword post)).
  { rewrite existsb_exists. split.
    - intros (kw & Hin & Hc). apply contains_spec in Hc. destruct Hc as (pre & post & E).
      now exists kw, pre, post.
    - intros (kw & pre & post & Hin & E). exists kw. split; [exact Hin|].
      apply contains_spec. now exists pre, post. }
  assert (Hset : (list_to_set previous_available_actions : gset string)
                 = list_to_set current_available_actions
                 <-> forall a, In a previous_available_actions
                               <-> In a current_available_actions).
  { rewrite set_eq. split; intros Hs a; specialize (Hs a);
      rewrite !elem_of_list_to_set, !list_elem_of_In in *; exact Hs. }
  destruct (existsb _ state_changing_keywords) eqn:Ek.
  - destruct (bool_decide_reflect
                ((list_to_set previous_available_actions : gset string)
                 = list_to_set current_available_actions)) as [Es|Es]; simpl.
    + split; [|reflexivity]. intros _. split; [now apply Hkw | now apply Hset].
    + split; [discriminate|]. intros [_ Hs]. apply Hset in Hs. contradiction.
  - simpl. split; [discriminate|]. intros [Hk _]. apply Hkw in Hk. discriminate Hk.
Qed.

End AvailabilityFacts.

(** ** The state delta and the contract *)

Section StateDeltaFacts.
Import StateDelta.
Context {V : Type} `{EqDecision V}.

(** X26. [compute_state_delta] reports [unchanged] exactly when the two
    observations are equal; its added keys are those of the current
    observation only, its removed keys those of the previous one only, and
    its changed values the pairs of differing values under a common key. *)
Theorem state_delta_spec (previous current : gmap string V) :
  let delta := compute_state_delta previous current in
  (unchanged delta = true <-> previous = current)
  /\ (forall key, key ∈ added_keys delta
                  <-> previous !! key = None /\ is_Some (current !! key))
  /\ (forall key, key ∈ removed_keys delta
                  <-> is_Some (previous !! key) /\ current !! key = None)
  /\ (forall key x y, changed_values delta !! key = Some (x, y)
                      <-> previous !! key = Some x /\ current !! key = Some y /\ x <> y).
Proof.
  intros delta. subst delta. unfold compute_state_delta. cbn [unchanged added_keys removed_keys changed_values].
  assert (Hadded : forall key, key ∈ dom current ∖ dom previous
                               <-> previous !! key = None /\ is_Some (current !! key)).
  { intros key. rewrite elem_of_difference, !elem_of_dom.
    rewrite <- eq_None_not_Some. tauto. }
  assert (Hremoved : forall key, key ∈ dom previous ∖ dom current
                                 <-> is_Some (previous !! key) /\ current !! key = None).
  { intros key. rewrite elem_of_difference, !elem_of_dom.
    rewrite <- eq_None_not_Some. tauto. }
  assert (Hchanged : forall key x y,
             merge changed_entry previous current !! key = Some (x, y)
             <-> previous !! key = Some x /\ current !! key = Some y /\ x <> y).
  { intros key x y. rewrite lookup_merge.
    destruct (previous !! key) as [x'|], (current !! key) as [y'|]; simpl;
      try (split; [discriminate | intros (E1 & E2 & _); discriminate]).
    destruct (decide (x' = y')) as [->|Hne].
    - split; [discriminate | intros ([= ->] & [= ->] & Hxy); contradiction].
    - split; [intros [= -> ->]; auto | intros ([= ->] & [= ->] & _); reflexivity]. }
  split; [|split; [exact Hadded | split; [exact Hremoved | exact Hchanged]]].
  rewrite !andb_true_iff, !Nat.eqb_eq, !size_empty_iff, map_size_empty_iff.
  split.
  - intros [[Ha Hr] Hc]. apply map_eq. intros key.
    assert (Hna : ~ (previous !! key = None /\ is_Some (current !! key))).
    { rewrite <- Hadded. rewrite Ha. apply not_elem_of_empty. }
    assert (Hnr : ~ (is_Some (previous !! key) /\ current !! key = None)).
    { rewrite <- Hremoved. rewrite Hr. apply not_elem_of_empty. }
    destruct (previous !! key) as [x|] eqn:Ep, (current !! key) as [y|] eqn:Ecur.
    + destruct (decide (x = y)) as [->|Hne]; [reflexivity|].
      assert (Hs : merge changed_entry previous current !! key = Some (x, y))
        by (apply Hchanged; auto).
      rewrite Hc, lookup_empty in Hs. discriminate Hs.
    + destruct Hnr. split; [eauto | reflexivity].
    + destruct Hna. split; [reflexivity | eauto].
    + reflexivity.
  - intros <-. split; [split|].
    + apply set_equiv. intros key. rewrite Hadded. split.
      * intros [E [x Hx]]. congruence.
      * intros Hf. now apply not_elem_of_empty in Hf.
    + apply set_equiv. intros key. rewrite Hremoved. split.
      * intros [[x Hx] E]. congruence.
      * intros Hf. now apply not_elem_of_empty in Hf.
    + apply map_eq. intros key. rewrite lookup_empty.
      destruct (merge changed_entry previous previous !! key) as [[x y]|] eqn:Em;
        [|reflexivity].
      apply Hchanged in Em. destruct Em as (E1 & E2 & Hne). congruence.
Qed.

End StateDeltaFacts.

Section Revalidation.
Import Contract.

Lemma rstrip_idempotent (s : string) : rstrip (rstrip s) = rstrip s.
Proof.
  induction s as [|c s IH]; [reflexivity|]. simpl.
  destruct (rstrip s) as [|d r] eqn:Er.
  - destruct (is_space c) eqn:Ec; [reflexivity|]. simpl. now rewrite Ec.
  - simpl. simpl in IH. rewrite IH. reflexivity.
Qed.

Lemma rstrip_keeps_head (c : ascii) (s : string) :
  is_space c = false -> exists r, rstrip (String c s) = String c r.
Proof.
  intros Hc. simpl. destruct (rstrip s) as [|d r]; [rewrite Hc|]; eauto.
Qed.

Lemma strip_idempotent (s : string) : strip (strip s) = strip s.
Proof.
  unfold strip. destruct (lstrip_head s) as [E | (c & r & E & Hc)].
  - rewrite E. reflexivity.
  - rewrite E. destruct (rstrip_keeps_head c r Hc) as [r' Er]. rewrite Er.
    simpl lstrip. rewrite Hc. rewrite <- Er. apply rstrip_idempotent.
Qed.

(** X27. A contract that was constructed passes its own validation
    again and is returned unchanged: its [action_id] is not empty and has
    no surrounding whitespace, and none of its parameter keys is
    forbidden. *)
Theorem contract_revalidates_to_itself (aid : string)
    (params : list (string * param_value)) (c : ActionContract) :
  construct aid params = Ok c ->
  construct (action_id c) (parameters c) = Ok c
  /\ strip (action_id c) = action_id c
  /\ action_id c <> ""
  /\ Forall (fun key => is_forbidden key = false) (map fst (parameters c)).
Proof.
  intros Hc. unfold construct in Hc.
  destruct (action_id_field aid) as [a|e] eqn:Ea; [|discriminate].
  destruct (validate_parameters params) as [p|e] eqn:Ep; [|discriminate].
  injection Hc as <-. cbn [action_id parameters].
  pose proof (action_id_field_ok _ _ Ea) as ->.
  assert (Hne : strip aid <> "").
  { unfold action_id_field, validate_action_id in Ea.
    destruct (String.length aid <? 1)%nat; [discriminate|].
    destruct (str_truthy aid); [|discriminate]. simpl in Ea.
    destruct (str_truthy (strip aid)) eqn:Et; [|discriminate].
    intros E. rewrite E in Et. discriminate Et. }
  assert (Hp : p = params).
  { unfold validate_parameters in Ep. destruct (validate_parameters_loop _); [discriminate|].
    now injection Ep. }
  subst p.
  assert (Hid : action_id_field (strip aid) = Ok (strip aid)).
  { unfold action_id_field, validate_action_id. rewrite strip_idempotent.
    destruct (strip aid) as [|ch r] eqn:Es; [contradiction|]. reflexivity. }
  split; [unfold construct; now rewrite Hid, Ep|].
  split; [apply strip_idempotent|]. split; [exact Hne|].
  unfold validate_parameters in Ep.
  destruct (validate_parameters_loop (map fst params)) eqn:El; [discriminate|].
  clear -El. induction (map fst params) as [|k ks IH]; [constructor|].
  simpl in El. destruct (is_forbidden k) eqn:Ek; [discriminate|].
  constructor; [exact Ek | now apply IH].
Qed.

End Revalidation.

Lemma contract_revalidates_to_itself_witness :
  let c := {| Contract.action_id := "click_submit";
              Contract.parameters := [("timeout_ms", Contract.PInt 5000)] |} in
  Contract.construct " click_submit " [("timeout_ms", Contract.PInt 5000)] = Ok c
  /\ Contract.construct (Contract.action_id c) (Contract.parameters c) = Ok c
  /\ strip (Contract.action_id c) = Contract.action_id c
  /\ Contract.action_id c <> ""
  /\ Forall (fun key => Contract.is_forbidden key = false) (map fst (Contract.parameters c)).
Proof.
  intros c.
  assert (Hc : Contract.construct " click_submit " [("timeout_ms", Contract.PInt 5000)] = Ok c)
    by reflexivity.
  split; [exact Hc|].
  exact (contract_revalidates_to_itself _ _ _ Hc).
Defined.

(** ** The learner *)



Section LearnerKeys.
Context {Observation : Type} `{ObservationModel Observation} `{FloatRuntime}.

Lemma learn_from_observation_keys (state state' : AgentState Observation) (key : string) :
  Learner.learn_from_observation state = Ok state' ->
  (forall a, last_or_none (action_history (execution_context state)) = Some a ->
             key <> String.append a "_success_count") ->
  (forall url, page_url (ui_state state) = Some url ->
               key <> String.append "page_visits_" url) ->
  baselines (knowledge state') !! key = baselines (knowledge state) !! key.
Proof.
  unfold Learner.learn_from_observation. intros Hl Ha Hu. exc_inv. subst state'.
  destruct (last_or_none (action_history (execution_context state))) as [a0|];
    [pose proof (Ha a0 eq_refl) as Hk1; destruct (str_truthy a0)|]; simpl;
    (destruct (page_url (ui_state state)) as [u|];
     [pose proof (Hu u eq_refl) as Hk2; destruct (str_truthy u)|]);
    simpl; rewrite ?lookup_insert_ne by congruence; reflexivity.
Qed.

Lemma learn_from_observation_rate (state state' : AgentState Observation) (key : string)
    (d : baseline_dict) :
  Learner.learn_from_observation state = Ok state' ->
  baselines (knowledge state') !! key = Some d ->
  baselines (knowledge state) !! key = Some d \/ count (from_dict d) = 1%Z.
Proof.
  unfold Learner.learn_from_observation. intros Hl. exc_inv. subst state'.
  destruct (last_or_none (action_history (execution_context state))) as [a0|];
    [destruct (str_truthy a0)|]; simpl;
    (destruct (page_url (ui_state state)) as [u|]; [destruct (str_truthy u)|]);
    simpl; rewrite ?lookup_insert; repeat case_decide; intros E;
    try (left; exact E); right; injection E as <-; reflexivity.
Qed.

Lemma append_inj (a x y : string) : String.append a x = String.append a y -> x = y.
Proof.
  induction a as [|c a IH]; simpl; [auto|]. intros E. injection E as E. now apply IH.
Qed.

(** X29. The learner raises what the extraction of the metrics raises.
    When the metrics can be extracted it returns if no action was
    executed, or if no success rate is stored for the last action under a
    key other than the visit count of the page; and it raises only what the
    update of the success rate stored for the last action raises.  When it
    returns, the baselines differ from the given ones at most under the
    success count and the success rate of the last action and under the
    visit count of the page, and a success rate with all three keys is
    stored for the last action. *)
Theorem learner_writes_its_own_keys (state : AgentState Observation) :
  let last_action := last_or_none (action_history (execution_context state)) in
  let extracted :=
    extract_metrics_from_observation (observation (ui_state state)) last_action in
  (forall e, extracted = Raise e -> Learner.learner_node state = Raise e)
  /\ (forall metrics,
        extracted = Ok metrics ->
        (last_action = None -> exists state', Learner.learner_node state = Ok state')
        /\ (forall a,
              last_action = Some a ->
              baselines (knowledge state) !! String.append a "_success_rate" = None ->
              (forall url, page_url (ui_state state) = Some url ->
                           String.append a "_success_rate" <> String.append "page_visits_" url) ->
              exists state', Learner.learner_node state = Ok state')
        /\ (forall e,
              Learner.learner_node state = Raise e ->
              exists a d v,
                last_action = Some a
                /\ (baselines (knowledge state) !! String.append a "_success_rate" = Some d
                    \/ count (from_dict d) = 1%Z)
                /\ update (from_dict d) v = Raise e))
  /\ (forall state',
        Learner.learner_node state = Ok state' ->
        (forall key,
            (forall a, last_action = Some a ->
                       key <> String.append a "_success_count"
                       /\ key <> String.append a "_success_rate") ->
            (forall url, page_url (ui_state state) = Some url ->
                         key <> String.append "page_visits_" url) ->
            baselines (knowledge state') !! key = baselines (knowledge state) !! key)
        /\ (forall a, last_action = Some a ->
              exists rate : BaselineMetrics,
                baselines (knowledge state') !! String.append a "_success_rate"
                = Some (to_dict rate))).
Proof.
  intros last_action extracted. subst last_action extracted. split; [|split].
  - intros e He. unfold Learner.learner_node, Learner.learn_from_observation.
    now rewrite He.
  - intros metrics Hm.
    destruct (Learner.learn_from_observation state) as [s1|e1] eqn:El.
    2:{ unfold Learner.learn_from_observation in El. rewrite Hm in El. discriminate El. }
    destruct (learn_from_observation_frame _ _ El) as (_ & Ee & _).
    unfold Learner.learner_node. rewrite El. simpl exc_bind.
    unfold Learner.update_action_success_rates. rewrite Ee.
    split; [|split].
    + intros ->. eauto.
    + intros a Ea Hnone Hurl. rewrite Ea.
      rewrite (learn_from_observation_keys _ _ (String.append a "_success_rate") El).
      * rewrite Hnone. eauto.
      * intros a' Ea'. rewrite Ea in Ea'. injection Ea' as <-.
        intros E. apply append_inj in E. discriminate E.
      * exact Hurl.
    + intros e.
      destruct (last_or_none (action_history (execution_context state))) as [a|];
        [|discriminate].
      destruct (baselines (knowledge s1) !! String.append a "_success_rate") as [d|] eqn:Ed;
        [|discriminate].
      match goal with
      | |- context [update (from_dict d) ?v] =>
          destruct (update (from_dict d) v) as [u|e'] eqn:Eu; simpl; [discriminate|];
          intros E; injection E as <-; exists a, d, v
      end.
      split; [reflexivity|]. split; [|exact Eu].
      exact (learn_from_observation_rate _ _ _ _ El Ed).
  - intros state' Hl. unfold Learner.learner_node in Hl. exc_inv. rename a into s1.
    destruct (learn_from_observation_frame _ _ Ha) as (_ & Ee & _).
    unfold Learner.update_action_success_rates in Hl. rewrite Ee in Hl.
    split.
    + intros key Hkey Hurl.
      rewrite <- (learn_from_observation_keys _ _ key Ha
                    (fun a E => proj1 (Hkey a E)) Hurl).
      destruct (last_or_none (action_history (execution_context state))) as [a|] eqn:Ea.
      * destruct (Hkey a eq_refl) as [_ Hne].
        destruct (baselines (knowledge s1) !! String.append a "_success_rate") as [d|];
          exc_inv; subst state'; simpl; now rewrite lookup_insert_ne by congruence.
      * exc_inv. now subst state'.
    + intros a Ea. rewrite Ea in Hl.
      destruct (baselines (knowledge s1) !! String.append a "_success_rate") as [d|];
        exc_inv; subst state'; simpl; rewrite lookup_insert_eq; eauto.
      eexists {| mean := _; std_dev := _; count := _ |}. reflexivity.
Qed.

End LearnerKeys.

Lemma learner_writes_its_own_keys_witness :
  extract_metrics_from_observation (observation (ui_state rated_state))
    (last_or_none (action_history (execution_context rated_state))) = Ok []
  /\ exists state',
       Learner.learner_node rated_state = Ok state'
       /\ baselines (knowledge state') !! "fill_input_success_rate"
          = baselines (knowledge rated_state) !! "fill_input_success_rate"
       /\ exists rate : BaselineMetrics,
            baselines (knowledge state') !! "click_submit_success_rate" = Some (to_dict rate).
Proof.
  assert (Hm : extract_metrics_from_observation (observation (ui_state rated_state))
                 (last_or_none (action_history (execution_context rated_state))) = Ok [])
    by reflexivity.
  split; [exact Hm|].
  destruct (Learner.learner_node rated_state) as [state'|e] eqn:E;
    [|vm_compute in E; discriminate E].
  exists state'. split; [reflexivity|].
  destruct (proj2 (proj2 (@learner_writes_its_own_keys unit _ correctly_rounded_runtime
                            rated_state)) state' E) as [Hframe Hrate].
  split.
  - apply Hframe.
    + intros a Ea. injection Ea as <-. split; discriminate.
    + intros url Eu. discriminate Eu.
  - exact (Hrate "click_submit" eq_refl).
Defined.


(** ** What the detector reports *)

Section DetectorAttribution.
Context {Observation : Type} `{ObservationModel Observation} `{FloatRuntime}.

Lemma fold_update_unattributed (l : list AnomalyReport) (risks : gmap string Q) :
  Forall (fun a => opt_truthy (Anomaly.action_id a) = false) l ->
  fold_left Risk.update_from_anomaly l risks = risks.
Proof.
  induction 1 as [|a l Ha _ IH]; [reflexivity|]. simpl.
  replace (Risk.update_from_anomaly risks a) with risks; [exact IH|].
  unfold Risk.update_from_anomaly. destruct (Anomaly.action_id a) as [b|]; [|reflexivity].
  simpl in Ha. now rewrite Ha.
Qed.

Lemma recent_anomalies_forall (P : AnomalyReport -> Prop) (l : list AnomalyReport) (n : nat) :
  Forall P l -> Forall P (Risk.recent_anomalies l n).
Proof.
  intros Hl. unfold Risk.recent_anomalies. destruct (n <? length l)%nat; [|exact Hl].
  unfold slice_last. destruct n; [exact Hl|].
  rewrite <- (firstn_skipn (length l - S n) l) in Hl.
  apply Forall_app in Hl. now destruct Hl.
Qed.

(** X30. Every anomaly the detector finds is attributed to the action
    executed last ([None] when there is none), is of MEDIUM or HIGH
    severity, and is an invariant violation or a MEDIUM regression.  When
    no action was executed, or the last identifier is empty, only HIGH
    invariant violations and MEDIUM regressions can be found, and what was
    found changes no risk score. *)
Theorem detector_reports_about_last_action (state state' : AgentState Observation)
    (found : list AnomalyReport) :
  AnomalyDetector.detect_anomalies state = Ok (state', found) ->
  let last_action := last_or_none (action_history (execution_context state)) in
  Forall (fun a =>
            Anomaly.action_id a = last_action
            /\ (severity a = MEDIUM \/ severity a = HIGH)
            /\ (category a = INVARIANT_VIOLATION
                \/ category a = REGRESSION /\ severity a = MEDIUM)) found
  /\ (opt_truthy last_action = false ->
      Forall (fun a => severity a = HIGH /\ category a = INVARIANT_VIOLATION
                       \/ severity a = MEDIUM /\ category a = REGRESSION) found
      /\ forall risks n, Risk.update_risks_from_anomalies risks found n = risks).
Proof.
  intros Hd last_action. unfold AnomalyDetector.detect_anomalies in Hd.
  apply exc_bind_ok in Hd. destruct Hd as (found2 & H2 & Hd).
  apply exc_bind_ok in Hd. destruct Hd as (found3 & H3 & Hd).
  apply exc_bind_ok in Hd. destruct Hd as (found4 & H4 & Hd).
  apply exc_bind_ok in Hd. destruct Hd as (found5 & H5 & Hd).
  apply exc_bind_ok in Hd. destruct Hd as (metrics & _ & Hd).
  apply exc_bind_ok in Hd. destruct Hd as ([b found6] & H6 & Hd).
  rewrite forward_progress_anomalies_none in H4. simplify_eq.
  fold last_action in H6.
  pose proof (stability_anomalies_reports _ _ _ _ _ H6) as Hf6.
  set (shape := fun a : AnomalyReport =>
                  Anomaly.action_id a = last_action
                  /\ (last_action = None \/ last_action = Some ""
                      -> severity a = HIGH /\ category a = INVARIANT_VIOLATION
                         \/ severity a = MEDIUM /\ category a = REGRESSION)
                  /\ (severity a = MEDIUM \/ severity a = HIGH)
                  /\ (category a = INVARIANT_VIOLATION
                      \/ category a = REGRESSION /\ severity a = MEDIUM)).
  assert (Hall : Forall shape
                   (AnomalyDetector.cause_effect_anomalies state ++ found2 ++ found3
                    ++ [] ++ found5 ++ found6)%list).
  { repeat apply Forall_app_2.
    - unfold AnomalyDetector.cause_effect_anomalies. fold last_action.
      destruct last_action as [la|] eqn:El; [|constructor].
      destruct (str_truthy la) eqn:Et; [|constructor]. simpl andb.
      destruct (obs_truthy _); [|constructor].
      destruct (violated _); [|constructor].
      constructor; [|constructor]. unfold shape. simpl.
      split; [reflexivity|]. split; [|split; [now left | now left]].
      intros [E|E]; [discriminate E|]. injection E as ->. discriminate Et.
    - unfold AnomalyDetector.api_ui_anomalies in H2. fold last_action in H2.
      apply exc_bind_ok in H2. destruct H2 as (v & _ & H2). simplify_eq.
      destruct (violated v); [|constructor].
      constructor; [|constructor]. unfold shape. simpl.
      split; [reflexivity|]. split; [intros _; now left|]. split; [now right | now left].
    - unfold AnomalyDetector.entity_anomalies in H3. fold last_action in H3.
      destruct last_action as [la|] eqn:El; [|simplify_eq; constructor].
      destruct (str_truthy la) eqn:Et; [|simplify_eq; constructor].
      apply exc_bind_ok in H3. destruct H3 as (v & _ & H3). simplify_eq.
      destruct (violated v); [|constructor].
      constructor; [|constructor]. unfold shape. simpl.
      split; [reflexivity|]. split; [intros _; now left|]. split; [now right | now left].
    - constructor.
    - unfold AnomalyDetector.availability_anomalies in H5. fold last_action in H5.
      destruct last_action as [la|] eqn:El; [|simplify_eq; constructor].
      destruct (obs_truthy _); [|simpl in H5; simplify_eq; constructor].
      destruct (str_truthy la) eqn:Et; [|simpl in H5; simplify_eq; constructor].
      simpl andb in H5. cbv iota in H5.
      apply exc_bind_ok in H5. destruct H5 as (v & _ & H5). simplify_eq.
      destruct (violated v); [|constructor].
      constructor; [|constructor]. unfold shape. simpl.
      split; [reflexivity|]. split; [|split; [now left | now left]].
      intros [E|E]; [discriminate E|]. injection E as ->. discriminate Et.
    - eapply Forall_impl; [exact Hf6|]. intros a ->. unfold shape. simpl.
      split; [reflexivity|]. split; [intros _; now right|].
      split; [now left | now right]. }
  split.
  - eapply Forall_impl; [exact Hall|]. intros a (E1 & _ & E2 & E3). auto.
  - intros Hfalsy.
    assert (Hla : last_action = None \/ last_action = Some "").
    { destruct last_action as [la|]; [|now left]. right. simpl in Hfalsy.
      apply str_truthy_false in Hfalsy. now subst la. }
    split.
    + eapply Forall_impl; [exact Hall|]. intros a (_ & E & _). now apply E.
    + intros risks n. unfold Risk.update_risks_from_anomalies.
      apply fold_update_unattributed. apply recent_anomalies_forall.
      eapply Forall_impl; [exact Hall|]. intros a (E1 & _). now rewrite E1.
Qed.

End DetectorAttribution.

Lemma detector_reports_about_last_action_witness :
  exists (state' : AgentState (option string)) (found : list AnomalyReport),
    AnomalyDetector.detect_anomalies stalled_state = Ok (state', found)
    /\ found <> []
    /\ Forall (fun a =>
                 Anomaly.action_id a
                 = last_or_none (action_history (execution_context stalled_state))
                 /\ (severity a = MEDIUM \/ severity a = HIGH)
                 /\ (category a = INVARIANT_VIOLATION
                     \/ category a = REGRESSION /\ severity a = MEDIUM)) found.
Proof.
  destruct (AnomalyDetector.detect_anomalies stalled_state) as [[state' found]|e] eqn:E;
    [|vm_compute in E; discriminate E].
  exists state', found. split; [reflexivity|].
  split; [vm_compute in E; injection E as _ <-; discriminate|].
  exact (proj1 (detector_reports_about_last_action stalled_state state' found E)).
Defined.
